(** * PDF Folder & File Renamer: a shallow embedding of [rename_files.py]

    The script extracts an uploaded zip archive to a temporary directory,
    renames folders [AC001 -> 1] (Part 1), renames PDF files
    [S03A0010095.pdf -> S03_1_95.pdf] inside the folders it has just renamed
    (Part 2) and zips the temporary directory again.

    Modelling conventions.
    - Names are ASCII strings ([string]); a path is the list of its
      components, so [os.path.join root name] is [root ++ [name]].
    - The file system is a tree of [File]s and [Dir]s; a directory lists its
      entries in the order [os.scandir]/[os.listdir] reports them.
    - [os.rename] follows POSIX [rename(2)]; besides the errors decided by
      the tree, the operating system may refuse a move (permissions, I/O):
      this is the oracle [refuses].  A refused or failed move leaves the
      tree as it was.
    - The Streamlit widgets are output only; every [st.write], [st.warning],
      [st.info] and [st.markdown] of the two renaming parts is an [event] of
      the log.  Two further events record control flow that the script does
      not print: [EvWalk] (a directory yielded by [os.walk]) and [EvDir]
      (one iteration of [for dir_name in list(dirs)]). *)

From Stdlib Require Import List String Ascii Bool Arith NArith Lia.
From Stdlib Require Import Decimal DecimalString DecimalFacts DecimalN.
Import ListNotations.

Set Warnings "-register-all".

Local Open Scope string_scope.
Local Open Scope list_scope.

(** String concatenation, Python's [+] on [str]. *)
Infix "+++" := String.append (at level 60, right associativity).

(* ================================================================= *)
(** ** Python strings *)

Module PyStr.

(** [c.isdigit()] on ASCII, the class [\d] of [re]. *)
Definition is_digit (c : ascii) : bool :=
  (48 <=? nat_of_ascii c)%nat && (nat_of_ascii c <=? 57)%nat.

Definition is_lower (c : ascii) : bool :=
  (97 <=? nat_of_ascii c)%nat && (nat_of_ascii c <=? 122)%nat.

Definition is_upper (c : ascii) : bool :=
  (65 <=? nat_of_ascii c)%nat && (nat_of_ascii c <=? 90)%nat.

Definition upper_ascii (c : ascii) : ascii :=
  if is_lower c then ascii_of_nat (nat_of_ascii c - 32) else c.

Definition lower_ascii (c : ascii) : ascii :=
  if is_upper c then ascii_of_nat (nat_of_ascii c + 32) else c.

(** [s.upper()] and [s.lower()]. *)
Fixpoint upper (s : string) : string :=
  match s with
  | EmptyString => EmptyString
  | String c s' => String (upper_ascii c) (upper s')
  end.

Fixpoint lower (s : string) : string :=
  match s with
  | EmptyString => EmptyString
  | String c s' => String (lower_ascii c) (lower s')
  end.

(** [s.startswith(pre)]. *)
Definition startswith (s pre : string) : bool := String.prefix pre s.

(** [s.endswith(suf)]: [s] is [suf], or the tail of [s] ends with [suf]. *)
Fixpoint endswith (s suf : string) : bool :=
  (s =? suf) ||
  match s with
  | EmptyString => false
  | String _ s' => endswith s' suf
  end.

Definition all_digits (s : string) : bool :=
  forallb is_digit (list_ascii_of_string s).

(** [int(s)] for a string of decimal digits; [None] is [ValueError]. *)
Definition int (s : string) : option N :=
  match s with
  | EmptyString => None
  | _ => option_map N.of_uint (NilEmpty.uint_of_string s)
  end.

(** [str(n)] for a non-negative integer. *)
Definition str (n : N) : string := NilEmpty.string_of_uint (N.to_uint n).

(** [re.findall(r'\d+', s)]: the maximal digit runs of [s], left to right.
    [cur] is the run being read. *)
Fixpoint findall_digits_from (cur : string) (s : string) : list string :=
  match s with
  | EmptyString => match cur with EmptyString => [] | _ => [cur] end
  | String c s' =>
      if is_digit c then findall_digits_from (cur +++ String c EmptyString) s'
      else match cur with
           | EmptyString => findall_digits_from EmptyString s'
           | _ => cur :: findall_digits_from EmptyString s'
           end
  end.

Definition findall_digits (s : string) : list string :=
  findall_digits_from EmptyString s.

End PyStr.

(* ================================================================= *)
(** ** The file-name pattern of Part 2 *)

Module Pattern.
Import PyStr.

(** The atoms the pattern [^(S\d{2})A(\d{3})(\d{4})\.pdf$] is made of. *)
Inductive atom : Type :=
| Lit (c : ascii)   (** a literal, compared under [re.IGNORECASE] *)
| Digit.            (** [\d] *)

Definition atom_matches (a : atom) (c : ascii) : bool :=
  match a with
  | Lit l => Ascii.eqb (lower_ascii c) (lower_ascii l)
  | Digit => is_digit c
  end.

(** Match a sequence of atoms at the start of [s]: the text matched and the
    rest of the subject. *)
Fixpoint match_seq (pat : list atom) (s : string) : option (string * string) :=
  match pat with
  | [] => Some (EmptyString, s)
  | a :: pat' =>
      match s with
      | EmptyString => None
      | String c s' =>
          if atom_matches a c then
            match match_seq pat' s' with
            | Some (m, rest) => Some (String c m, rest)
            | None => None
            end
          else None
      end
  end.

(** [$] without [re.MULTILINE]: the end of the subject, or just before a
    newline that ends it. *)
Definition at_end (s : string) : bool :=
  match s with
  | EmptyString => true
  | String c EmptyString => Ascii.eqb c "010"%char
  | _ => false
  end.

Definition bind {A B : Type} (o : option A) (k : A -> option B) : option B :=
  match o with Some a => k a | None => None end.

Notation "' p <- o ;; k" := (bind o (fun p => k))
  (at level 61, p pattern, o at next level, right associativity).

(** [re.match(r'^(S\d{2})A(\d{3})(\d{4})\.pdf$', filename, re.IGNORECASE)]:
    the three groups of a match. *)
Definition re_match_pdf (filename : string) : option (string * string * string) :=
  ' (g1, r1) <- match_seq [Lit "S"; Digit; Digit] filename ;;
  ' (_,  r2) <- match_seq [Lit "A"] r1 ;;
  ' (g2, r3) <- match_seq [Digit; Digit; Digit] r2 ;;
  ' (g3, r4) <- match_seq [Digit; Digit; Digit; Digit] r3 ;;
  ' (_,  r5) <- match_seq [Lit "."; Lit "p"; Lit "d"; Lit "f"] r4 ;;
  if at_end r5 then Some (g1, g2, g3) else None.

End Pattern.

(* ================================================================= *)
(** ** The two renaming rules on names *)

Module Names.
Import PyStr Pattern.

(** Lines 86-90: the new name of a folder, when the rule applies.
    [None] covers both guards: no [AC] prefix, and no digit run. *)
Definition folder_new_name (dir_name : string) : option string :=
  if startswith (upper dir_name) "AC" then
    match findall_digits dir_name with
    | [] => None
    | number :: _ => option_map str (int number)
    end
  else None.

(** Lines 119-127: the new name of a file, when the rule applies. *)
Definition pdf_new_name (filename : string) : option string :=
  if endswith (lower filename) ".pdf" then
    match re_match_pdf filename with
    | Some (g1, g2, g3) =>
        match int g2, int g3 with
        | Some part2_num, Some part3_num =>
            Some (upper g1 +++ "_" +++ str part2_num +++ "_" +++ str part3_num +++ ".pdf")
        | _, _ => None
        end
    | None => None
    end
  else None.

End Names.

Import PyStr Pattern Names.

Example folder_AC001 : folder_new_name "AC001" = Some "1".
Proof. reflexivity. Qed.
Example folder_ac0420x7 : folder_new_name "ac-0420x7" = Some "420".
Proof. reflexivity. Qed.
Example folder_ACx : folder_new_name "ACx" = None.
Proof. reflexivity. Qed.
Example pdf_ok : pdf_new_name "S03A0010095.pdf" = Some "S03_1_95.pdf".
Proof. reflexivity. Qed.
Example pdf_upper_ext : pdf_new_name "s03a0010095.PDF" = Some "S03_1_95.pdf".
Proof. reflexivity. Qed.
Example pdf_short : pdf_new_name "S3A0010095.pdf" = None.
Proof. reflexivity. Qed.

(* ================================================================= *)
(** ** The file system *)

Module FS.

Definition path : Type := list string.
Definition bytes : Type := list Byte.byte.

(** A node of the tree: a regular file with its content, or a directory
    with its entries in listing order.  ([zipfile.extractall] creates
    nothing but regular files and directories.) *)
Inductive node : Type :=
| File (data : bytes)
| Dir (entries : list (string * node)).

Definition entries : Type := list (string * node).

Definition is_dir (n : node) : bool :=
  match n with Dir _ => true | File _ => false end.

Fixpoint path_eqb (p q : path) : bool :=
  match p, q with
  | [], [] => true
  | x :: p', y :: q' => (x =? y) && path_eqb p' q'
  | _, _ => false
  end.

(** [p] is [q] or an ancestor of [q]. *)
Fixpoint is_prefix (p q : path) : bool :=
  match p, q with
  | [], _ => true
  | x :: p', y :: q' => (x =? y) && is_prefix p' q'
  | _ :: _, [] => false
  end.

(** [os.path.dirname] and [os.path.basename] on component lists. *)
Definition dirname (p : path) : path := removelast p.
Definition basename (p : path) : string := last p EmptyString.

Fixpoint assoc (k : string) (es : entries) : option node :=
  match es with
  | [] => None
  | (k', c) :: es' => if k' =? k then Some c else assoc k es'
  end.

Definition names (es : entries) : list string := map fst es.

Fixpoint lookup (fs : node) (p : path) : option node :=
  match p with
  | [] => Some fs
  | x :: p' =>
      match fs with
      | Dir es =>
          match assoc x es with
          | Some c => lookup c p'
          | None => None
          end
      | File _ => None
      end
  end.

(** Apply [f] to the entry named [x]. *)
Fixpoint map_entry (x : string) (f : node -> node) (es : entries) : entries :=
  match es with
  | [] => []
  | (k, c) :: es' => if k =? x then (k, f c) :: es' else (k, c) :: map_entry x f es'
  end.

(** Apply [g] to the node at path [p]; nothing happens when [p] is absent. *)
Fixpoint at_path (p : path) (g : node -> node) (fs : node) : node :=
  match p with
  | [] => g fs
  | x :: p' =>
      match fs with
      | Dir es => Dir (map_entry x (at_path p' g) es)
      | File _ => fs
      end
  end.

Definition on_entries (f : entries -> entries) (n : node) : node :=
  match n with
  | Dir es => Dir (f es)
  | File _ => n
  end.

Definition remove_entry (k : string) (es : entries) : entries :=
  filter (fun e => negb (fst e =? k)) es.

(** Bind [k] to [v]: in place when [k] is listed, else as a new last entry. *)
Fixpoint set_entry (k : string) (v : node) (es : entries) : entries :=
  match es with
  | [] => [(k, v)]
  | (k', c) :: es' => if k' =? k then (k, v) :: es' else (k', c) :: set_entry k v es'
  end.

Definition unlink (fs : node) (p : path) : node :=
  at_path (dirname p) (on_entries (remove_entry (basename p))) fs.

Definition link (fs : node) (p : path) (v : node) : node :=
  at_path (dirname p) (on_entries (set_entry (basename p) v)) fs.

Definition os_path_exists (fs : node) (p : path) : bool :=
  match lookup fs p with Some _ => true | None => false end.

Definition os_path_isdir (fs : node) (p : path) : bool :=
  match lookup fs p with Some (Dir _) => true | _ => false end.

(** [os.listdir(p)]; [None] when it raises. *)
Definition os_listdir (fs : node) (p : path) : option (list string) :=
  match lookup fs p with
  | Some (Dir es) => Some (names es)
  | _ => None
  end.

Definition dir_names (es : entries) : list string :=
  names (filter (fun e => is_dir (snd e)) es).

Definition file_names (es : entries) : list string :=
  names (filter (fun e => negb (is_dir (snd e))) es).

(** What [os.walk] learns from [os.scandir(top)]: the [dirs] and the
    [nondirs] of [top]; [None] when [scandir] raises. *)
Definition scandir (fs : node) (top : path) : option (list string * list string) :=
  match lookup fs top with
  | Some (Dir es) => Some (dir_names es, file_names es)
  | _ => None
  end.

Inductive oserror : Type :=
| ENOENT      (** FileNotFoundError *)
| EISDIR      (** IsADirectoryError *)
| ENOTDIR     (** NotADirectoryError *)
| ENOTEMPTY   (** OSError: directory not empty *)
| EINVAL      (** OSError: a directory moved into itself *)
| EBUSY       (** OSError: the root directory *)
| EACCES      (** PermissionError and other refusals of the system *)
| EEXIST.     (** shutil.Error: destination path already exists *)

Section Rename.

(** The moves the operating system refuses whatever the tree is. *)
Variable refuses : path -> path -> bool.

(** [os.rename(src, dst)] on POSIX. *)
Definition os_rename (fs : node) (src dst : path) : oserror + node :=
  if refuses src dst then inl EACCES else
  match src, dst with
  | [], _ | _, [] => inl EBUSY
  | _, _ =>
    match lookup fs src with
    | None => inl ENOENT
    | Some n =>
        if path_eqb src dst then inr fs
        else if is_prefix src dst then inl EINVAL
        else
          match lookup fs dst, n with
          | Some (Dir _), File _ => inl EISDIR
          | Some (File _), Dir _ => inl ENOTDIR
          | Some (Dir (_ :: _)), Dir _ => inl ENOTEMPTY
          | Some _, _ => inr (link (unlink fs src) dst n)
          | None, _ =>
              if os_path_isdir fs (dirname dst)
              then inr (link (unlink fs src) dst n)
              else inl ENOENT
          end
    end
  end.

(** [shutil.move(src, dst)].  When [dst] is a directory the source is
    moved into it.  The copy-and-delete fallback after a failed
    [os.rename] is not modelled: the failure is the result. *)
Definition shutil_move (fs : node) (src dst : path) : oserror + node :=
  if os_path_isdir fs dst then
    if path_eqb src dst then os_rename fs src dst
    else
      let real_dst := dst ++ [basename src] in
      if os_path_exists fs real_dst then inl EEXIST
      else os_rename fs src real_dst
  else os_rename fs src dst.

End Rename.

Fixpoint nodupb (l : list string) : bool :=
  match l with
  | [] => true
  | x :: l' => negb (existsb (String.eqb x) l') && nodupb l'
  end.

(** Every directory lists a name once. *)
Fixpoint wf (n : node) : bool :=
  match n with
  | File _ => true
  | Dir es => nodupb (names es) && forallb (fun e => wf (snd e)) es
  end.

(** The number of directory levels below (and including) a node. *)
Fixpoint height (n : node) : nat :=
  match n with
  | File _ => 0
  | Dir es => S (fold_right (fun e h => Nat.max (height (snd e)) h) 0 es)
  end.

End FS.

(* ================================================================= *)
(** ** The script *)

Module Script.
Import FS.

Inductive exn : Type :=
| ValueError                 (** [int] of a non-number, [list.remove] of an absent item *)
| OSError (e : oserror).

(** The outcome of running a part of the script: a value, an exception that
    nothing catches, or no answer within the fuel of the model. *)
Inductive result (A : Type) : Type :=
| Ok (a : A)
| Raise (e : exn)
| OutOfFuel.
Arguments Ok {A} a.
Arguments Raise {A} e.
Arguments OutOfFuel {A}.

Definition rbind {A B : Type} (r : result A) (k : A -> result B) : result B :=
  match r with
  | Ok a => k a
  | Raise e => Raise e
  | OutOfFuel => OutOfFuel
  end.

Notation "x <- r ;;; k" := (rbind r (fun x => k))
  (at level 61, r at next level, right associativity).

(** A [for] loop whose body may raise. *)
Fixpoint for_each {A S : Type} (body : S -> A -> result S) (l : list A) (s : S) : result S :=
  match l with
  | [] => Ok s
  | a :: l' => s' <- body s a ;;; for_each body l' s'
  end.

Inductive event : Type :=
| EvWalk (root : path)                         (** [os.walk] yields [root] *)
| EvDir (root : path) (dir_name : string)      (** one [dir_name] of [list(dirs)] *)
| EvFolderCollision (original_path new_path : path)   (** line 93 *)
| EvFolderRenamed (original_path new_path : path)     (** line 97 *)
| EvFolderFailed (original_path : path) (e : exn)     (** line 102 *)
| EvNoFolders                                         (** line 112 *)
| EvScan (folder_path : path)                         (** line 116 *)
| EvFileRenamed (old_file_path new_file_path : path)  (** line 134 *)
| EvFileFailed (old_file_path : path) (e : exn)       (** line 137 *)
| EvFileSkipped (file_path : path).                   (** line 139 *)

Record state : Type := mkState {
  fs : node;
  folders_renamed_count : nat;
  renamed_folder_map : list (path * path);   (** a [dict], in insertion order *)
  files_renamed_count : nat;
  log : list event
}.

Definition emit (e : event) (st : state) : state :=
  mkState st.(fs) st.(folders_renamed_count) st.(renamed_folder_map)
          st.(files_renamed_count) (st.(log) ++ [e]).

(** [d[k] = v] on a [dict]: the value changes in place when [k] is a key. *)
Fixpoint dict_set (k v : path) (d : list (path * path)) : list (path * path) :=
  match d with
  | [] => [(k, v)]
  | (k', v') :: d' => if path_eqb k' k then (k', v) :: d' else (k', v') :: dict_set k v d'
  end.

Definition dict_values (d : list (path * path)) : list path := map snd d.

(** [l.remove(x)]: the first [x] goes; [None] is [ValueError]. *)
Fixpoint list_remove (x : string) (l : list string) : option (list string) :=
  match l with
  | [] => None
  | y :: l' =>
      if y =? x then Some l'
      else option_map (cons y) (list_remove x l')
  end.

Definition of_int (o : option N) : result N :=
  match o with Some n => Ok n | None => Raise ValueError end.

Section Run.

Variable refuses : path -> path -> bool.

(** *** Part 1: folders (lines 84-102) *)

(** Lines 85-102 for one [root]: [todo] is what is left of [list(dirs)],
    [dirs] the list [os.walk] will read when the body is done. *)
Fixpoint folder_loop (root : path) (todo dirs : list string) (st : state)
  : result (state * list string) :=
  match todo with
  | [] => Ok (st, dirs)
  | dir_name :: todo' =>
      let st := emit (EvDir root dir_name) st in
      if PyStr.startswith (PyStr.upper dir_name) "AC" then
        let original_path := root ++ [dir_name] in
        match PyStr.findall_digits dir_name with
        | [] => folder_loop root todo' dirs st
        | number :: _ =>
            n <- of_int (PyStr.int number) ;;;
            let new_name := PyStr.str n in
            let new_path := root ++ [new_name] in
            if os_path_exists st.(fs) new_path then
              folder_loop root todo' dirs (emit (EvFolderCollision original_path new_path) st)
            else
              match shutil_move refuses st.(fs) original_path new_path with
              | inr fs' =>
                  let st :=
                    mkState fs' (S st.(folders_renamed_count))
                            (dict_set original_path new_path st.(renamed_folder_map))
                            st.(files_renamed_count)
                            (st.(log) ++ [EvFolderRenamed original_path new_path]) in
                  match list_remove dir_name dirs with
                  | Some dirs' => folder_loop root todo' dirs' st
                  | None =>
                      folder_loop root todo' dirs
                        (emit (EvFolderFailed original_path ValueError) st)
                  end
              | inl e =>
                  folder_loop root todo' dirs
                    (emit (EvFolderFailed original_path (OSError e)) st)
              end
        end
      else folder_loop root todo' dirs st
  end.

(** [for root, dirs, _ in os.walk(top)] with the body above: top-down, the
    sub-directories left in [dirs] are walked after the body, each listed
    when the walk reaches it.  [fuel] bounds the depth of the recursion. *)
Fixpoint walk_folders (fuel : nat) (top : path) (st : state) : result state :=
  match fuel with
  | 0 => OutOfFuel
  | S fuel' =>
      match scandir st.(fs) top with
      | None => Ok st
      | Some (dirs, _) =>
          r <- folder_loop top dirs dirs (emit (EvWalk top) st) ;;;
          for_each (fun s d => walk_folders fuel' (top ++ [d]) s) (snd r) (fst r)
      end
  end.

(** *** Part 2: PDF files (lines 109-139) *)

(** Lines 118-139 for one folder. *)
Fixpoint file_loop (folder_path : path) (todo : list string) (st : state) : result state :=
  match todo with
  | [] => Ok st
  | filename :: todo' =>
      if PyStr.endswith (PyStr.lower filename) ".pdf" then
        match Pattern.re_match_pdf filename with
        | Some (g1, g2, g3) =>
            let part1 := PyStr.upper g1 in
            part2_num <- of_int (PyStr.int g2) ;;;
            part3_num <- of_int (PyStr.int g3) ;;;
            let new_filename :=
              part1 +++ "_" +++ PyStr.str part2_num +++ "_" +++ PyStr.str part3_num +++ ".pdf" in
            let old_file_path := folder_path ++ [filename] in
            let new_file_path := folder_path ++ [new_filename] in
            match os_rename refuses st.(fs) old_file_path new_file_path with
            | inr fs' =>
                file_loop folder_path todo'
                  (mkState fs' st.(folders_renamed_count) st.(renamed_folder_map)
                           (S st.(files_renamed_count))
                           (st.(log) ++ [EvFileRenamed old_file_path new_file_path]))
            | inl e =>
                file_loop folder_path todo' (emit (EvFileFailed old_file_path (OSError e)) st)
            end
        | None =>
            file_loop folder_path todo' (emit (EvFileSkipped (folder_path ++ [filename])) st)
        end
      else file_loop folder_path todo' st
  end.

Definition scan_folder (st : state) (folder_path : path) : result state :=
  let st := emit (EvScan folder_path) st in
  match os_listdir st.(fs) folder_path with
  | Some l => file_loop folder_path l st
  | None => Raise (OSError ENOENT)
  end.

Definition rename_files (st : state) : result state :=
  let final_renamed_paths := dict_values st.(renamed_folder_map) in
  let st := match final_renamed_paths with [] => emit EvNoFolders st | _ => st end in
  for_each scan_folder final_renamed_paths st.

(** *** Lines 57-60: the base path *)

Definition detect_base (fs : node) (temp_dir : path) : result path :=
  match os_listdir fs temp_dir with
  | None => Raise (OSError ENOENT)
  | Some extracted_contents =>
      match extracted_contents with
      | [x] => if os_path_isdir fs (temp_dir ++ [x]) then Ok (temp_dir ++ [x]) else Ok temp_dir
      | _ => Ok temp_dir
      end
  end.

Definition initial (fs : node) : state := mkState fs 0 [] 0 [].

Definition rename_folders (fs : node) (base_path : path) : result state :=
  walk_folders (S (height fs)) base_path (initial fs).

(** Lines 57-141: both parts on the extracted tree. *)
Definition rename_all (fs : node) (temp_dir : path) : result state :=
  base_path <- detect_base fs temp_dir ;;;
  st <- rename_folders fs base_path ;;;
  rename_files st.

End Run.

End Script.

(* ================================================================= *)
(** ** Repackaging (lines 147-156) and extraction *)

Module Zip.
Import FS Script.

(** An archive: its entries in the order they were written, each with its
    name (the components that [/] separates) and its content.  The deflate
    compression of the content is lossless and is not modelled. *)
Definition archive : Type := list (path * bytes).

Fixpoint common_len (p q : path) : nat :=
  match p, q with
  | x :: p', y :: q' => if x =? y then S (common_len p' q') else 0
  | _, _ => 0
  end.

(** [os.path.relpath(p, start)]: up from [start] to the common ancestor,
    then down to [p]. *)
Definition relpath (p start : path) : path :=
  let i := common_len start p in
  match repeat ".." (List.length start - i) ++ skipn i p with
  | [] => ["."]
  | rel => rel
  end.

(** [os.walk(top)] over a tree that nothing changes during the walk: the
    triples [(root, dirs, files)] in the order they are yielded. *)
Fixpoint os_walk (top : path) (n : node) : list (path * list string * list string) :=
  match n with
  | File _ => []
  | Dir es =>
      (top, dir_names es, file_names es)
      :: flat_map (fun e => if is_dir (snd e) then os_walk (top ++ [fst e]) (snd e) else []) es
  end.

(** [zip_file.write(file_path, archive_name)]. *)
Definition zip_write (fs : node) (zip_file : archive) (file_path archive_name : path)
  : result archive :=
  match lookup fs file_path with
  | Some (File data) => Ok (zip_file ++ [(archive_name, data)])
  | Some (Dir _) => Ok (zip_file ++ [(archive_name, [])])
  | None => Raise (OSError ENOENT)
  end.

(** Lines 150-156. *)
Definition repackage (fs : node) (temp_dir : path) : result archive :=
  match lookup fs temp_dir with
  | None => Ok []
  | Some n =>
      for_each
        (fun zip_file '(root, _, files) =>
           for_each
             (fun zip_file file =>
                let file_path := root ++ [file] in
                let archive_name := relpath file_path temp_dir in
                zip_write fs zip_file file_path archive_name)
             files zip_file)
        (os_walk temp_dir n) []
  end.

(** [ZipFile._extract_member] drops the components that could leave the
    target directory. *)
Definition sanitize (name : path) : path :=
  filter (fun x => negb ((x =? "") || (x =? ".") || (x =? ".."))) name.

(** Create the missing directories of [p] below [t] and write the file;
    [None] when a file is in the way of a directory or a directory in the
    way of the file. *)
Fixpoint write_file (p : path) (data : bytes) (t : node) : option node :=
  match t with
  | File _ => None
  | Dir es =>
      match p with
      | [] => None
      | [x] =>
          match assoc x es with
          | Some (Dir _) => None
          | _ => Some (Dir (set_entry x (File data) es))
          end
      | x :: p' =>
          let sub := match assoc x es with Some c => c | None => Dir [] end in
          match write_file p' data sub with
          | Some sub' => Some (Dir (set_entry x sub' es))
          | None => None
          end
      end
  end.

(** [ZipFile.extractall] into a fresh directory: its content afterwards. *)
Fixpoint extract_into (zf : archive) (t : node) : option node :=
  match zf with
  | [] => Some t
  | (name, data) :: zf' =>
      match write_file (sanitize name) data t with
      | Some t' => extract_into zf' t'
      | None => None
      end
  end.

Definition extractall (zf : archive) : option node := extract_into zf (Dir []).

End Zip.

(* ================================================================= *)
(** ** The whole run (lines 46-156) *)

Module App.
Import FS Script Zip.


Section Main.

Variable refuses : path -> path -> bool.


End Main.

End App.

(* ================================================================= *)
(** ** Vocabulary of the specification *)

Module Spec.
Import PyStr.

(** No character of [s] is a digit. *)
Definition no_digit (s : string) : bool :=
  forallb (fun c => negb (is_digit c)) (list_ascii_of_string s).

(** [s] is empty or begins with a character that is not a digit. *)
Definition digit_free_start (s : string) : bool :=
  match s with
  | EmptyString => true
  | String c _ => negb (is_digit c)
  end.

Fixpoint drop_zeros (s : string) : string :=
  match s with
  | String "0"%char s' => drop_zeros s'
  | _ => s
  end.

(** A decimal numeral without its leading zeros; zero is written [0]. *)
Definition strip_zeros (s : string) : string :=
  match drop_zeros s with
  | EmptyString => "0"
  | r => r
  end.

(** The three groups of a name [S<2 digits>A<3 digits><4 digits>.pdf],
    letters and extension in either case. *)
Definition is_S_token (g : string) : Prop :=
  exists s d1 d2, g = String s (String d1 (String d2 "")) /\
    upper_ascii s = "S"%char /\ is_digit d1 = true /\ is_digit d2 = true.

Definition digits_of_length (k : nat) (g : string) : Prop :=
  String.length g = k /\ all_digits g = true.

Definition pdf_shape (filename g1 g2 g3 : string) : Prop :=
  exists a ext,
    filename = g1 +++ String a "" +++ g2 +++ g3 +++ ext /\
    is_S_token g1 /\ upper_ascii a = "A"%char /\
    digits_of_length 3 g2 /\ digits_of_length 4 g3 /\
    lower ext = ".pdf".

Fixpoint str_last (s : string) : option ascii :=
  match s with
  | EmptyString => None
  | String c EmptyString => Some c
  | String _ s' => str_last s'
  end.

End Spec.



(* ================================================================= *)
(** ** The two parts seen from the directory they work in

    Part 1 changes the entries of the directory [os.walk] has yielded and
    nothing else; below, the same loops are written on that list of entries
    and on the tree, and shown to agree with the script. *)

Module Tree.
Import FS Script Names.

(** Induction on trees: the property holds for a directory when it holds
    for every entry. *)
Fixpoint node_induction (P : node -> Prop)
    (HF : forall data, P (File data))
    (HD : forall es, Forall (fun e => P (snd e)) es -> P (Dir es))
    (n : node) : P n :=
  match n with
  | File data => HF data
  | Dir es =>
      HD es ((fix go (l : entries) : Forall (fun e => P (snd e)) l :=
                match l with
                | [] => Forall_nil _
                | e :: l' => Forall_cons e (node_induction P HF HD (snd e)) (go l')
                end) es)
  end.


(** What an event does to the counters and to the rename map. *)
Definition record (st : state) (e : event) : state :=
  match e with
  | EvFolderRenamed original_path new_path =>
      mkState st.(fs) (S st.(folders_renamed_count))
              (dict_set original_path new_path st.(renamed_folder_map))
              st.(files_renamed_count) (st.(log) ++ [e])
  | EvFileRenamed _ _ =>
      mkState st.(fs) st.(folders_renamed_count) st.(renamed_folder_map)
              (S st.(files_renamed_count)) (st.(log) ++ [e])
  | _ => emit e st
  end.

Definition replay (evs : list event) (st : state) : state := fold_left record evs st.

Definition with_fs (fs' : node) (st : state) : state :=
  mkState fs' st.(folders_renamed_count) st.(renamed_folder_map)
          st.(files_renamed_count) st.(log).

(** The directories an event shows the walk at work in. *)
Definition roots_of (e : event) : list path :=
  match e with
  | EvWalk root => [root]
  | EvDir root _ => [root]
  | _ => []
  end.

(** The directory an event shows under examination by lines 85-102. *)
Definition examined_of (e : event) : list path :=
  match e with
  | EvDir root dir_name => [root ++ [dir_name]]
  | _ => []
  end.

(** The rename an event reports. *)
Definition rename_of (e : event) : list (path * path) :=
  match e with
  | EvFolderRenamed original_path new_path => [(original_path, new_path)]
  | _ => []
  end.

(** The folder whose scan an event announces (line 116). *)
Definition scanned_of (e : event) : list path :=
  match e with
  | EvScan folder_path => [folder_path]
  | _ => []
  end.

(** [e] is an event of lines 119-139 about an entry of [folder_path]. *)
Definition file_event_in (folder_path : path) (e : event) : Prop :=
  exists filename,
    e = EvFileSkipped (folder_path ++ [filename]) \/
    (exists err, e = EvFileFailed (folder_path ++ [filename]) err) \/
    (exists new_filename,
       pdf_new_name filename = Some new_filename /\
       e = EvFileRenamed (folder_path ++ [filename]) (folder_path ++ [new_filename])).

(** The folder whose examination an event settles: skipped for a
    collision, renamed, or not renamed because the move failed. *)
Definition outcome_of (e : event) : list path :=
  match e with
  | EvFolderCollision original_path _ => [original_path]
  | EvFolderRenamed original_path _ => [original_path]
  | EvFolderFailed original_path (OSError _) => [original_path]
  | _ => []
  end.

(** The events of Part 1, with the shape of what they report: the folder
    [r/d] and, where there is one, the new path [r/b] with [b] the new name
    of [d]. *)
Definition part1_event (e : event) : Prop :=
  match e with
  | EvWalk _ | EvDir _ _ => True
  | EvFolderCollision o x | EvFolderRenamed o x =>
      exists r d b, o = r ++ [d] /\ x = r ++ [b] /\ folder_new_name d = Some b
  | EvFolderFailed o _ =>
      exists r d b, o = r ++ [d] /\ folder_new_name d = Some b
  | _ => False
  end.

(** An event of lines 119-139. *)
Definition file_event (e : event) : Prop :=
  match e with
  | EvFileRenamed _ _ | EvFileFailed _ _ | EvFileSkipped _ => True
  | _ => False
  end.

Definition roots (evs : list event) : list path := flat_map roots_of evs.
Definition examined (evs : list event) : list path := flat_map examined_of evs.
Definition renames (evs : list event) : list (path * path) := flat_map rename_of evs.
Definition scanned (evs : list event) : list path := flat_map scanned_of evs.
Definition outcomes (evs : list event) : list path := flat_map outcome_of evs.

Section Tree.

Variable refuses : path -> path -> bool.

(** [os.rename(root/a, root/b)] on the entries of [root]. *)
Definition rename_local (root : path) (a b : string) (es : entries) : oserror + entries :=
  if refuses (root ++ [a]) (root ++ [b]) then inl EACCES else
  match assoc a es with
  | None => inl ENOENT
  | Some n =>
      if a =? b then inr es
      else
        match assoc b es, n with
        | Some (Dir _), File _ => inl EISDIR
        | Some (File _), Dir _ => inl ENOTDIR
        | Some (Dir (_ :: _)), Dir _ => inl ENOTEMPTY
        | _, _ => inr (set_entry b n (remove_entry a es))
        end
  end.

(** Lines 85-102 on the entries [es] of [root]: the entries and [dirs]
    afterwards, and the events in order. *)
Fixpoint folder_loop_local (root : path) (todo dirs : list string) (es : entries)
  : entries * list string * list event :=
  match todo with
  | [] => (es, dirs, [])
  | dir_name :: todo' =>
      let original_path := root ++ [dir_name] in
      let '(es1, dirs1, evs1) :=
        match folder_new_name dir_name with
        | None => (es, dirs, [])
        | Some new_name =>
            let new_path := root ++ [new_name] in
            match assoc new_name es with
            | Some _ => (es, dirs, [EvFolderCollision original_path new_path])
            | None =>
                match rename_local root dir_name new_name es with
                | inr es' =>
                    match list_remove dir_name dirs with
                    | Some dirs' => (es', dirs', [EvFolderRenamed original_path new_path])
                    | None =>
                        (es', dirs, [EvFolderRenamed original_path new_path;
                                     EvFolderFailed original_path ValueError])
                    end
                | inl e => (es, dirs, [EvFolderFailed original_path (OSError e)])
                end
            end
        end in
      let '(es2, dirs2, evs2) := folder_loop_local root todo' dirs1 es1 in
      (es2, dirs2, EvDir root dir_name :: evs1 ++ evs2)
  end.

(** The sub-directories [ds] one after the other; [sub] has, for every
    entry of the directory, what the walk makes of it. *)
Fixpoint walk_children (sub : list (string * (node * list event))) (ds : list string)
    (es : entries) : entries * list event :=
  match ds with
  | [] => (es, [])
  | d :: ds' =>
      match find (fun r => fst r =? d) sub with
      | Some (_, (c', evs)) =>
          let '(es', evs') := walk_children sub ds' (map_entry d (fun _ => c') es) in
          (es', evs ++ evs')
      | None => walk_children sub ds' es
      end
  end.

(** Part 1 on the tree [n] found at [top]: the tree afterwards and the
    events in order. *)
Fixpoint walk_tree (top : path) (n : node) : node * list event :=
  match n with
  | File _ => (n, [])
  | Dir es =>
      let '(es1, dirs1, evs1) :=
        folder_loop_local top (dir_names es) (dir_names es) es in
      let sub := map (fun e => (fst e, walk_tree (top ++ [fst e]) (snd e))) es in
      let '(es2, evs2) := walk_children sub dirs1 es1 in
      (Dir es2, EvWalk top :: evs1 ++ evs2)
  end.

(** Lines 119-139 for one [filename], on the entries [es] of [folder_path]. *)
Definition file_step_local (folder_path : path) (filename : string) (es : entries)
  : entries * list event :=
  if PyStr.endswith (PyStr.lower filename) ".pdf" then
    match pdf_new_name filename with
    | Some new_filename =>
        match rename_local folder_path filename new_filename es with
        | inr es' =>
            (es', [EvFileRenamed (folder_path ++ [filename])
                                  (folder_path ++ [new_filename])])
        | inl e => (es, [EvFileFailed (folder_path ++ [filename]) (OSError e)])
        end
    | None => (es, [EvFileSkipped (folder_path ++ [filename])])
    end
  else (es, []).

(** Lines 118-139 on the entries [es] of [folder_path]. *)
Fixpoint file_loop_local (folder_path : path) (todo : list string) (es : entries)
  : entries * list event :=
  match todo with
  | [] => (es, [])
  | filename :: todo' =>
      let '(es1, evs1) :=
        if PyStr.endswith (PyStr.lower filename) ".pdf" then
          match pdf_new_name filename with
          | Some new_filename =>
              match rename_local folder_path filename new_filename es with
              | inr es' =>
                  (es', [EvFileRenamed (folder_path ++ [filename])
                                        (folder_path ++ [new_filename])])
              | inl e => (es, [EvFileFailed (folder_path ++ [filename]) (OSError e)])
              end
          | None => (es, [EvFileSkipped (folder_path ++ [filename])])
          end
        else (es, []) in
      let '(es2, evs2) := file_loop_local folder_path todo' es1 in
      (es2, evs1 ++ evs2)
  end.

(** The events of the walk below the entry [d] of the directory [top]. *)
Definition child_events (top : path) (es : entries) (d : string) : list event :=
  match assoc d es with
  | Some c => snd (walk_tree (top ++ [d]) c)
  | None => []
  end.

(** The folder [o], found in the tree [n] under [top], was moved to [nw]:
    it is [r/d] below [top] and became [r/b]; the walk was in [r] and never
    in or below either name; the tree [n'] after Part 1 has at [r/b] what
    [n] had at [r/d], and nothing at [r/d]. *)
Definition moved (top : path) (n n' : node) (evs : list event) (o nw : path) : Prop :=
  exists r d b,
    o = top ++ r ++ [d] /\ nw = top ++ r ++ [b] /\
    folder_new_name d = Some b /\ refuses o nw = false /\
    In (top ++ r) (roots evs) /\
    (forall r', In r' (roots evs) -> is_prefix o r' = false /\ is_prefix nw r' = false) /\
    (exists es, lookup n (r ++ [d]) = Some (Dir es)) /\
    lookup n' (r ++ [b]) = lookup n (r ++ [d]) /\
    lookup n' (r ++ [d]) = None.

Definition good (top : path) (n n' : node) (evs : list event) : Prop :=
  (forall r, In r (roots evs) -> is_prefix top r = true) /\
  NoDup (examined evs) /\
  NoDup (map fst (renames evs)) /\
  is_dir n' = is_dir n /\
  (forall o nw, In (EvFolderRenamed o nw) evs -> moved top n n' evs o nw).

End Tree.

End Tree.

(* ================================================================= *)
(** ** Sample uploads *)

Module Sample.
Import FS Script Zip.

(** A system that refuses no move. *)
Definition nofail : path -> path -> bool := fun _ _ => false.

(** A system that refuses to move anything named [AC9] or [S09A0010001.pdf]. *)
Definition locked : path -> path -> bool :=
  fun src _ => (basename src =? "AC9") || (basename src =? "S09A0010001.pdf").

Definition content_a : bytes := [Byte.x01].
Definition content_b : bytes := [Byte.x02].

(** An extracted upload with a wrapping folder. *)
Definition upload : node :=
  Dir [("tmp", Dir [("wrap", Dir [
    ("AC9", Dir [("S03A0010095.pdf", File content_a)]);
    ("AC001", Dir [("S09A0010001.pdf", File content_a);
                   ("S03A0010095.pdf", File content_a);
                   ("notes.txt", File content_b);
                   ("AC002", Dir [("S03A0020001.pdf", File content_a)])]);
    ("AC010", Dir [("S3A0010095.pdf", File content_a)]);
    ("ACx", Dir [("AC7", Dir [])])])])].

(** The siblings [AC001] and [1]. *)
Definition siblings : node :=
  Dir [("tmp", Dir [("AC001", Dir [("S03A0010095.pdf", File content_a)]);
                    ("1", Dir [])])].

(** Two files of one folder with the same new name. *)
Definition two_sources : entries :=
  [("S03A0010095.pdf", File content_a); ("s03a0010095.pdf", File content_b)].

Definition same_target : node :=
  Dir [("tmp", Dir [("AC001", Dir two_sources); ("keep.txt", File content_a)])].

(** The same, with a directory that has the new name. *)
Definition blocked_target : node :=
  Dir [("tmp", Dir [("AC001", Dir (two_sources ++ [("S03_1_95.pdf", Dir [])]));
                    ("keep.txt", File content_a)])].

(** An upload with an empty folder. *)
Definition with_empty_folder : node :=
  Dir [("tmp", Dir [("AC001", Dir []); ("keep.txt", File content_a)])].




End Sample.

(* ================================================================= *)
(** ** What an archive keeps of a tree *)

Module ZipTree.
Import FS Script Zip.

(** A name that [ZipFile._extract_member] keeps as it is. *)
Definition valid_name (x : string) : bool :=
  negb ((x =? "") || (x =? ".") || (x =? "..")).

(** Every name in the tree is one a file system gives to an entry. *)
Fixpoint valid_names (n : node) : bool :=
  match n with
  | File _ => true
  | Dir es => forallb (fun e => valid_name (fst e) && valid_names (snd e)) es
  end.

(** The tree has a regular file, at some depth. *)
Fixpoint has_file (n : node) : bool :=
  match n with
  | File _ => true
  | Dir es => existsb (fun e => has_file (snd e)) es
  end.

(** The regular files of a tree with their paths from its root, in the
    order in which [os.walk] reaches them. *)
Fixpoint files_below (n : node) : archive :=
  match n with
  | File _ => []
  | Dir es =>
      flat_map (fun e => match snd e with
                         | File data => [([fst e], data)]
                         | Dir _ => []
                         end) es
      ++ flat_map (fun e => if is_dir (snd e)
                            then map (fun r => (fst e :: fst r, snd r)) (files_below (snd e))
                            else []) es
  end.

(** The tree without its directories that have no file below them, every
    directory listing its files before its sub-directories. *)
Fixpoint with_files_only (n : node) : node :=
  match n with
  | File _ => n
  | Dir es =>
      Dir (filter (fun e => negb (is_dir (snd e))) es
           ++ flat_map (fun e => if is_dir (snd e) && has_file (snd e)
                                 then [(fst e, with_files_only (snd e))]
                                 else []) es)
  end.

End ZipTree.
(* ================================================================= *)
(** ** The initial scan report (lines 67-76) *)

Module Report.
Import FS Script Zip.

(** Lines 70-73: the two totals that the report shows.  [os.walk] yields
    nothing for a path that is no directory. *)
Definition initial_scan (fs : node) (base_path : path) : nat * nat :=
  match lookup fs base_path with
  | None => (0, 0)
  | Some n =>
      fold_left (fun '(total_dirs, total_files) '(_, dirs, files) =>
                   (total_dirs + List.length dirs, total_files + List.length files))
                (os_walk base_path n) (0, 0)
  end.

End Report.

(* ================================================================= *)
(** ** Counting what a tree and a log hold *)

Module Census.
Import FS Script Names Zip.

(** The directories below a node, at every depth. *)
Fixpoint count_dirs (n : node) : nat :=
  match n with
  | File _ => 0
  | Dir es =>
      fold_right (fun e k => (if is_dir (snd e) then S (count_dirs (snd e)) else 0) + k) 0 es
  end.

(** The regular files below a node, at every depth. *)
Fixpoint count_files (n : node) : nat :=
  match n with
  | File _ => 1
  | Dir es => fold_right (fun e k => count_files (snd e) + k) 0 es
  end.

(** No directory below the node has a name that lines 86-90 give a new
    name to. *)
Fixpoint no_candidate (n : node) : bool :=
  match n with
  | File _ => true
  | Dir es =>
      forallb (fun e =>
                 negb (is_dir (snd e)) ||
                 (match folder_new_name (fst e) with None => true | Some _ => false end
                  && no_candidate (snd e))) es
  end.

(** The file rename an event reports (line 134). *)
Definition file_rename_of (e : event) : list (path * path) :=
  match e with
  | EvFileRenamed old_file_path new_file_path => [(old_file_path, new_file_path)]
  | _ => []
  end.

Definition file_renames (evs : list event) : list (path * path) :=
  flat_map file_rename_of evs.


End Census.


(* ================================================================= *)
(** ** Facts about strings and numbers *)

Module StrFacts.
Import PyStr Spec.

Lemma append_empty_r (s : string) : s +++ "" = s.
Proof. induction s; simpl; congruence. Qed.

Lemma append_assoc (a b c : string) : (a +++ b) +++ c = a +++ b +++ c.
Proof. induction a; simpl; congruence. Qed.

Lemma append_nonempty (a : string) (c : ascii) (b : string) :
  a +++ String c b <> "".
Proof. destruct a; discriminate. Qed.

Lemma findall_from_nondigit (cur post : string) :
  cur <> "" -> digit_free_start post = true ->
  findall_digits_from cur post = cur :: findall_digits post.
Proof.
  intros Hc Hp. destruct post as [|c post]; simpl.
  - destruct cur; [congruence | reflexivity].
  - simpl in Hp. apply negb_true_iff in Hp. unfold findall_digits. simpl.
    rewrite Hp. destruct cur; [congruence | reflexivity].
Qed.

Lemma findall_from_run (run : string) : forall cur post,
  all_digits run = true ->
  findall_digits_from cur (run +++ post) = findall_digits_from (cur +++ run) post.
Proof.
  unfold all_digits.
  induction run as [|c run IH]; intros cur post H; simpl in *.
  - now rewrite append_empty_r.
  - apply andb_true_iff in H as [Hc Hr]. rewrite Hc, IH by assumption.
    now rewrite append_assoc.
Qed.

Lemma findall_skip (pre : string) : forall s,
  no_digit pre = true ->
  findall_digits_from "" (pre +++ s) = findall_digits_from "" s.
Proof.
  unfold no_digit.
  induction pre as [|c pre IH]; intros s H; simpl in *; [reflexivity|].
  apply andb_true_iff in H as [Hc Hr]. apply negb_true_iff in Hc.
  rewrite Hc. now apply IH.
Qed.

(** [re.findall] begins with the first maximal digit run. *)
Lemma findall_first_run (pre run post : string) :
  no_digit pre = true -> all_digits run = true -> run <> "" ->
  digit_free_start post = true ->
  findall_digits (pre +++ run +++ post) = run :: findall_digits post.
Proof.
  intros Hpre Hrun Hne Hpost. unfold findall_digits.
  rewrite findall_skip by assumption.
  rewrite findall_from_run by assumption. simpl.
  now apply findall_from_nondigit.
Qed.


(** Every run [re.findall] returns is a non-empty string of digits. *)
Lemma findall_from_digits (s : string) : forall cur,
  all_digits cur = true ->
  Forall (fun r => all_digits r = true /\ r <> "") (findall_digits_from cur s).
Proof.
  induction s as [|c s IH]; intros cur Hcur; simpl.
  - destruct cur; constructor; [split; [assumption | discriminate] | constructor].
  - destruct (is_digit c) eqn:Hc.
    + apply IH. unfold all_digits in *.
      clear IH. induction cur; simpl in *.
      * now rewrite Hc.
      * apply andb_true_iff in Hcur as [H1 H2]. rewrite H1. now apply IHcur.
    + destruct cur.
      * now apply IH.
      * constructor; [split; [assumption | discriminate] | now apply IH].
Qed.

Lemma findall_digits_ok (s : string) :
  Forall (fun r => all_digits r = true /\ r <> "") (findall_digits s).
Proof. now apply findall_from_digits. Qed.

Lemma uint_of_char_digit (c : ascii) (d : uint) :
  is_digit c = true -> exists d', uint_of_char c (Some d) = Some d'.
Proof.
  intros H.
  destruct c as [[] [] [] [] [] [] [] []]; try discriminate H; simpl; eauto.
Qed.

Lemma uint_of_string_digits (s : string) :
  all_digits s = true -> exists d, NilEmpty.uint_of_string s = Some d.
Proof.
  unfold all_digits. induction s as [|c s IH]; intros H; simpl in *; eauto.
  apply andb_true_iff in H as [Hc Hs]. destruct (IH Hs) as [d ->].
  now apply uint_of_char_digit.
Qed.

(** [int] accepts every non-empty string of digits. *)
Lemma int_digits (s : string) :
  all_digits s = true -> s <> "" -> exists n, int s = Some n.
Proof.
  intros H Hne. destruct (uint_of_string_digits s H) as [d Hd].
  exists (N.of_uint d). unfold int. destruct s; [congruence|]. now rewrite Hd.
Qed.

Lemma string_of_nzhead (d : uint) :
  NilEmpty.string_of_uint (nzhead d) = drop_zeros (NilEmpty.string_of_uint d).
Proof. induction d; simpl; auto. Qed.

Lemma string_of_uint_nil (d : uint) :
  NilEmpty.string_of_uint d = "" -> d = Nil.
Proof. destruct d; simpl; congruence. Qed.

Lemma string_of_unorm (d : uint) :
  NilEmpty.string_of_uint (unorm d) = strip_zeros (NilEmpty.string_of_uint d).
Proof.
  unfold unorm, strip_zeros. rewrite <- string_of_nzhead.
  destruct (nzhead d) eqn:E; reflexivity.
Qed.

(** [str(int(s))] is [s] without its leading zeros. *)
Lemma str_int (s : string) (n : N) :
  int s = Some n -> str n = strip_zeros s.
Proof.
  unfold int, str. destruct s as [|c s]; [discriminate|].
  destruct (NilEmpty.uint_of_string (String c s)) as [d|] eqn:E; [|discriminate].
  intros [= <-]. rewrite DecimalN.Unsigned.to_of, string_of_unorm.
  now rewrite (NilEmpty.sus _ _ E).
Qed.

Lemma drop_zeros_digits (s : string) :
  all_digits s = true -> all_digits (drop_zeros s) = true.
Proof.
  unfold all_digits. induction s as [|c s IH]; intros H; [assumption|].
  simpl in H. apply andb_true_iff in H as [Hc Hs].
  destruct c as [[] [] [] [] [] [] [] []]; simpl; try (now rewrite ?Hc, ?Hs);
    try now apply IH.
Qed.

Lemma strip_zeros_digits (s : string) :
  all_digits s = true -> all_digits (strip_zeros s) = true /\ strip_zeros s <> "".
Proof.
  intros H. apply drop_zeros_digits in H. unfold strip_zeros.
  destruct (drop_zeros s); [split; [reflexivity | discriminate]|].
  split; [assumption | discriminate].
Qed.

End StrFacts.


(* ================================================================= *)
(** ** Facts about the file-name pattern *)

Module PatFacts.
Import PyStr Pattern Names Spec StrFacts.

Lemma lit_matches (l c : ascii) :
  is_upper l = true ->
  atom_matches (Lit l) c = true <-> upper_ascii c = l.
Proof.
  intros Hl.
  destruct l as [[] [] [] [] [] [] [] []]; try discriminate Hl;
  destruct c as [[] [] [] [] [] [] [] []]; vm_compute; split; congruence.
Qed.

Lemma lit_lower_matches (l c : ascii) :
  is_upper l = false -> is_lower (upper_ascii l) = false ->
  atom_matches (Lit l) c = true <-> lower_ascii c = lower_ascii l.
Proof. intros _ _. simpl. apply Ascii.eqb_eq. Qed.

Lemma str_last_app (a : string) (c : ascii) (b : string) :
  str_last (a +++ String c b) = str_last (String c b).
Proof.
  induction a as [|x a IH]; [reflexivity|].
  change (str_last (String x (a +++ String c b)) = str_last (String c b)).
  rewrite <- IH. simpl. destruct (a +++ String c b) eqn:E; [|reflexivity].
  now apply append_nonempty in E.
Qed.

Lemma endswith_spec (s suf : string) :
  endswith s suf = true <-> exists pre, s = pre +++ suf.
Proof.
  induction s as [|c s IH].
  - change (endswith "" suf) with (("" =? suf) || false).
    rewrite orb_false_r. split.
    + intros H. apply String.eqb_eq in H. exists "". now subst.
    + intros [pre H]. destruct pre; simpl in H; [subst; apply String.eqb_refl | discriminate].
  - change (endswith (String c s) suf) with ((String c s =? suf) || endswith s suf).
    rewrite orb_true_iff, IH. split.
    + intros [H | [pre H]].
      * apply String.eqb_eq in H. exists "". now subst.
      * exists (String c pre). simpl. now f_equal.
    + intros [pre H]. destruct pre as [|x pre]; simpl in H.
      * left. subst. apply String.eqb_refl.
      * right. injection H as _ H. now exists pre.
Qed.

Lemma lower_app (a b : string) : lower (a +++ b) = lower a +++ lower b.
Proof. induction a; simpl; congruence. Qed.

Lemma upper_app (a b : string) : upper (a +++ b) = upper a +++ upper b.
Proof. induction a; simpl; congruence. Qed.

Lemma match_seq_app (pat : list atom) : forall s m rest,
  match_seq pat s = Some (m, rest) -> s = m +++ rest.
Proof.
  induction pat as [|a pat IH]; intros s m rest H; simpl in H.
  - now injection H as <- <-.
  - destruct s as [|c s]; [discriminate|].
    destruct (atom_matches a c); [|discriminate].
    destruct (match_seq pat s) as [[m' r']|] eqn:E; [|discriminate].
    injection H as <- <-. simpl. f_equal. now apply IH.
Qed.

Lemma match_seq_cons (a : atom) (pat : list atom) (s m rest : string) :
  match_seq (a :: pat) s = Some (m, rest) ->
  exists c m' s', m = String c m' /\ s = String c s' /\
    atom_matches a c = true /\ match_seq pat s' = Some (m', rest).
Proof.
  simpl. destruct s as [|c s]; [discriminate|].
  destruct (atom_matches a c) eqn:E; [|discriminate].
  destruct (match_seq pat s) as [[m' r']|] eqn:E'; [|discriminate].
  intros [= <- <-]. now exists c, m', s.
Qed.

Lemma match_seq_nil (s m rest : string) :
  match_seq [] s = Some (m, rest) -> m = "" /\ rest = s.
Proof. simpl. now intros [= <- <-]. Qed.

Ltac inv_seq H :=
  repeat (let c := fresh "c" in
          let E := fresh "E" in
          apply match_seq_cons in H as (c & ? & ? & ? & ? & E & H));
  apply match_seq_nil in H as [? ?]; subst.

Lemma ext_lower (c12 c13 c14 c15 : ascii) :
  atom_matches (Lit ".") c12 = true -> atom_matches (Lit "p") c13 = true ->
  atom_matches (Lit "d") c14 = true -> atom_matches (Lit "f") c15 = true ->
  lower (String c12 (String c13 (String c14 (String c15 "")))) = ".pdf".
Proof.
  simpl. intros H1 H2 H3 H4.
  apply Ascii.eqb_eq in H1, H2, H3, H4. now rewrite H1, H2, H3, H4.
Qed.

(** A match of the pattern, under the guard of line 119, has the shape. *)
Lemma re_match_pdf_shape (filename g1 g2 g3 : string) :
  endswith (lower filename) ".pdf" = true ->
  re_match_pdf filename = Some (g1, g2, g3) ->
  pdf_shape filename g1 g2 g3.
Proof.
  intros Hend H. unfold re_match_pdf, bind in H.
  destruct (match_seq _ filename) as [[m1 r1]|] eqn:H1; [|discriminate].
  destruct (match_seq _ r1) as [[m2 r2]|] eqn:H2; [|discriminate].
  destruct (match_seq _ r2) as [[m3 r3]|] eqn:H3; [|discriminate].
  destruct (match_seq _ r3) as [[m4 r4]|] eqn:H4; [|discriminate].
  destruct (match_seq _ r4) as [[m5 r5]|] eqn:H5; [|discriminate].
  destruct (at_end r5) eqn:Hr5; [|discriminate].
  injection H; intros; subst g1 g2 g3.
  assert (Hr : r5 = "").
  { destruct r5 as [|c r5]; [reflexivity|]. exfalso.
    destruct r5; [|discriminate]. simpl in Hr5. apply Ascii.eqb_eq in Hr5. subst c.
    apply endswith_spec in Hend as [pre Hpre].
    apply match_seq_app in H1, H2, H3, H4, H5. subst filename r1 r2 r3 r4.
    apply (f_equal str_last) in Hpre.
    rewrite <- !append_assoc, lower_app in Hpre.
    change (lower (String "010" "")) with ("" +++ String "010"%char "") in Hpre.
    change ".pdf" with ("" +++ String "."%char "pdf") in Hpre.
    rewrite <- !append_assoc, !str_last_app in Hpre.
    discriminate. }
  subst r5.
  inv_seq H1. inv_seq H2. inv_seq H3. inv_seq H4. inv_seq H5.
  cbn [atom_matches] in *.
  eexists _, _. split; [reflexivity|].
  split; [do 3 eexists; repeat split; try eassumption;
          apply (lit_matches "S"); [reflexivity | assumption]|].
  split; [apply (lit_matches "A"); [reflexivity | assumption]|].
  split; [split; [reflexivity | unfold all_digits; simpl;
          repeat (rewrite andb_true_iff; split; try assumption); reflexivity]|].
  split; [split; [reflexivity | unfold all_digits; simpl;
          repeat (rewrite andb_true_iff; split; try assumption); reflexivity]|].
  now apply ext_lower.
Qed.

Lemma length3 (g : string) :
  String.length g = 3 -> exists a b c, g = String a (String b (String c "")).
Proof.
  destruct g as [|a [|b [|c [|]]]]; try discriminate. eauto.
Qed.




(** The guard of line 86 rejects every string of digits. *)
Lemma digits_no_AC (n : string) :
  all_digits n = true -> startswith (upper n) "AC" = false.
Proof.
  destruct n as [|c n]; [reflexivity|].
  unfold all_digits. simpl. intros H. apply andb_true_iff in H as [Hc _].
  destruct c as [[] [] [] [] [] [] [] []]; try discriminate Hc; reflexivity.
Qed.

(** The pattern rejects every name whose fourth character is [_]. *)
Lemma underscore_no_match (g1 rest : string) :
  String.length g1 = 3 -> re_match_pdf (g1 +++ "_" +++ rest) = None.
Proof.
  intros L. apply length3 in L as (a & b & c & ->).
  unfold re_match_pdf, bind. cbn [match_seq String.append].
  destruct (atom_matches (Lit "S") a); [|reflexivity].
  destruct (atom_matches Digit b); [|reflexivity].
  destruct (atom_matches Digit c); reflexivity.
Qed.

Lemma upper_length (s : string) : String.length (upper s) = String.length s.
Proof. induction s; simpl; congruence. Qed.

Lemma match_seq_length (pat : list atom) : forall s m rest,
  match_seq pat s = Some (m, rest) -> String.length m = List.length pat.
Proof.
  induction pat as [|a pat IH]; intros s m rest H; simpl in H.
  - now injection H as <- <-.
  - destruct s as [|c s]; [discriminate|].
    destruct (atom_matches a c); [|discriminate].
    destruct (match_seq pat s) as [[m' r']|] eqn:E; [|discriminate].
    injection H as <- <-. simpl. f_equal. now apply IH in E.
Qed.

Lemma re_match_pdf_g1_length (filename g1 g2 g3 : string) :
  re_match_pdf filename = Some (g1, g2, g3) -> String.length g1 = 3.
Proof.
  unfold re_match_pdf, bind. intros H.
  destruct (match_seq _ filename) as [[m1 r1]|] eqn:H1; [|discriminate].
  apply match_seq_length in H1.
  destruct (match_seq _ r1) as [[m2 r2]|]; [|discriminate].
  destruct (match_seq _ r2) as [[m3 r3]|]; [|discriminate].
  destruct (match_seq _ r3) as [[m4 r4]|]; [|discriminate].
  destruct (match_seq _ r4) as [[m5 r5]|]; [|discriminate].
  destruct (at_end r5); [|discriminate]. injection H; intros; subst. exact H1.
Qed.

End PatFacts.


(* ================================================================= *)
(** ** Facts about the file system *)

Module FSFacts.
Import FS.

Lemma dirname_snoc (p : path) (x : string) : dirname (p ++ [x]) = p.
Proof. apply removelast_last. Qed.

Lemma basename_snoc (p : path) (x : string) : basename (p ++ [x]) = x.
Proof. apply last_last. Qed.

Lemma path_eqb_eq (p q : path) : path_eqb p q = true <-> p = q.
Proof.
  revert q. induction p as [|x p IH]; intros [|y q]; simpl; split; try congruence.
  - intros H. apply andb_true_iff in H as [H1 H2].
    apply String.eqb_eq in H1. apply IH in H2. congruence.
  - intros [= -> ->]. rewrite String.eqb_refl. now apply IH.
Qed.

Lemma path_eqb_refl (p : path) : path_eqb p p = true.
Proof. now apply path_eqb_eq. Qed.

Lemma is_prefix_spec (p q : path) : is_prefix p q = true <-> exists r, q = p ++ r.
Proof.
  revert q. induction p as [|x p IH]; intros q; simpl.
  - split; eauto.
  - destruct q as [|y q].
    + split; [discriminate | intros [r H]; discriminate].
    + rewrite andb_true_iff, IH, String.eqb_eq. split.
      * intros [-> [r ->]]. now exists r.
      * intros [r [= -> ->]]. eauto.
Qed.

Lemma is_prefix_snoc_snoc (p : path) (a b : string) :
  a <> b -> is_prefix (p ++ [a]) (p ++ [b]) = false.
Proof.
  intros Hab. destruct (is_prefix (p ++ [a]) (p ++ [b])) eqn:E; [|reflexivity].
  apply is_prefix_spec in E as [r E]. rewrite <- app_assoc in E.
  apply app_inv_head in E. simpl in E. congruence.
Qed.

Lemma snoc_not_nil {A : Type} (p : list A) (x : A) : p ++ [x] <> [].
Proof. destruct p; discriminate. Qed.

(** *** Entries *)

Lemma assoc_In (k : string) (es : entries) (c : node) :
  assoc k es = Some c -> In (k, c) es.
Proof.
  induction es as [|[k' c'] es IH]; simpl; [discriminate|].
  destruct (k' =? k) eqn:E.
  - apply String.eqb_eq in E. intros [= ->]. left. congruence.
  - auto.
Qed.

Lemma assoc_None (k : string) (es : entries) :
  assoc k es = None <-> ~ In k (names es).
Proof.
  induction es as [|[k' c'] es IH]; simpl.
  - tauto.
  - destruct (k' =? k) eqn:E.
    + apply String.eqb_eq in E. split; [discriminate | tauto].
    + apply String.eqb_neq in E. rewrite IH. tauto.
Qed.

Lemma assoc_Some_names (k : string) (es : entries) (c : node) :
  assoc k es = Some c -> In k (names es).
Proof.
  intros H. destruct (in_dec string_dec k (names es)) as [|N]; [assumption|].
  apply assoc_None in N. congruence.
Qed.

Lemma assoc_remove_same (k : string) (es : entries) :
  assoc k (remove_entry k es) = None.
Proof.
  apply assoc_None. unfold names, remove_entry. rewrite in_map_iff.
  intros [[k' c] [E H]]. apply filter_In in H as [_ H]. simpl in *. subst.
  now rewrite String.eqb_refl in H.
Qed.

Lemma assoc_remove_other (k k' : string) (es : entries) :
  k' <> k -> assoc k' (remove_entry k es) = assoc k' es.
Proof.
  intros N. induction es as [|[x c] es IH]; simpl; [reflexivity|].
  destruct (x =? k) eqn:E; simpl.
  - apply String.eqb_eq in E. subst.
    destruct (k =? k') eqn:E'; [apply String.eqb_eq in E'; congruence | assumption].
  - destruct (x =? k'); [reflexivity | assumption].
Qed.

Lemma assoc_set_same (k : string) (v : node) (es : entries) :
  assoc k (set_entry k v es) = Some v.
Proof.
  induction es as [|[x c] es IH]; simpl.
  - now rewrite String.eqb_refl.
  - destruct (x =? k) eqn:E; simpl; [now rewrite String.eqb_refl | now rewrite E].
Qed.

Lemma assoc_set_other (k k' : string) (v : node) (es : entries) :
  k' <> k -> assoc k' (set_entry k v es) = assoc k' es.
Proof.
  intros N. induction es as [|[x c] es IH]; simpl.
  - destruct (k =? k') eqn:E; [apply String.eqb_eq in E; congruence | reflexivity].
  - destruct (x =? k) eqn:E; simpl.
    + apply String.eqb_eq in E. subst.
      destruct (k =? k') eqn:E'; [apply String.eqb_eq in E'; congruence | reflexivity].
    + destruct (x =? k'); [reflexivity | assumption].
Qed.

Lemma set_entry_fresh (k : string) (v : node) (es : entries) :
  assoc k es = None -> set_entry k v es = es ++ [(k, v)].
Proof.
  induction es as [|[x c] es IH]; simpl; [reflexivity|].
  destruct (x =? k); [discriminate|]. intros H. now rewrite IH.
Qed.


Lemma nodupb_NoDup (l : list string) : nodupb l = true <-> NoDup l.
Proof.
  induction l as [|x l IH]; simpl.
  - split; [constructor | reflexivity].
  - rewrite andb_true_iff, negb_true_iff, IH. split.
    + intros [H1 H2]. constructor; [|assumption].
      intros Hin. assert (existsb (String.eqb x) l = true); [|congruence].
      apply existsb_exists. exists x. split; [assumption | apply String.eqb_refl].
    + intros H. inversion H as [|? ? H1 H2]; subst. split; [|assumption].
      destruct (existsb (String.eqb x) l) eqn:E; [|reflexivity].
      apply existsb_exists in E as [y [Hy E]]. apply String.eqb_eq in E. now subst.
Qed.

Lemma wf_Dir (es : entries) :
  wf (Dir es) = true <-> NoDup (names es) /\ (forall k c, In (k, c) es -> wf c = true).
Proof.
  simpl. rewrite andb_true_iff, nodupb_NoDup, forallb_forall. split.
  - intros [H1 H2]. split; [assumption|]. intros k c Hin. exact (H2 _ Hin).
  - intros [H1 H2]. split; [assumption|]. intros [k c] Hin. exact (H2 _ _ Hin).
Qed.

Lemma In_assoc (k : string) (c : node) (es : entries) :
  NoDup (names es) -> In (k, c) es -> assoc k es = Some c.
Proof.
  induction es as [|[x c'] es IH]; simpl; [tauto|].
  intros H Hin. inversion H as [|? ? H1 H2]; subst.
  destruct Hin as [[= -> ->] | Hin].
  - now rewrite String.eqb_refl.
  - destruct (x =? k) eqn:E.
    + apply String.eqb_eq in E. subst. exfalso. apply H1.
      unfold names. apply in_map_iff. now exists (k, c).
    + auto.
Qed.

(** *** Paths *)

Lemma lookup_app (p q : path) : forall fs,
  lookup fs (p ++ q) =
  match lookup fs p with Some n => lookup n q | None => None end.
Proof.
  induction p as [|x p IH]; intros fs; simpl; [reflexivity|].
  destruct fs as [|es]; [reflexivity|].
  destruct (assoc x es); [apply IH | reflexivity].
Qed.

Lemma lookup_snoc (fs : node) (p : path) (x : string) (es : entries) :
  lookup fs p = Some (Dir es) -> lookup fs (p ++ [x]) = assoc x es.
Proof.
  intros H. rewrite lookup_app, H. simpl. now destruct (assoc x es).
Qed.

Lemma map_entry_ext (x : string) (f g : node -> node) (es : entries) :
  (forall c, f c = g c) -> map_entry x f es = map_entry x g es.
Proof.
  intros H. induction es as [|[k c] es IH]; simpl; [reflexivity|].
  destruct (k =? x); now rewrite ?H, ?IH.
Qed.

Lemma map_entry_compose (x : string) (f g : node -> node) (es : entries) :
  map_entry x g (map_entry x f es) = map_entry x (fun c => g (f c)) es.
Proof.
  induction es as [|[k c] es IH]; simpl; [reflexivity|].
  destruct (k =? x) eqn:E; simpl; rewrite E; [reflexivity | now rewrite IH].
Qed.

Lemma assoc_map_entry (x k : string) (f : node -> node) (es : entries) :
  assoc k (map_entry x f es) =
  if k =? x then option_map f (assoc k es) else assoc k es.
Proof.
  induction es as [|[y c] es IH]; simpl.
  - now destruct (k =? x).
  - destruct (y =? x) eqn:E; simpl; destruct (y =? k) eqn:E'.
    + apply String.eqb_eq in E, E'. subst. now rewrite String.eqb_refl.
    + apply String.eqb_eq in E. subst. rewrite String.eqb_sym, E'. reflexivity.
    + apply String.eqb_eq in E'. subst. now rewrite E.
    + exact IH.
Qed.


Lemma map_entry_id (x : string) (f : node -> node) (es : entries) (c : node) :
  assoc x es = Some c -> f c = c -> map_entry x f es = es.
Proof.
  induction es as [|[k c'] es IH]; simpl; [reflexivity|].
  destruct (k =? x) eqn:E.
  - intros [= ->] ->. reflexivity.
  - intros H1 H2. now rewrite IH.
Qed.

Lemma map_entry_absent (x : string) (f : node -> node) (es : entries) :
  assoc x es = None -> map_entry x f es = es.
Proof.
  induction es as [|[k c'] es IH]; simpl; [reflexivity|].
  destruct (k =? x) eqn:E; [discriminate|]. intros H. now rewrite IH.
Qed.

Lemma at_path_app (p q : path) (g : node -> node) : forall fs,
  at_path (p ++ q) g fs = at_path p (at_path q g) fs.
Proof.
  induction p as [|x p IH]; intros fs; simpl; [reflexivity|].
  destruct fs as [|es]; [reflexivity|]. f_equal.
  apply map_entry_ext. intros c. apply IH.
Qed.

Lemma at_path_compose (p : path) (g1 g2 : node -> node) : forall fs,
  at_path p g2 (at_path p g1 fs) = at_path p (fun n => g2 (g1 n)) fs.
Proof.
  induction p as [|x p IH]; intros fs; simpl; [reflexivity|].
  destruct fs as [|es]; [reflexivity|]. f_equal.
  rewrite map_entry_compose. apply map_entry_ext. intros c. apply IH.
Qed.

Lemma lookup_at_path_same (p : path) (g : node -> node) : forall fs n,
  lookup fs p = Some n -> lookup (at_path p g fs) p = Some (g n).
Proof.
  induction p as [|x p IH]; intros fs n; simpl.
  - now intros [= ->].
  - destruct fs as [|es]; [discriminate|].
    rewrite assoc_map_entry, String.eqb_refl.
    destruct (assoc x es) as [c|]; [|discriminate]. simpl. apply IH.
Qed.

(** Rewriting the node at [p] with what is there changes nothing. *)
Lemma at_path_id (p : path) (g : node -> node) : forall fs n,
  lookup fs p = Some n -> g n = n -> at_path p g fs = fs.
Proof.
  induction p as [|x p IH]; intros fs n; simpl.
  - now intros [= ->].
  - destruct fs as [|es]; [discriminate|].
    destruct (assoc x es) as [c|] eqn:E; [|discriminate].
    intros H1 H2. f_equal. apply (map_entry_id _ _ _ c E). now apply (IH _ n).
Qed.

Lemma at_path_absent (p : path) (g : node -> node) : forall fs,
  lookup fs p = None -> at_path p g fs = fs.
Proof.
  induction p as [|x p IH]; intros fs; simpl; [discriminate|].
  destruct fs as [|es]; [reflexivity|].
  destruct (assoc x es) as [c|] eqn:E.
  - intros H. f_equal. apply (map_entry_id _ _ _ c E). now apply IH.
  - intros _. f_equal. now apply map_entry_absent.
Qed.

(** Only the value of [g] at the node found at [p] matters. *)
Lemma at_path_ext_at (p : path) (g g' : node -> node) : forall fs n,
  lookup fs p = Some n -> g n = g' n -> at_path p g fs = at_path p g' fs.
Proof.
  intros fs n H E.
  rewrite <- (at_path_id p (fun _ => n) fs n H eq_refl) at 1 2.
  rewrite !at_path_compose. simpl.
  clear H. revert fs. induction p as [|x p IH]; intros fs; simpl; [assumption|].
  destruct fs; [reflexivity|]. f_equal. apply map_entry_ext. intros c. apply IH.
Qed.

End FSFacts.


(* ================================================================= *)
(** ** The script agrees with its local reading *)

Module Agree.
Import FS Script Names Tree FSFacts StrFacts.

Lemma fs_record (st : state) (e : event) : fs (record st e) = fs st.
Proof. now destruct e. Qed.

Lemma fs_replay (evs : list event) : forall st, fs (replay evs st) = fs st.
Proof.
  induction evs as [|e evs IH]; intros st; simpl; [reflexivity|].
  unfold replay in IH. now rewrite IH, fs_record.
Qed.

Lemma record_with_fs (f : node) (st : state) (e : event) :
  record (with_fs f st) e = with_fs f (record st e).
Proof. now destruct e. Qed.

Lemma replay_with_fs (f : node) (evs : list event) : forall st,
  replay evs (with_fs f st) = with_fs f (replay evs st).
Proof.
  induction evs as [|e evs IH]; intros st; simpl; [reflexivity|].
  unfold replay in IH. now rewrite record_with_fs, IH.
Qed.

Lemma with_fs_idem (f g : node) (st : state) : with_fs f (with_fs g st) = with_fs f st.
Proof. reflexivity. Qed.

Lemma with_fs_same (st : state) : with_fs (fs st) st = st.
Proof. now destruct st. Qed.

Lemma replay_app (a b : list event) (st : state) :
  replay (a ++ b) st = replay b (replay a st).
Proof. apply fold_left_app. Qed.

Lemma log_record (st : state) (e : event) : log (record st e) = log st ++ [e].
Proof. now destruct e. Qed.

Lemma log_replay (evs : list event) : forall st, log (replay evs st) = log st ++ evs.
Proof.
  induction evs as [|e evs IH]; intros st; simpl; [now rewrite List.app_nil_r|].
  unfold replay in IH. rewrite IH, log_record, <- List.app_assoc. reflexivity.
Qed.

Section Agree.

Variable refuses : path -> path -> bool.

Lemma os_path_exists_local (fs : node) (root : path) (es : entries) (x : string) :
  lookup fs root = Some (Dir es) ->
  os_path_exists fs (root ++ [x]) = match assoc x es with Some _ => true | None => false end.
Proof. intros H. unfold os_path_exists. now rewrite (lookup_snoc _ _ _ _ H). Qed.

Lemma os_path_isdir_local (fs : node) (root : path) (es : entries) (x : string) :
  lookup fs root = Some (Dir es) ->
  os_path_isdir fs (root ++ [x]) = match assoc x es with Some (Dir _) => true | _ => false end.
Proof. intros H. unfold os_path_isdir. now rewrite (lookup_snoc _ _ _ _ H). Qed.

Lemma rename_tree (fs : node) (root : path) (es : entries) (a b : string) (n : node) :
  lookup fs root = Some (Dir es) ->
  link (unlink fs (root ++ [a])) (root ++ [b]) n =
  at_path root (fun _ => Dir (set_entry b n (remove_entry a es))) fs.
Proof.
  intros H. unfold link, unlink.
  rewrite !dirname_snoc, !basename_snoc, at_path_compose.
  apply (at_path_ext_at _ _ _ _ _ H). reflexivity.
Qed.

(** [os.rename] between two names of one directory is [rename_local]. *)
Lemma os_rename_local (fs : node) (root : path) (es : entries) (a b : string) :
  lookup fs root = Some (Dir es) ->
  os_rename refuses fs (root ++ [a]) (root ++ [b]) =
  match rename_local refuses root a b es with
  | inl e => inl e
  | inr es' => inr (at_path root (fun _ => Dir es') fs)
  end.
Proof.
  intros H. unfold os_rename, rename_local.
  destruct (refuses (root ++ [a]) (root ++ [b])); [reflexivity|].
  destruct (root ++ [a]) as [|x1 p1] eqn:Ea; [now apply snoc_not_nil in Ea|].
  destruct (root ++ [b]) as [|x2 p2] eqn:Eb; [now apply snoc_not_nil in Eb|].
  rewrite <- Ea, <- Eb. clear Ea Eb x1 p1 x2 p2.
  rewrite !(lookup_snoc _ _ _ _ H).
  destruct (assoc a es) as [n|] eqn:An; [|reflexivity].
  destruct (a =? b) eqn:Eab.
  - apply String.eqb_eq in Eab. subst b. rewrite path_eqb_refl.
    now rewrite (at_path_id _ _ _ _ H eq_refl).
  - apply String.eqb_neq in Eab.
    destruct (path_eqb (root ++ [a]) (root ++ [b])) eqn:Ep.
    { apply path_eqb_eq, app_inv_head in Ep. congruence. }
    rewrite (is_prefix_snoc_snoc _ _ _ Eab).
    unfold os_path_isdir. rewrite dirname_snoc, H.
    rewrite (rename_tree _ _ _ _ _ _ H).
    destruct (assoc b es) as [[|[|]]|]; destruct n; reflexivity.
Qed.

(** [shutil.move] to a name that is free in the directory. *)
Lemma shutil_move_local (fs : node) (root : path) (es : entries) (a b : string) :
  lookup fs root = Some (Dir es) -> assoc b es = None ->
  shutil_move refuses fs (root ++ [a]) (root ++ [b]) =
  match rename_local refuses root a b es with
  | inl e => inl e
  | inr es' => inr (at_path root (fun _ => Dir es') fs)
  end.
Proof.
  intros H Hb. unfold shutil_move.
  rewrite (os_path_isdir_local _ _ _ _ H), Hb. now apply os_rename_local.
Qed.

Lemma folder_new_name_eq (dir_name : string) :
  folder_new_name dir_name =
  if PyStr.startswith (PyStr.upper dir_name) "AC" then
    match PyStr.findall_digits dir_name with
    | [] => None
    | number :: _ => Some (PyStr.str (match PyStr.int number with Some n => n | None => 0%N end))
    end
  else None.
Proof.
  unfold folder_new_name. destruct (PyStr.startswith _ _); [|reflexivity].
  pose proof (findall_digits_ok dir_name) as F.
  destruct (PyStr.findall_digits dir_name) as [|number l]; [reflexivity|].
  inversion F as [|? ? [H1 H2] _]; subst.
  destruct (int_digits _ H1 H2) as [n ->]. reflexivity.
Qed.

Lemma first_run_int (dir_name number : string) (l : list string) :
  PyStr.findall_digits dir_name = number :: l -> exists n, PyStr.int number = Some n.
Proof.
  intros E. pose proof (findall_digits_ok dir_name) as F. rewrite E in F.
  inversion F as [|? ? [H1 H2] _]; subst. now apply int_digits.
Qed.

(** Lines 85-102 change the entries of [root] as [folder_loop_local] says. *)
Lemma folder_loop_agrees (root : path) (todo : list string) :
  forall dirs es st,
  lookup (fs st) root = Some (Dir es) ->
  folder_loop refuses root todo dirs st =
  let '(es', dirs', evs) := folder_loop_local refuses root todo dirs es in
  Ok (with_fs (at_path root (fun _ => Dir es') (fs st)) (replay evs st), dirs').
Proof.
  induction todo as [|d todo IH]; intros dirs es st H.
  - simpl. rewrite (at_path_id _ _ _ _ H eq_refl), with_fs_same. reflexivity.
  - cbn [folder_loop folder_loop_local].
    assert (Hstep : forall es1 dirs1 evs1 st1,
      lookup (fs st1) root = Some (Dir es1) ->
      st1 = with_fs (at_path root (fun _ => Dir es1) (fs st))
                    (replay (EvDir root d :: evs1) st) ->
      folder_loop refuses root todo dirs1 st1 =
      (let '(es2, dirs2, evs2) := folder_loop_local refuses root todo dirs1 es1 in
       Ok (with_fs (at_path root (fun _ => Dir es2) (fs st))
                   (replay (EvDir root d :: evs1 ++ evs2) st), dirs2))).
    { intros es1 dirs1 evs1 st1 H1 E1. rewrite (IH _ _ _ H1).
      destruct (folder_loop_local refuses root todo dirs1 es1) as [[es2 dirs2] evs2].
      rewrite E1. cbn [fs with_fs]. rewrite at_path_compose.
      rewrite replay_with_fs, with_fs_idem.
      change (EvDir root d :: evs1 ++ evs2) with ((EvDir root d :: evs1) ++ evs2).
      now rewrite replay_app. }
    assert (Hsame : forall evs1 st1,
      st1 = replay (EvDir root d :: evs1) st ->
      folder_loop refuses root todo dirs st1 =
      (let '(es2, dirs2, evs2) := folder_loop_local refuses root todo dirs es in
       Ok (with_fs (at_path root (fun _ => Dir es2) (fs st))
                   (replay (EvDir root d :: evs1 ++ evs2) st), dirs2))).
    { intros evs1 st1 E1. apply Hstep.
      - rewrite E1, fs_replay. exact H.
      - rewrite (at_path_id _ _ _ _ H eq_refl). rewrite E1.
        rewrite <- (fs_replay (EvDir root d :: evs1) st) at 1.
        now rewrite with_fs_same. }
    unfold folder_new_name.
    destruct (PyStr.startswith (PyStr.upper d) "AC").
    2:{ rewrite (Hsame [] (emit (EvDir root d) st) eq_refl).
        now destruct (folder_loop_local refuses root todo dirs es) as [[? ?] ?]. }
    destruct (PyStr.findall_digits d) as [|number l] eqn:Ef.
    { rewrite (Hsame [] (emit (EvDir root d) st) eq_refl).
      now destruct (folder_loop_local refuses root todo dirs es) as [[? ?] ?]. }
    destruct (first_run_int _ _ _ Ef) as [n En]. rewrite En. cbn [of_int rbind option_map].
    cbn [fs emit].
    rewrite (os_path_exists_local _ _ _ _ H).
    destruct (assoc (PyStr.str n) es) eqn:Ea.
    { rewrite (Hsame [EvFolderCollision (root ++ [d]) (root ++ [PyStr.str n])]
                     (emit (EvFolderCollision (root ++ [d]) (root ++ [PyStr.str n]))
                           (emit (EvDir root d) st)) eq_refl).
      now destruct (folder_loop_local refuses root todo dirs es) as [[? ?] ?]. }
    rewrite (shutil_move_local _ _ _ _ _ H Ea).
    destruct (rename_local refuses root d (PyStr.str n) es) as [e|es'].
    { rewrite (Hsame [EvFolderFailed (root ++ [d]) (OSError e)]
                     (emit (EvFolderFailed (root ++ [d]) (OSError e))
                           (emit (EvDir root d) st)) eq_refl).
      now destruct (folder_loop_local refuses root todo dirs es) as [[? ?] ?]. }
    destruct (list_remove d dirs) as [dirs'|].
    + rewrite (Hstep es' dirs' [EvFolderRenamed (root ++ [d]) (root ++ [PyStr.str n])]).
      * now destruct (folder_loop_local refuses root todo dirs' es') as [[? ?] ?].
      * cbn [fs]. now apply lookup_at_path_same with (n := Dir es).
      * reflexivity.
    + rewrite (Hstep es' dirs [EvFolderRenamed (root ++ [d]) (root ++ [PyStr.str n]);
                               EvFolderFailed (root ++ [d]) ValueError]).
      * now destruct (folder_loop_local refuses root todo dirs es') as [[? ?] ?].
      * cbn [fs emit]. now apply lookup_at_path_same with (n := Dir es).
      * reflexivity.
Qed.

End Agree.

End Agree.


Module Walk.
Import FS Script Names Tree FSFacts StrFacts Agree.

Lemma height_entry (k : string) (c : node) (es : entries) :
  In (k, c) es -> height c < height (Dir es).
Proof.
  simpl. induction es as [|e es IH]; simpl; [tauto|].
  intros [-> | H]; simpl; [lia|]. specialize (IH H). lia.
Qed.

Lemma list_remove_spec (x : string) (l l' : list string) :
  NoDup l -> list_remove x l = Some l' ->
  NoDup l' /\ ~ In x l' /\ (forall y, In y l' <-> In y l /\ y <> x).
Proof.
  revert l'. induction l as [|y l IH]; intros l' N; simpl; [discriminate|].
  inversion N as [|? ? N1 N2]; subst.
  destruct (y =? x) eqn:E.
  - apply String.eqb_eq in E. subst y. intros [= <-].
    split; [assumption|]. split; [assumption|].
    intros y. split.
    + intros Hy. split; [now right | congruence].
    + intros [[Hy|Hy] Hne]; [congruence | assumption].
  - apply String.eqb_neq in E.
    destruct (list_remove x l) as [l0|]; [|discriminate].
    intros [= <-]. destruct (IH l0 N2 eq_refl) as (I1 & I2 & I3).
    split; [|split].
    + constructor; [|assumption]. rewrite I3. tauto.
    + simpl. intros [H|H]; [congruence | tauto].
    + intros z. simpl. rewrite I3. split.
      * intros [H|H]; [subst; tauto | tauto].
      * intros [[H|H] Hne]; [now left | right; tauto].
Qed.

Lemma list_remove_None (x : string) (l : list string) :
  list_remove x l = None -> ~ In x l.
Proof.
  induction l as [|y l IH]; simpl; [tauto|].
  destruct (y =? x) eqn:E; [discriminate|]. apply String.eqb_neq in E.
  destruct (list_remove x l); [discriminate|]. intros _ [H|H]; [congruence | tauto].
Qed.

Section Walk.

Variable refuses : path -> path -> bool.

(** A successful [rename_local] to a free name. *)
Lemma rename_local_fresh (root : path) (a b : string) (es es' : entries) :
  assoc b es = None -> rename_local refuses root a b es = inr es' ->
  exists n, assoc a es = Some n /\ a <> b /\
            refuses (root ++ [a]) (root ++ [b]) = false /\
            es' = remove_entry a es ++ [(b, n)].
Proof.
  intros Hb. unfold rename_local.
  destruct (refuses _ _); [discriminate|].
  destruct (assoc a es) as [n|] eqn:Ha; [|discriminate].
  destruct (a =? b) eqn:E.
  { apply String.eqb_eq in E. congruence. }
  apply String.eqb_neq in E. rewrite Hb. destruct n; intros [= <-];
    (eexists; repeat split; [assumption|];
     apply set_entry_fresh; rewrite assoc_remove_other by congruence; assumption).
Qed.

(** The body keeps [dirs] a list of present, untouched sub-directories. *)
Lemma folder_loop_local_frame (root : path) (todo : list string) :
  forall dirs es es' dirs' evs,
  NoDup dirs -> (forall x, In x dirs -> assoc x es <> None) ->
  folder_loop_local refuses root todo dirs es = (es', dirs', evs) ->
  NoDup dirs' /\ incl dirs' dirs /\ (forall x, In x dirs' -> assoc x es' = assoc x es).
Proof.
  induction todo as [|d todo IH]; intros dirs es es' dirs' evs N Hp; simpl.
  - intros [= <- <- <-]. repeat split; [assumption | apply incl_refl].
  - assert (Hsame : forall evs1 X,
      (let '(es2, dirs2, evs2) := folder_loop_local refuses root todo dirs es in
       (es2, dirs2, X :: evs1 ++ evs2)) = (es', dirs', evs) ->
      NoDup dirs' /\ incl dirs' dirs /\ (forall x, In x dirs' -> assoc x es' = assoc x es)).
    { intros evs1 X.
      destruct (folder_loop_local refuses root todo dirs es) as [[es2 dirs2] evs2] eqn:E.
      intros [= <- <- <-]. exact (IH _ _ _ _ _ N Hp E). }
    destruct (folder_new_name d) as [b|]; [|apply Hsame].
    destruct (assoc b es) eqn:Eb; [apply Hsame|].
    destruct (rename_local refuses root d b es) as [e|es1] eqn:Er; [apply Hsame|].
    destruct (rename_local_fresh _ _ _ _ _ Eb Er) as (n & Hd & Hne & _ & Hes1).
    assert (Hother : forall x, x <> d -> assoc x es <> None -> assoc x es1 = assoc x es).
    { intros x Hx Hx'. rewrite Hes1, <- set_entry_fresh.
      - rewrite assoc_set_other, assoc_remove_other; congruence.
      - rewrite assoc_remove_other; congruence. }
    destruct (list_remove d dirs) as [dirs1|] eqn:El.
    + destruct (list_remove_spec _ _ _ N El) as (N1 & _ & I1).
      destruct (folder_loop_local refuses root todo dirs1 es1) as [[es2 dirs2] evs2] eqn:E.
      intros [= <- <- <-].
      assert (Hp1 : forall x, In x dirs1 -> assoc x es1 <> None).
      { intros x Hx. apply I1 in Hx as [Hx Hxd]. rewrite Hother; auto. }
      destruct (IH dirs1 es1 _ _ _ N1 Hp1 E) as (R1 & R2 & R3).
      split; [assumption|]. split.
      * intros x Hx. apply R2, I1 in Hx. tauto.
      * intros x Hx. rewrite R3 by assumption. apply R2, I1 in Hx as [Hx Hxd].
        apply Hother; auto.
    + apply list_remove_None in El.
      destruct (folder_loop_local refuses root todo dirs es1) as [[es2 dirs2] evs2] eqn:E.
      intros [= <- <- <-].
      assert (Hd' : forall x, In x dirs -> x <> d) by (intros x Hx ->; tauto).
      assert (Hp1 : forall x, In x dirs -> assoc x es1 <> None).
      { intros x Hx. rewrite Hother; auto. }
      destruct (IH dirs es1 _ _ _ N Hp1 E) as (R1 & R2 & R3).
      split; [assumption|]. split; [assumption|].
      intros x Hx. rewrite R3 by assumption. apply Hother; auto.
Qed.

Lemma dir_names_spec (x : string) (es : entries) :
  In x (dir_names es) <-> exists es', In (x, Dir es') es.
Proof.
  unfold dir_names, names. rewrite in_map_iff. split.
  - intros [[k c] [<- H]]. apply filter_In in H as [H1 H2]. simpl in *.
    destruct c; [discriminate|]. eauto.
  - intros [es' H]. exists (x, Dir es'). split; [reflexivity|].
    apply filter_In. now split.
Qed.

Lemma NoDup_filter_map (es : entries) (f : string * node -> bool) :
  NoDup (names es) -> NoDup (names (filter f es)).
Proof.
  unfold names. induction es as [|e es IH]; simpl; [constructor|].
  intros N. inversion N as [|? ? N1 N2]; subst.
  destruct (f e); simpl; [|auto]. constructor; [|auto].
  rewrite in_map_iff. intros [e' [E H]]. apply filter_In in H as [H _].
  apply N1. rewrite in_map_iff. eauto.
Qed.

Lemma find_sub (top : path) (d : string) (c : node) (es : entries) :
  assoc d es = Some c ->
  find (fun r => fst r =? d)
       (map (fun e => (fst e, walk_tree refuses (top ++ [fst e]) (snd e))) es)
  = Some (d, walk_tree refuses (top ++ [d]) c).
Proof.
  induction es as [|[k c'] es IH]; simpl; [discriminate|].
  destruct (k =? d) eqn:E.
  - apply String.eqb_eq in E. subst. now intros [= ->].
  - assumption.
Qed.

(** Walking the sub-directories [ds] of [top], one after the other. *)
Lemma walk_children_agrees (fuel : nat) (top : path) (es : entries) :
  Forall (fun e => forall top st fuel,
            wf (snd e) = true -> lookup (fs st) top = Some (snd e) ->
            height (snd e) < fuel ->
            walk_folders refuses fuel top st =
            let '(n', evs) := walk_tree refuses top (snd e) in
            Ok (with_fs (at_path top (fun _ => n') (fs st)) (replay evs st))) es ->
  wf (Dir es) = true -> height (Dir es) <= fuel ->
  forall ds es_acc st,
  NoDup ds ->
  (forall d, In d ds -> assoc d es_acc = assoc d es /\ assoc d es <> None) ->
  lookup (fs st) top = Some (Dir es_acc) ->
  for_each (fun s d => walk_folders refuses fuel (top ++ [d]) s) ds st =
  let '(es', evs) :=
    walk_children (map (fun e => (fst e, walk_tree refuses (top ++ [fst e]) (snd e))) es)
                  ds es_acc in
  Ok (with_fs (at_path top (fun _ => Dir es') (fs st)) (replay evs st)).
Proof.
  intros IH Hwf Hh. apply wf_Dir in Hwf as [Hnd Hwfc].
  induction ds as [|d ds IHds]; intros es_acc st N Hds Hl.
  - simpl. now rewrite (at_path_id _ _ _ _ Hl eq_refl), with_fs_same.
  - inversion N as [|? ? N1 N2]; subst.
    destruct (Hds d (or_introl eq_refl)) as [Hd1 Hd2].
    destruct (assoc d es) as [c|] eqn:Ec; [clear Hd2 | congruence].
    pose proof (assoc_In _ _ _ Ec) as Hin.
    rewrite Forall_forall in IH. specialize (IH _ Hin). simpl in IH.
    cbn [for_each walk_children]. rewrite (find_sub _ _ _ _ Ec).
    rewrite (IH (top ++ [d]) st fuel).
    + destruct (walk_tree refuses (top ++ [d]) c) as [c' evs_d]. cbn [rbind].
      rewrite IHds with (es_acc := map_entry d (fun _ => c') es_acc).
      * destruct (walk_children _ ds _) as [es' evs']. f_equal.
        cbn [fs with_fs]. rewrite at_path_app.
        rewrite (at_path_ext_at top (at_path [d] (fun _ => c')) (fun _ => Dir (map_entry d (fun _ => c') es_acc)) _ _ Hl eq_refl).
        rewrite at_path_compose, replay_with_fs, with_fs_idem, replay_app.
        reflexivity.
      * assumption.
      * intros d' Hd'. destruct (Hds d' (or_intror Hd')) as [H1 H2].
        split; [|assumption]. rewrite assoc_map_entry.
        destruct (d' =? d) eqn:E; [|assumption].
        apply String.eqb_eq in E. subst. tauto.
      * cbn [fs with_fs]. rewrite at_path_app.
        rewrite (at_path_ext_at top (at_path [d] (fun _ => c')) (fun _ => Dir (map_entry d (fun _ => c') es_acc)) _ _ Hl eq_refl).
        now apply lookup_at_path_same with (n := Dir es_acc).
    + exact (Hwfc _ _ Hin).
    + rewrite (lookup_snoc _ _ _ _ Hl). congruence.
    + pose proof (height_entry _ _ _ Hin). lia.
Qed.

(** [os.walk] with the body of Part 1, from [top] where the tree [n] is,
    does what [walk_tree] says, given fuel for the height of [n]. *)
Theorem walk_folders_agrees (n : node) :
  forall top st fuel,
  wf n = true -> lookup (fs st) top = Some n -> height n < fuel ->
  walk_folders refuses fuel top st =
  let '(n', evs) := walk_tree refuses top n in
  Ok (with_fs (at_path top (fun _ => n') (fs st)) (replay evs st)).
Proof.
  induction n as [data | es IH] using node_induction; intros top st fuel Hwf Hl Hh.
  - destruct fuel; [simpl in Hh; lia|]. simpl. unfold scandir. rewrite Hl.
    now rewrite (at_path_id _ _ _ _ Hl eq_refl), with_fs_same.
  - destruct fuel; [lia|]. cbn [walk_folders walk_tree]. unfold scandir. rewrite Hl.
    rewrite (folder_loop_agrees refuses top _ _ es) by exact Hl.
    pose proof (proj1 (wf_Dir es) Hwf) as [Hnd Hwfc].
    assert (Nd : NoDup (dir_names es)) by now apply NoDup_filter_map.
    assert (Hp : forall x, In x (dir_names es) -> assoc x es <> None).
    { intros x Hx. apply dir_names_spec in Hx as [es' Hx].
      now rewrite (In_assoc _ _ _ Hnd Hx). }
    destruct (folder_loop_local refuses top (dir_names es) (dir_names es) es)
      as [[es1 dirs1] evs1] eqn:E1.
    destruct (folder_loop_local_frame _ _ _ _ _ _ _ Nd Hp E1) as (R1 & R2 & R3).
    cbn [rbind fst snd].
    rewrite (walk_children_agrees fuel top es IH Hwf) with (es_acc := es1).
    + destruct (walk_children _ dirs1 es1) as [es2 evs2]. f_equal.
      cbn [fs with_fs emit]. rewrite at_path_compose.
      rewrite replay_with_fs, with_fs_idem.
      change (EvWalk top :: evs1 ++ evs2) with ([EvWalk top] ++ evs1 ++ evs2).
      now rewrite !replay_app.
    + lia.
    + assumption.
    + intros d Hd. split; [now apply R3 | apply Hp, R2, Hd].
    + cbn [fs with_fs]. now apply lookup_at_path_same with (n := Dir es).
Qed.

End Walk.

End Walk.


(* ================================================================= *)
(** ** What Part 1 does to a tree *)

Module Trace.
Import FS Script Names Tree FSFacts StrFacts PatFacts Agree Walk.

Lemma renames_In (evs : list event) (o n : path) :
  In (o, n) (renames evs) <-> In (EvFolderRenamed o n) evs.
Proof.
  unfold renames. rewrite in_flat_map. split.
  - intros [e [H1 H2]]. destruct e; simpl in H2; try tauto.
    destruct H2 as [[= -> ->] | []]. assumption.
  - intros H. exists (EvFolderRenamed o n). split; [assumption | now left].
Qed.

Lemma folder_new_name_AC (d b : string) :
  folder_new_name d = Some b ->
  PyStr.startswith (PyStr.upper d) "AC" = true /\
  PyStr.all_digits b = true /\ b <> "".
Proof.
  unfold folder_new_name. destruct (PyStr.startswith _ _); [|discriminate].
  destruct (PyStr.findall_digits d) as [|number l] eqn:E; [discriminate|].
  pose proof (findall_digits_ok d) as F. rewrite E in F.
  inversion F as [|? ? [H1 H2] _]; subst.
  destruct (PyStr.int number) as [n|] eqn:En; [|discriminate].
  intros [= <-]. split; [reflexivity|].
  rewrite (str_int _ _ En). now apply strip_zeros_digits.
Qed.

(** A new folder name is not itself a name the rule applies to. *)
Lemma new_name_final (d b : string) :
  folder_new_name d = Some b -> folder_new_name b = None.
Proof.
  intros H. apply folder_new_name_AC in H as (_ & H & _).
  unfold folder_new_name. now rewrite (digits_no_AC _ H).
Qed.

Section Trace.

Variable refuses : path -> path -> bool.

(** The body leaves alone every name that is neither a source nor a
    possible target of its renames. *)
Lemma folder_loop_local_other (root : path) (todo : list string) (x : string) :
  forall dirs es es' dirs' evs,
  (In x todo -> folder_new_name x = None) ->
  (assoc x es = None -> forall d, In d todo -> folder_new_name d <> Some x) ->
  folder_loop_local refuses root todo dirs es = (es', dirs', evs) ->
  assoc x es' = assoc x es.
Proof.
  induction todo as [|d todo IH]; intros dirs es es' dirs' evs Hs Ht; simpl.
  - now intros [= <- <- <-].
  - assert (Hs' : In x todo -> folder_new_name x = None) by (intros; apply Hs; now right).
    assert (Ht' : assoc x es = None -> forall d, In d todo -> folder_new_name d <> Some x)
      by (intros H0 d0 Hd0; apply Ht; [assumption | now right]).
    assert (Hsame : forall evs1 X,
      (let '(es2, dirs2, evs2) := folder_loop_local refuses root todo dirs es in
       (es2, dirs2, X :: evs1 ++ evs2)) = (es', dirs', evs) ->
      assoc x es' = assoc x es).
    { intros evs1 X.
      destruct (folder_loop_local refuses root todo dirs es) as [[es2 dirs2] evs2] eqn:E.
      intros [= <- <- <-]. exact (IH _ _ _ _ _ Hs' Ht' E). }
    destruct (folder_new_name d) as [b|] eqn:Eb; [|apply Hsame].
    destruct (assoc b es) eqn:Ea; [apply Hsame|].
    destruct (rename_local refuses root d b es) as [e|es1] eqn:Er; [apply Hsame|].
    destruct (rename_local_fresh _ _ _ _ _ _ Ea Er) as (n & Hd & Hne & _ & Hes1).
    assert (Hxd : x <> d).
    { intros ->. rewrite Hs in Eb by now left. discriminate. }
    assert (Hxb : x <> b).
    { intros ->. apply (Ht Ea d); [now left | assumption]. }
    assert (Hx1 : assoc x es1 = assoc x es).
    { rewrite Hes1, <- set_entry_fresh.
      - rewrite assoc_set_other, assoc_remove_other; congruence.
      - rewrite assoc_remove_other; congruence. }
    assert (Ht1 : assoc x es1 = None -> forall d, In d todo -> folder_new_name d <> Some x)
      by (rewrite Hx1; exact Ht').
    destruct (list_remove d dirs) as [dirs1|].
    + destruct (folder_loop_local refuses root todo dirs1 es1) as [[es2 dirs2] evs2] eqn:E.
      intros [= <- <- <-]. rewrite <- Hx1. exact (IH _ _ _ _ _ Hs' Ht1 E).
    + destruct (folder_loop_local refuses root todo dirs es1) as [[es2 dirs2] evs2] eqn:E.
      intros [= <- <- <-]. rewrite <- Hx1. exact (IH _ _ _ _ _ Hs' Ht1 E).
Qed.

(** The events of the body at [root]. *)
Lemma folder_loop_local_events (root : path) (todo : list string) :
  forall dirs es es' dirs' evs,
  folder_loop_local refuses root todo dirs es = (es', dirs', evs) ->
  roots evs = map (fun _ => root) todo /\
  examined evs = map (fun d => root ++ [d]) todo.
Proof.
  induction todo as [|d todo IH]; intros dirs es es' dirs' evs; simpl.
  - now intros [= <- <- <-].
  - assert (Hgen : forall es1 dirs1 evs1,
      roots evs1 = [] -> examined evs1 = [] ->
      (let '(es2, dirs2, evs2) := folder_loop_local refuses root todo dirs1 es1 in
       (es2, dirs2, EvDir root d :: evs1 ++ evs2)) = (es', dirs', evs) ->
      roots evs = root :: map (fun _ => root) todo /\
      examined evs = (root ++ [d]) :: map (fun d => root ++ [d]) todo).
    { intros es1 dirs1 evs1 R1 X1.
      destruct (folder_loop_local refuses root todo dirs1 es1) as [[es2 dirs2] evs2] eqn:E.
      intros [= <- <- <-]. destruct (IH _ _ _ _ _ E) as [I1 I2].
      unfold roots, examined in *. simpl.
      rewrite !flat_map_app, R1, X1, I1, I2. now split. }
    destruct (folder_new_name d) as [b|]; [|now apply Hgen].
    destruct (assoc b es); [now apply Hgen|].
    destruct (rename_local refuses root d b es); [now apply Hgen|].
    destruct (list_remove d dirs); now apply Hgen.
Qed.

(** The renames of the body at [root]. *)
Lemma folder_loop_local_renames (root : path) (todo : list string) :
  forall dirs es es' dirs' evs,
  NoDup todo -> NoDup dirs -> (forall x, In x dirs -> assoc x es <> None) ->
  folder_loop_local refuses root todo dirs es = (es', dirs', evs) ->
  NoDup (map fst (renames evs)) /\
  forall o n, In (EvFolderRenamed o n) evs ->
    exists d b, o = root ++ [d] /\ n = root ++ [b] /\ In d todo /\
      folder_new_name d = Some b /\ ~ In d dirs' /\ ~ In b dirs' /\
      assoc d es' = None /\ assoc b es' = assoc d es /\ assoc d es <> None /\
      refuses o n = false.
Proof.
  induction todo as [|d todo IH]; intros dirs es es' dirs' evs Nt N Hp; simpl.
  - intros [= <- <- <-]. split; [constructor | intros o n []].
  - inversion Nt as [|? ? Nt1 Nt2]; subst.
    assert (Hsame : forall evs1,
      renames evs1 = [] ->
      (let '(es2, dirs2, evs2) := folder_loop_local refuses root todo dirs es in
       (es2, dirs2, EvDir root d :: evs1 ++ evs2)) = (es', dirs', evs) ->
      NoDup (map fst (renames evs)) /\
      forall o n, In (EvFolderRenamed o n) evs ->
        exists d0 b, o = root ++ [d0] /\ n = root ++ [b] /\ In d0 (d :: todo) /\
          folder_new_name d0 = Some b /\ ~ In d0 dirs' /\ ~ In b dirs' /\
          assoc d0 es' = None /\ assoc b es' = assoc d0 es /\ assoc d0 es <> None /\
          refuses o n = false).
    { intros evs1 R1.
      destruct (folder_loop_local refuses root todo dirs es) as [[es2 dirs2] evs2] eqn:E.
      intros [= <- <- <-]. destruct (IH _ _ _ _ _ Nt2 N Hp E) as [I1 I2].
      split.
      - unfold renames in *. simpl. now rewrite flat_map_app, R1.
      - intros o n Hin. destruct Hin as [Hin|Hin]; [discriminate|].
        apply in_app_iff in Hin as [Hin|Hin].
        + apply renames_In in Hin. rewrite R1 in Hin. destruct Hin.
        + destruct (I2 _ _ Hin) as (d0 & b & ? & ? & ? & ?).
          exists d0, b. repeat split; try tauto. now right. }
    destruct (folder_new_name d) as [b|] eqn:Eb; [|now apply Hsame].
    destruct (assoc b es) eqn:Ea; [now apply Hsame|].
    destruct (rename_local refuses root d b es) as [e|es1] eqn:Er; [now apply Hsame|].
    destruct (rename_local_fresh _ _ _ _ _ _ Ea Er) as (n & Hd & Hne & Hrf & Hes1).
    assert (Hother : forall x, x <> d -> x <> b -> assoc x es1 = assoc x es).
    { intros x Hx Hx'. rewrite Hes1, <- set_entry_fresh.
      - rewrite assoc_set_other, assoc_remove_other; congruence.
      - rewrite assoc_remove_other; congruence. }
    assert (Hbd : forall x, In x dirs -> x <> b).
    { intros x Hx ->. now apply (Hp _ Hx). }
    assert (Hd1 : assoc d es1 = None).
    { rewrite Hes1, <- set_entry_fresh.
      - rewrite assoc_set_other by congruence. apply assoc_remove_same.
      - rewrite assoc_remove_other; congruence. }
    assert (Hb1 : assoc b es1 = Some n).
    { rewrite Hes1, <- set_entry_fresh.
      - apply assoc_set_same.
      - rewrite assoc_remove_other; congruence. }
    assert (Hrest : forall dirs1 evs1,
      NoDup dirs1 -> incl dirs1 dirs -> ~ In d dirs1 ->
      renames evs1 = [(root ++ [d], root ++ [b])] ->
      (forall o n, In (EvFolderRenamed o n) evs1 -> o = root ++ [d] /\ n = root ++ [b]) ->
      (let '(es2, dirs2, evs2) := folder_loop_local refuses root todo dirs1 es1 in
       (es2, dirs2, EvDir root d :: evs1 ++ evs2)) = (es', dirs', evs) ->
      NoDup (map fst (renames evs)) /\
      forall o n, In (EvFolderRenamed o n) evs ->
        exists d0 b, o = root ++ [d0] /\ n = root ++ [b] /\ In d0 (d :: todo) /\
          folder_new_name d0 = Some b /\ ~ In d0 dirs' /\ ~ In b dirs' /\
          assoc d0 es' = None /\ assoc b es' = assoc d0 es /\ assoc d0 es <> None /\
          refuses o n = false).
    { intros dirs1 evs1 N1 Hincl Hdd R1 R1'.
      destruct (folder_loop_local refuses root todo dirs1 es1) as [[es2 dirs2] evs2] eqn:E.
      intros [= <- <- <-].
      assert (Hp1 : forall x, In x dirs1 -> assoc x es1 <> None).
      { intros x Hx. rewrite Hother.
        - apply Hp, Hincl, Hx.
        - intros ->. tauto.
        - apply Hbd, Hincl, Hx. }
      destruct (IH _ _ _ _ _ Nt2 N1 Hp1 E) as [I1 I2].
      destruct (folder_loop_local_frame _ _ _ _ _ _ _ _ N1 Hp1 E) as (F1 & F2 & F3).
      split.
      - unfold renames in *. simpl. rewrite flat_map_app, R1. simpl.
        constructor; [|assumption].
        intros Hin. apply in_map_iff in Hin as [[o' n'] [Ho Hin]]. simpl in Ho. subst o'.
        apply renames_In in Hin. destruct (I2 _ _ Hin) as (d0 & b0 & Ho & _ & Hd0 & _).
        apply app_inj_tail in Ho as [_ <-]. tauto.
      - intros o n0 Hin. destruct Hin as [Hin|Hin]; [discriminate|].
        apply in_app_iff in Hin as [Hin|Hin].
        + destruct (R1' _ _ Hin) as [-> ->].
          exists d, b. split; [reflexivity|]. split; [reflexivity|].
          split; [now left|]. split; [assumption|].
          split; [intros H; apply Hdd, F2, H|].
          split; [intros H; apply (Hbd b); [apply Hincl, F2, H | reflexivity]|].
          split.
          { assert (Hs0 : In d todo -> folder_new_name d = None) by tauto.
            assert (Ht0 : assoc d es1 = None ->
                          forall d0, In d0 todo -> folder_new_name d0 <> Some d).
            { intros _ d0 _ H0. apply folder_new_name_AC in H0 as (_ & H0 & _).
              apply folder_new_name_AC in Eb as (Eb & _).
              rewrite (digits_no_AC _ H0) in Eb. discriminate. }
            rewrite (folder_loop_local_other root todo d _ _ _ _ _ Hs0 Ht0 E).
            assumption. }
          split.
          { assert (Hs0 : In b todo -> folder_new_name b = None)
              by (intros _; exact (new_name_final _ _ Eb)).
            assert (Ht0 : assoc b es1 = None ->
                          forall d0, In d0 todo -> folder_new_name d0 <> Some b)
              by (rewrite Hb1; discriminate).
            rewrite (folder_loop_local_other root todo b _ _ _ _ _ Hs0 Ht0 E).
            congruence. }
          split; [congruence | assumption].
        + destruct (I2 _ _ Hin) as (d0 & b0 & Ho & Hn & Hd0 & Hb0 & Hx1 & Hx2 & Hx3 & Hx4 & Hx5 & Hx6).
          assert (Hd0d : d0 <> d) by (intros ->; tauto).
          assert (Hd0b : d0 <> b).
          { intros ->. rewrite (new_name_final _ _ Eb) in Hb0. discriminate. }
          exists d0, b0. rewrite <- (Hother d0 Hd0d Hd0b).
          repeat split; try assumption. now right. }
    destruct (list_remove d dirs) as [dirs1|] eqn:El.
    + destruct (list_remove_spec _ _ _ N El) as (N1 & Hnd & I1).
      apply Hrest; try assumption.
      * intros x Hx. now apply I1 in Hx.
      * reflexivity.
      * intros o n0 [[= <- <-]|[]]. now split.
    + apply list_remove_None in El.
      apply Hrest; try assumption.
      * apply incl_refl.
      * reflexivity.
      * intros o n0 [[= <- <-]|[H|[]]]; [now split | discriminate].
Qed.

End Trace.

End Trace.


Module Paths.
Import FS FSFacts.

Lemma is_prefix_refl (p : path) : is_prefix p p = true.
Proof. apply is_prefix_spec. exists []. now rewrite List.app_nil_r. Qed.

Lemma is_prefix_app (p q : path) : is_prefix p (p ++ q) = true.
Proof. apply is_prefix_spec. now exists q. Qed.

Lemma is_prefix_trans (p q r : path) :
  is_prefix p q = true -> is_prefix q r = true -> is_prefix p r = true.
Proof.
  rewrite !is_prefix_spec. intros [a ->] [b ->]. exists (a ++ b).
  now rewrite List.app_assoc.
Qed.

Lemma is_prefix_longer (p q : path) :
  q <> [] -> is_prefix (p ++ q) p = false.
Proof.
  intros Hq. destruct (is_prefix (p ++ q) p) eqn:E; [|reflexivity].
  apply is_prefix_spec in E as [r E]. rewrite <- List.app_assoc in E.
  rewrite <- (List.app_nil_r p) in E at 1. apply app_inv_head in E.
  symmetry in E. apply app_eq_nil in E as [E _]. congruence.
Qed.

Lemma is_prefix_branch (p : path) (a b : string) (x y : path) :
  is_prefix (p ++ a :: x) (p ++ b :: y) = true -> a = b.
Proof.
  intros E. apply is_prefix_spec in E as [r E]. rewrite <- List.app_assoc in E.
  apply app_inv_head in E. simpl in E. congruence.
Qed.

Lemma is_prefix_branch_false (p : path) (a b : string) (x y : path) :
  a <> b -> is_prefix (p ++ a :: x) (p ++ b :: y) = false.
Proof.
  intros N. destruct (is_prefix (p ++ a :: x) (p ++ b :: y)) eqn:E; [|reflexivity].
  apply is_prefix_branch in E. congruence.
Qed.

Lemma flat_map_flat_map {A B C : Type} (f : A -> list B) (g : B -> list C) (l : list A) :
  flat_map g (flat_map f l) = flat_map (fun x => flat_map g (f x)) l.
Proof.
  induction l as [|x l IH]; simpl; [reflexivity|]. now rewrite flat_map_app, IH.
Qed.

Lemma NoDup_app_intro {A : Type} (l1 l2 : list A) :
  NoDup l1 -> NoDup l2 -> (forall x, In x l1 -> In x l2 -> False) -> NoDup (l1 ++ l2).
Proof.
  induction l1 as [|a l1 IH]; simpl; intros N1 N2 D; [assumption|].
  inversion N1 as [|? ? H1 H2]; subst. constructor.
  - rewrite in_app_iff. intros [H|H]; [tauto | exact (D a (or_introl eq_refl) H)].
  - apply IH; [assumption | assumption |]. intros x Hx. apply D. now right.
Qed.

Lemma NoDup_flat_map {A B : Type} (f : A -> list B) (l : list A) :
  NoDup l -> (forall x, In x l -> NoDup (f x)) ->
  (forall x y z, In x l -> In y l -> In z (f x) -> In z (f y) -> x = y) ->
  NoDup (flat_map f l).
Proof.
  induction l as [|a l IH]; simpl; intros N Hf D; [constructor|].
  inversion N as [|? ? H1 H2]; subst. apply NoDup_app_intro.
  - apply Hf. now left.
  - apply IH; [assumption | intros; apply Hf; now right |].
    intros x y z Hx Hy. apply D; now right.
  - intros z Hz Hz'. apply in_flat_map in Hz' as [y [Hy Hz']].
    assert (a = y) by (apply (D a y z); [now left | now right | assumption | assumption]).
    subst. tauto.
Qed.

(** Paths directly in [top] and paths deeper in the sub-directories [ds]
    of [top] are pairwise different. *)
Lemma NoDup_levels (top : path) (l1 : list path) (ds : list string)
    (f : string -> list path) :
  NoDup l1 -> (forall p, In p l1 -> exists x, p = top ++ [x]) ->
  NoDup ds ->
  (forall d, In d ds -> NoDup (f d)) ->
  (forall d p, In d ds -> In p (f d) -> exists q x, p = top ++ d :: q ++ [x]) ->
  NoDup (l1 ++ flat_map f ds).
Proof.
  intros N1 H1 Nd Nf Hf. apply NoDup_app_intro; [assumption | |].
  - apply NoDup_flat_map; [assumption | assumption |].
    intros x y z Hx Hy Hzx Hzy.
    destruct (Hf _ _ Hx Hzx) as (q & a & ->). destruct (Hf _ _ Hy Hzy) as (q' & a' & E).
    apply app_inv_head in E. congruence.
  - intros p Hp Hp'. destruct (H1 _ Hp) as [x ->].
    apply in_flat_map in Hp' as [d [Hd Hp']]. destruct (Hf _ _ Hd Hp') as (q & a & E).
    apply app_inv_head in E. destruct q; simpl in E; discriminate.
Qed.

End Paths.

Module Inv.
Import FS Script Names Tree FSFacts StrFacts PatFacts Agree Walk Trace Paths.

Lemma roots_app (a b : list event) : roots (a ++ b) = roots a ++ roots b.
Proof. apply flat_map_app. Qed.
Lemma examined_app (a b : list event) : examined (a ++ b) = examined a ++ examined b.
Proof. apply flat_map_app. Qed.
Lemma renames_app (a b : list event) : renames (a ++ b) = renames a ++ renames b.
Proof. apply flat_map_app. Qed.

(** An examined directory is an entry of a directory the walk was in. *)
Lemma examined_root (evs : list event) (p : path) :
  In p (examined evs) -> exists r x, p = r ++ [x] /\ In r (roots evs).
Proof.
  unfold examined, roots. rewrite in_flat_map. intros [e [He Hp]].
  destruct e; simpl in Hp; try tauto. destruct Hp as [<- | []].
  exists root, dir_name. split; [reflexivity|].
  apply in_flat_map. exists (EvDir root dir_name). split; [assumption | now left].
Qed.

Section Inv.

Variable refuses : path -> path -> bool.

Lemma walk_children_spec (top : path) (es : entries) :
  forall ds es_acc es' evs',
  NoDup ds -> (forall d, In d ds -> assoc d es <> None) ->
  walk_children (map (fun e => (fst e, walk_tree refuses (top ++ [fst e]) (snd e))) es)
                ds es_acc = (es', evs') ->
  evs' = flat_map (child_events refuses top es) ds /\
  (forall x, ~ In x ds -> assoc x es' = assoc x es_acc) /\
  (forall x c, In x ds -> assoc x es_acc <> None -> assoc x es = Some c ->
     assoc x es' = Some (fst (walk_tree refuses (top ++ [x]) c))).
Proof.
  induction ds as [|d ds IH]; intros es_acc es' evs' N Hp; simpl.
  - intros [= <- <-]. split; [reflexivity|]. split; [reflexivity | intros x c []].
  - inversion N as [|? ? N1 N2]; subst.
    destruct (assoc d es) as [c|] eqn:Ec; [|now destruct (Hp d (or_introl eq_refl))].
    rewrite (find_sub refuses top d c es Ec).
    destruct (walk_tree refuses (top ++ [d]) c) as [c' evs_d] eqn:Ew.
    destruct (walk_children _ ds _) as [es2 evs2] eqn:E.
    intros [= <- <-].
    destruct (IH _ _ _ N2 (fun x Hx => Hp x (or_intror Hx)) E) as (I1 & I2 & I3).
    split; [|split].
    + unfold child_events at 1. rewrite Ec, Ew. simpl. now rewrite I1.
    + intros x Hx. rewrite I2 by tauto. rewrite assoc_map_entry.
      destruct (x =? d) eqn:Exd; [|reflexivity].
      apply String.eqb_eq in Exd. subst. tauto.
    + intros x cx [<- | Hx] Hx1 Hx2.
      * rewrite I2 by assumption. rewrite assoc_map_entry, String.eqb_refl.
        destruct (assoc d es_acc); [|congruence]. simpl.
        assert (cx = c) by congruence. subst. now rewrite Ew.
      * apply I3; [assumption | | assumption].
        rewrite assoc_map_entry. destruct (x =? d) eqn:Exd; [|assumption].
        destruct (assoc x es_acc); [discriminate | congruence].
Qed.

End Inv.

End Inv.


Module Good.
Import FS Script Names Tree FSFacts StrFacts PatFacts Agree Walk Trace Paths Inv.

Lemma lookup_single (es : entries) (x : string) : lookup (Dir es) [x] = assoc x es.
Proof. simpl. now destruct (assoc x es). Qed.

Lemma map_flat_map {A B C : Type} (f : B -> C) (g : A -> list B) (l : list A) :
  map f (flat_map g l) = flat_map (fun x => map f (g x)) l.
Proof.
  induction l as [|x l IH]; simpl; [reflexivity|]. now rewrite map_app, IH.
Qed.

Lemma NoDup_map_snoc (top : path) (l : list string) :
  NoDup l -> NoDup (map (fun d => top ++ [d]) l).
Proof.
  induction l as [|x l IH]; simpl; intros N; [constructor|].
  inversion N as [|? ? N1 N2]; subst. constructor; [|auto].
  rewrite in_map_iff. intros [y [E Hy]]. apply app_inv_head in E.
  injection E as ->. tauto.
Qed.

Section Good.

Variable refuses : path -> path -> bool.

Lemma roots_children (top : path) (es : entries) (ds : list string) (r : path) :
  In r (roots (flat_map (child_events refuses top es) ds)) ->
  exists d, In d ds /\ In r (roots (child_events refuses top es d)).
Proof.
  unfold roots. rewrite flat_map_flat_map, in_flat_map. intros [d [H1 H2]]. eauto.
Qed.

Lemma roots_children_intro (top : path) (es : entries) (ds : list string) (r : path) (d : string) :
  In d ds -> In r (roots (child_events refuses top es d)) ->
  In r (roots (flat_map (child_events refuses top es) ds)).
Proof.
  intros H1 H2. unfold roots. rewrite flat_map_flat_map, in_flat_map. eauto.
Qed.

Theorem walk_tree_good (n : node) :
  forall top, wf n = true ->
  good refuses top n (fst (walk_tree refuses top n)) (snd (walk_tree refuses top n)).
Proof.
  induction n as [data | es IH] using node_induction; intros top Hwf.
  - simpl. repeat split; try constructor; intros; contradiction.
  - pose proof (proj1 (wf_Dir es) Hwf) as [Hnd Hwfc].
    assert (Nd : NoDup (dir_names es)) by now apply NoDup_filter_map.
    assert (Hp : forall x, In x (dir_names es) -> assoc x es <> None).
    { intros x Hx. apply dir_names_spec in Hx as [es' Hx].
      now rewrite (In_assoc _ _ _ Hnd Hx). }
    cbn [walk_tree].
    destruct (folder_loop_local refuses top (dir_names es) (dir_names es) es)
      as [[es1 dirs1] evs1] eqn:E1.
    destruct (folder_loop_local_frame _ _ _ _ _ _ _ _ Nd Hp E1) as (R1 & R2 & R3).
    destruct (folder_loop_local_events _ _ _ _ _ _ _ _ E1) as (V1 & V2).
    destruct (folder_loop_local_renames _ _ _ _ _ _ _ _ Nd Nd Hp E1) as (Q1 & Q2).
    destruct (walk_children _ dirs1 es1) as [es2 evs2] eqn:E2.
    assert (Hp1 : forall d, In d dirs1 -> assoc d es <> None)
      by (intros d Hd; apply Hp, R2, Hd).
    destruct (walk_children_spec refuses top es _ _ _ _ R1 Hp1 E2) as (C1 & C2 & C3).
    cbn [fst snd].
    assert (HC : forall d, In d dirs1 -> exists c, assoc d es = Some c /\
      good refuses (top ++ [d]) c (fst (walk_tree refuses (top ++ [d]) c))
           (child_events refuses top es d)).
    { intros d Hd. destruct (assoc d es) as [c|] eqn:Ec; [|now destruct (Hp1 d Hd)].
      exists c. split; [reflexivity|]. unfold child_events. rewrite Ec.
      pose proof (assoc_In _ _ _ Ec) as Hin. rewrite Forall_forall in IH.
      apply (IH _ Hin). exact (Hwfc _ _ Hin). }
    assert (HR : forall r, In r (roots evs2) ->
      exists d q, In d dirs1 /\ r = top ++ d :: q /\
                  In r (roots (child_events refuses top es d))).
    { intros r Hr. rewrite C1 in Hr. apply roots_children in Hr as [d [Hd Hr]].
      destruct (HC d Hd) as (c & _ & G1 & _). specialize (G1 _ Hr).
      apply is_prefix_spec in G1 as [q ->]. exists d, q.
      rewrite <- List.app_assoc in *. now repeat split. }
    assert (Hroots : forall r, In r (roots (EvWalk top :: evs1 ++ evs2)) ->
                     r = top \/ In r (roots evs2)).
    { intros r Hr. change (EvWalk top :: evs1 ++ evs2) with ([EvWalk top] ++ evs1 ++ evs2) in Hr.
      rewrite !roots_app, V1 in Hr. simpl in Hr.
      destruct Hr as [<- | Hr]; [now left|]. apply in_app_iff in Hr as [Hr|Hr]; [|now right].
      apply in_map_iff in Hr as [? [<- _]]. now left. }
    split; [|split; [|split; [|split]]].
    + (* the walk stays below [top] *)
      intros r Hr. apply Hroots in Hr as [-> | Hr]; [apply is_prefix_refl|].
      destruct (HR _ Hr) as (d & q & _ & -> & _). apply is_prefix_app.
    + (* no directory is examined twice *)
      change (EvWalk top :: evs1 ++ evs2) with ([EvWalk top] ++ evs1 ++ evs2).
      rewrite !examined_app, V2, C1. simpl. unfold examined at 1.
      rewrite flat_map_flat_map. apply (NoDup_levels top).
      * now apply NoDup_map_snoc.
      * intros p Hp'. apply in_map_iff in Hp' as [x [<- _]]. eauto.
      * assumption.
      * intros d Hd. destruct (HC d Hd) as (c & _ & _ & G2 & _). exact G2.
      * intros d p Hd Hp'. destruct (HC d Hd) as (c & _ & G1 & _).
        apply examined_root in Hp' as (r & x & -> & Hr). specialize (G1 _ Hr).
        apply is_prefix_spec in G1 as [q ->]. exists q, x.
        now rewrite <- !List.app_assoc.
    + (* no directory is renamed twice *)
      change (EvWalk top :: evs1 ++ evs2) with ([EvWalk top] ++ evs1 ++ evs2).
      rewrite !renames_app, C1. simpl. rewrite map_app. unfold renames at 2.
      rewrite flat_map_flat_map, map_flat_map. apply (NoDup_levels top).
      * assumption.
      * intros p Hp'. apply in_map_iff in Hp' as [[o nw] [<- Hin]]. simpl.
        apply renames_In in Hin. destruct (Q2 _ _ Hin) as (d & b & -> & _). eauto.
      * assumption.
      * intros d Hd. destruct (HC d Hd) as (c & _ & _ & _ & G3 & _). exact G3.
      * intros d p Hd Hp'. destruct (HC d Hd) as (c & _ & _ & _ & _ & _ & G5).
        apply in_map_iff in Hp' as [[o nw] [<- Hin]]. simpl.
        apply renames_In in Hin. destruct (G5 _ _ Hin) as (r & x & b & -> & _).
        exists r, x. now rewrite <- !List.app_assoc.
    + reflexivity.
    + (* every renamed folder was moved *)
      intros o nw Hin. destruct Hin as [Hin|Hin]; [discriminate|].
      apply in_app_iff in Hin as [Hin|Hin].
      * destruct (Q2 _ _ Hin) as (d & b & -> & -> & Hd & Hb & Hd1 & Hb1 & Hd2 & Hb2 & Hd3 & Href).
        exists [], d, b. simpl.
        split; [reflexivity|]. split; [reflexivity|]. split; [assumption|].
        split; [assumption|]. split; [left; now rewrite List.app_nil_r|].
        split; [|split; [|split]].
        -- intros r' Hr'. apply Hroots in Hr' as [-> | Hr'].
           ++ split; apply is_prefix_longer; discriminate.
           ++ destruct (HR _ Hr') as (d' & q & Hd' & -> & _).
              split; apply is_prefix_branch_false; intros ->; tauto.
        -- apply dir_names_spec in Hd as [es' Hd]. exists es'.
           destruct (assoc d es) eqn:Ea; rewrite (In_assoc _ _ _ Hnd Hd) in Ea; congruence.
        -- fold (lookup (Dir es2) [b]). fold (lookup (Dir es) [d]).
           rewrite !lookup_single, C2 by assumption. assumption.
        -- fold (lookup (Dir es2) [d]). rewrite lookup_single, C2 by assumption. assumption.
      * rewrite C1 in Hin. apply in_flat_map in Hin as [d' [Hd' Hin]].
        destruct (HC d' Hd') as (c & Ec & G1 & _ & _ & _ & G5).
        destruct (G5 _ _ Hin) as (r & d & b & -> & -> & Hb & Href & Hr & Hno & [es0 Hes0] & Hl1 & Hl2).
        assert (Ec' : assoc d' es2 = Some (fst (walk_tree refuses (top ++ [d']) c))).
        { apply C3; [assumption | | assumption]. rewrite R3 by assumption. congruence. }
        exists (d' :: r), d, b. rewrite <- !List.app_assoc in *. simpl in *.
        split; [reflexivity|]. split; [reflexivity|]. split; [assumption|].
        split; [assumption|].
        split; [right; rewrite roots_app; apply in_app_iff; right; rewrite C1;
                now apply (roots_children_intro top es dirs1 _ d')|].
        split; [|split; [|split]].
        -- intros r' Hr'. apply Hroots in Hr' as [-> | Hr'].
           ++ split; apply is_prefix_longer; discriminate.
           ++ destruct (HR _ Hr') as (d'' & q & Hd'' & -> & Hr'').
              destruct (string_dec d' d'') as [<- | Hne].
              ** apply Hno in Hr''. exact Hr''.
              ** split; apply is_prefix_branch_false; assumption.
        -- exists es0. now rewrite Ec.
        -- now rewrite Ec', Ec.
        -- now rewrite Ec'.
Qed.

End Good.

End Good.


(* ================================================================= *)
(** ** Part 2 from the folder it works in *)

Module Files.
Import FS Script Names Spec Tree FSFacts StrFacts PatFacts Agree Walk Trace Paths Inv.

(** The groups of a match are numbers. *)
Lemma pdf_groups_int (filename g1 g2 g3 : string) :
  PyStr.endswith (PyStr.lower filename) ".pdf" = true ->
  Pattern.re_match_pdf filename = Some (g1, g2, g3) ->
  exists n m, PyStr.int g2 = Some n /\ PyStr.int g3 = Some m.
Proof.
  intros Hend H. destruct (re_match_pdf_shape _ _ _ _ Hend H)
    as (a & ext & _ & _ & _ & [L2 D2] & [L3 D3] & _).
  destruct (int_digits g2 D2) as [n Hn]; [now destruct g2|].
  destruct (int_digits g3 D3) as [m Hm]; [now destruct g3|].
  eauto.
Qed.

Section Files.

Variable refuses : path -> path -> bool.

(** Lines 118-139 change the entries of the folder as [file_loop_local] says. *)
Lemma file_loop_agrees (folder_path : path) (todo : list string) :
  forall es st,
  lookup (fs st) folder_path = Some (Dir es) ->
  file_loop refuses folder_path todo st =
  let '(es', evs) := file_loop_local refuses folder_path todo es in
  Ok (with_fs (at_path folder_path (fun _ => Dir es') (fs st)) (replay evs st)).
Proof.
  induction todo as [|f todo IH]; intros es st H.
  - simpl. now rewrite (at_path_id _ _ _ _ H eq_refl), with_fs_same.
  - cbn [file_loop file_loop_local].
    assert (Hstep : forall es1 evs1 st1,
      lookup (fs st1) folder_path = Some (Dir es1) ->
      st1 = with_fs (at_path folder_path (fun _ => Dir es1) (fs st)) (replay evs1 st) ->
      file_loop refuses folder_path todo st1 =
      (let '(es2, evs2) := file_loop_local refuses folder_path todo es1 in
       Ok (with_fs (at_path folder_path (fun _ => Dir es2) (fs st))
                   (replay (evs1 ++ evs2) st)))).
    { intros es1 evs1 st1 H1 E1. rewrite (IH _ _ H1).
      destruct (file_loop_local refuses folder_path todo es1) as [es2 evs2].
      rewrite E1. cbn [fs with_fs]. rewrite at_path_compose.
      now rewrite replay_with_fs, with_fs_idem, replay_app. }
    assert (Hsame : forall evs1 st1,
      st1 = replay evs1 st ->
      file_loop refuses folder_path todo st1 =
      (let '(es2, evs2) := file_loop_local refuses folder_path todo es in
       Ok (with_fs (at_path folder_path (fun _ => Dir es2) (fs st))
                   (replay (evs1 ++ evs2) st)))).
    { intros evs1 st1 E1. apply Hstep.
      - rewrite E1, fs_replay. exact H.
      - rewrite (at_path_id _ _ _ _ H eq_refl). rewrite E1.
        rewrite <- (fs_replay evs1 st) at 1. now rewrite with_fs_same. }
    unfold pdf_new_name.
    destruct (PyStr.endswith (PyStr.lower f) ".pdf") eqn:Hend.
    2:{ rewrite (Hsame [] st eq_refl).
        now destruct (file_loop_local refuses folder_path todo es) as [? ?]. }
    destruct (Pattern.re_match_pdf f) as [[[g1 g2] g3]|] eqn:Hm.
    2:{ rewrite (Hsame [EvFileSkipped (folder_path ++ [f])]
                       (emit (EvFileSkipped (folder_path ++ [f])) st) eq_refl).
        now destruct (file_loop_local refuses folder_path todo es) as [? ?]. }
    destruct (pdf_groups_int _ _ _ _ Hend Hm) as (n & m & -> & ->).
    cbn [of_int rbind].
    rewrite (os_rename_local refuses _ _ _ _ _ H).
    destruct (rename_local refuses folder_path f _ es) as [e|es'].
    + rewrite (Hsame [EvFileFailed (folder_path ++ [f]) (OSError e)]
                     (emit (EvFileFailed (folder_path ++ [f]) (OSError e)) st) eq_refl).
      now destruct (file_loop_local refuses folder_path todo es) as [? ?].
    + match goal with |- file_loop _ _ _ ?s = _ =>
        rewrite (Hstep es' [EvFileRenamed (folder_path ++ [f])
           (folder_path ++ [PyStr.upper g1 +++ "_" +++ PyStr.str n +++ "_" +++ PyStr.str m +++ ".pdf"])] s)
      end.
      * now destruct (file_loop_local refuses folder_path todo es') as [? ?].
      * cbn [fs]. now apply lookup_at_path_same with (n := Dir es).
      * reflexivity.
Qed.

(** The events of lines 118-139 in one folder are about entries of that
    folder, and none is an event of Part 1 or the start of a scan. *)
Lemma file_loop_local_events (folder_path : path) (todo : list string) :
  forall es es' evs,
  file_loop_local refuses folder_path todo es = (es', evs) ->
  forall e, In e evs ->
    exists f, In f todo /\
      (e = EvFileSkipped (folder_path ++ [f]) \/
       (exists e', e = EvFileFailed (folder_path ++ [f]) e') \/
       (exists t, pdf_new_name f = Some t /\
                  e = EvFileRenamed (folder_path ++ [f]) (folder_path ++ [t]))).
Proof.
  induction todo as [|f todo IH]; intros es es' evs; simpl.
  - intros [= <- <-] e [].
  - assert (Hgen : forall es1 evs1,
      (forall e, In e evs1 ->
         e = EvFileSkipped (folder_path ++ [f]) \/
         (exists e', e = EvFileFailed (folder_path ++ [f]) e') \/
         (exists t, pdf_new_name f = Some t /\
                    e = EvFileRenamed (folder_path ++ [f]) (folder_path ++ [t]))) ->
      (let '(es2, evs2) := file_loop_local refuses folder_path todo es1 in
       (es2, evs1 ++ evs2)) = (es', evs) ->
      forall e, In e evs ->
        exists f0, (f = f0 \/ In f0 todo) /\
          (e = EvFileSkipped (folder_path ++ [f0]) \/
           (exists e', e = EvFileFailed (folder_path ++ [f0]) e') \/
           (exists t, pdf_new_name f0 = Some t /\
                      e = EvFileRenamed (folder_path ++ [f0]) (folder_path ++ [t])))).
    { intros es1 evs1 H1.
      destruct (file_loop_local refuses folder_path todo es1) as [es2 evs2] eqn:E.
      intros [= <- <-] e He. apply in_app_iff in He as [He|He].
      - exists f. split; [now left | now apply H1].
      - destruct (IH _ _ _ E _ He) as (f0 & Hf0 & Hcases).
        exists f0. split; [now right | exact Hcases]. }
    destruct (PyStr.endswith (PyStr.lower f) ".pdf"); [|apply Hgen; intros e []].
    destruct (pdf_new_name f) as [t|] eqn:Et.
    + destruct (rename_local refuses folder_path f t es) as [e0|es1]; apply Hgen.
      * intros e [<-|[]]. right. left. eauto.
      * intros e [<-|[]]. right. right. eauto.
    + apply Hgen. intros e [<-|[]]. now left.
Qed.

End Files.

End Files.


(* ================================================================= *)
(** ** The two parts, run one after the other *)

Module Run.
Import FS Script Names Spec Tree FSFacts StrFacts PatFacts Agree Walk Trace Paths Inv Good Files.

Lemma height_assoc (x : string) (c : node) (es : entries) :
  assoc x es = Some c -> height c < height (Dir es).
Proof. intros H. apply assoc_In in H. now apply height_entry in H. Qed.

Lemma height_lookup (p : path) : forall fs n,
  lookup fs p = Some n -> height n <= height fs.
Proof.
  induction p as [|x p IH]; intros fs n; simpl.
  - intros [= ->]. lia.
  - destruct fs as [|es]; [discriminate|].
    destruct (assoc x es) as [c|] eqn:E; [|discriminate].
    intros H. apply IH in H. apply height_assoc in E. lia.
Qed.


(** Rewriting the directory at [f] keeps every directory that is not
    strictly below [f] a directory. *)
Lemma isdir_at_path (f : path) (h : node -> node) : forall g fs,
  (forall n, is_dir (h n) = true) ->
  (is_prefix f g = true -> f = g) ->
  os_path_isdir fs g = true -> os_path_isdir (at_path f h fs) g = true.
Proof.
  unfold os_path_isdir.
  induction f as [|x f IH]; intros g fs Hh Hfg Hg.
  - rewrite <- (Hfg eq_refl). simpl. specialize (Hh fs). now destruct (h fs).
  - destruct fs as [|es]; [exact Hg|]. destruct g as [|y g]; [reflexivity|].
    cbn [at_path lookup] in *. rewrite assoc_map_entry.
    destruct (y =? x) eqn:E; [|exact Hg].
    apply String.eqb_eq in E. subst y.
    destruct (assoc x es) as [c|]; [|discriminate]. simpl.
    apply IH; [assumption | | assumption].
    intros Hp. assert (x :: f = x :: g); [|congruence].
    apply Hfg. simpl. now rewrite String.eqb_refl.
Qed.

Lemma dict_set_fresh (k v : path) (d : list (path * path)) :
  ~ In k (map fst d) -> dict_set k v d = d ++ [(k, v)].
Proof.
  induction d as [|[k' v'] d IH]; simpl; intros H; [reflexivity|].
  destruct (path_eqb k' k) eqn:E.
  - apply path_eqb_eq in E. tauto.
  - rewrite IH; tauto.
Qed.

(** When no folder is renamed twice, the rename map lists the renames of
    the log, in order. *)
Lemma map_replay (evs : list event) : forall st,
  NoDup (map fst (renamed_folder_map st) ++ map fst (renames evs)) ->
  renamed_folder_map (replay evs st) = renamed_folder_map st ++ renames evs.
Proof.
  induction evs as [|e evs IH]; intros st N; simpl; [now rewrite List.app_nil_r|].
  unfold replay in IH.
  destruct e; try (rewrite IH; [reflexivity | exact N]).
  change (renames (EvFolderRenamed original_path new_path :: evs))
    with ((original_path, new_path) :: renames evs) in *.
  simpl in N. rewrite IH; cbn [renamed_folder_map record].
  - rewrite dict_set_fresh.
    + now rewrite <- List.app_assoc.
    + apply NoDup_remove_2 in N. rewrite in_app_iff in N. tauto.
  - rewrite dict_set_fresh.
    + rewrite map_app, <- List.app_assoc. exact N.
    + apply NoDup_remove_2 in N. rewrite in_app_iff in N. tauto.
Qed.

Lemma map_replay_none (evs : list event) : forall st,
  renames evs = [] -> renamed_folder_map (replay evs st) = renamed_folder_map st.
Proof.
  induction evs as [|e evs IH]; intros st H; simpl; [reflexivity|].
  unfold replay in IH. destruct e; try (now rewrite IH).
Qed.

Section Run.

Variable refuses : path -> path -> bool.

(** Part 1 on the tree found at [base_path]. *)
Theorem rename_folders_spec (fs0 : node) (base_path : path) (n : node) :
  lookup fs0 base_path = Some n -> wf n = true ->
  rename_folders refuses fs0 base_path =
  Ok (with_fs (at_path base_path (fun _ => fst (walk_tree refuses base_path n)) fs0)
              (replay (snd (walk_tree refuses base_path n)) (initial fs0))).
Proof.
  intros Hl Hwf. unfold rename_folders.
  rewrite (walk_folders_agrees refuses n base_path (initial fs0)); try assumption.
  - now destruct (walk_tree refuses base_path n).
  - apply height_lookup in Hl. lia.
Qed.

Lemma scanned_app (a b : list event) : scanned (a ++ b) = scanned a ++ scanned b.
Proof. apply flat_map_app. Qed.

Lemma file_events_plain (folder_path : path) (evs : list event) :
  (forall e, In e evs -> file_event_in folder_path e) ->
  scanned evs = [] /\ roots evs = [] /\ renames evs = [] /\ examined evs = [].
Proof.
  induction evs as [|e evs IH]; intros H; [now repeat split|].
  destruct IH as (I1 & I2 & I3 & I4); [intros; apply H; now right|].
  destruct (H e (or_introl eq_refl)) as [x [-> | [[err ->] | [t [_ ->]]]]];
    unfold scanned, roots, renames, examined in *; simpl; now repeat split.
Qed.

(** Lines 114-139 for a list of folders that are directories, none of
    which lies below another one. *)
Lemma scan_all (F : list path) : forall st,
  (forall f, In f F -> os_path_isdir (fs st) f = true) ->
  (forall f g, In f F -> In g F -> is_prefix f g = true -> f = g) ->
  exists fs' evs,
    for_each (scan_folder refuses) F st = Ok (with_fs fs' (replay evs st)) /\
    scanned evs = F /\ roots evs = [] /\ renames evs = [] /\ examined evs = [] /\
    (forall e, In e evs ->
       exists f, In f F /\ (e = EvScan f \/ file_event_in f e)).
Proof.
  induction F as [|f F IH]; intros st Hd Hp.
  - exists (fs st), []. simpl. rewrite with_fs_same. repeat split. intros e [].
  - cbn [for_each]. unfold scan_folder at 1. unfold os_listdir. cbn [fs emit].
    pose proof (Hd f (or_introl eq_refl)) as Hf. unfold os_path_isdir in Hf.
    destruct (lookup (fs st) f) as [[|es]|] eqn:El; try discriminate.
    rewrite (file_loop_agrees refuses f (names es) es) by exact El.
    destruct (file_loop_local refuses f (names es) es) as [es' evs1] eqn:E1.
    pose proof (file_loop_local_events refuses f _ _ _ _ E1) as Hev.
    assert (Hev' : forall e, In e evs1 -> file_event_in f e).
    { intros e He. destruct (Hev e He) as (x & _ & Hx). now exists x. }
    destruct (file_events_plain f evs1 Hev') as (P1 & P2 & P3 & P4).
    cbn [rbind fs emit].
    set (st1 := with_fs _ _).
    destruct (IH st1) as (fs' & evs2 & R & S1 & S2 & S3 & S4 & S5).
    + intros g Hg. unfold st1. cbn [fs with_fs].
      apply isdir_at_path; [reflexivity | | apply Hd; now right].
      intros Hfg. apply Hp; [now left | now right | assumption].
    + intros a b Ha Hb. apply Hp; now right.
    + exists fs', (EvScan f :: evs1 ++ evs2). rewrite R. unfold st1.
      rewrite replay_with_fs, with_fs_idem.
      change (EvScan f :: evs1 ++ evs2) with ([EvScan f] ++ evs1 ++ evs2).
      rewrite !replay_app. split; [reflexivity|].
      rewrite !scanned_app, !roots_app, !renames_app, !examined_app.
      rewrite P1, P2, P3, P4, S1, S2, S3, S4. repeat split.
      intros e He. apply in_app_iff in He as [[<-|[]]|He].
      * exists f. split; [now left | now left].
      * apply in_app_iff in He as [He|He].
        -- exists f. split; [now left | right; now apply Hev'].
        -- destruct (S5 e He) as (g & Hg & Hcase). exists g. split; [now right | exact Hcase].
Qed.

End Run.

End Run.


Module Whole.
Import FS Script Names Spec Tree FSFacts StrFacts PatFacts Agree Walk Trace Paths Inv Good Files Run.

Lemma is_prefix_snoc (p q : path) (x : string) :
  is_prefix p (q ++ [x]) = true -> p = q ++ [x] \/ is_prefix p q = true.
Proof.
  rewrite !is_prefix_spec. intros [r E].
  destruct r as [|y r] using rev_ind.
  - left. now rewrite List.app_nil_r in E.
  - right. rewrite List.app_assoc in E. apply app_inj_tail in E as [-> _]. eauto.
Qed.

Lemma log_initial_replay (fs0 fs' : node) (evs : list event) :
  log (with_fs fs' (replay evs (initial fs0))) = evs.
Proof. cbn [log with_fs]. now rewrite log_replay. Qed.

Section Whole.

Variable refuses : path -> path -> bool.

(** Lines 57-60. *)
Lemma detect_base_spec (fs0 : node) (temp_dir : path) (t : node) :
  lookup fs0 temp_dir = Some t -> is_dir t = true -> wf t = true ->
  exists base_path n,
    detect_base fs0 temp_dir = Ok base_path /\
    lookup fs0 base_path = Some n /\ is_dir n = true /\ wf n = true /\
    is_prefix temp_dir base_path = true.
Proof.
  intros Hl Hd Hwf. destruct t as [|es]; [discriminate|].
  unfold detect_base, os_listdir. rewrite Hl.
  assert (Hself : exists base_path n,
    Ok temp_dir = Ok base_path /\ lookup fs0 base_path = Some n /\
    is_dir n = true /\ wf n = true /\ is_prefix temp_dir base_path = true).
  { exists temp_dir, (Dir es). repeat split; try assumption. apply is_prefix_refl. }
  destruct (names es) as [|x [|y l]]; try exact Hself.
  unfold os_path_isdir. rewrite (lookup_snoc _ _ _ _ Hl).
  destruct (assoc x es) as [[|es']|] eqn:E; try exact Hself.
  exists (temp_dir ++ [x]), (Dir es'). split; [reflexivity|].
  split; [now rewrite (lookup_snoc _ _ _ _ Hl)|]. split; [reflexivity|].
  split; [|apply is_prefix_app].
  apply wf_Dir in Hwf as [_ Hwf]. exact (Hwf _ _ (assoc_In _ _ _ E)).
Qed.

(** After Part 1 every new folder is a directory. *)
Lemma renamed_isdir (fs0 : node) (base_path : path) (n : node) (o nw : path) :
  lookup fs0 base_path = Some n -> wf n = true ->
  In (o, nw) (renames (snd (walk_tree refuses base_path n))) ->
  os_path_isdir
    (at_path base_path (fun _ => fst (walk_tree refuses base_path n)) fs0) nw = true /\
  lookup (at_path base_path (fun _ => fst (walk_tree refuses base_path n)) fs0) nw
    = lookup fs0 o /\
  lookup (at_path base_path (fun _ => fst (walk_tree refuses base_path n)) fs0) o = None.
Proof.
  intros Hl Hwf Hin. apply renames_In in Hin.
  destruct (walk_tree_good refuses n base_path Hwf) as (_ & _ & _ & _ & G5).
  destruct (G5 _ _ Hin) as (r & d & b & -> & -> & _ & _ & _ & _ & [es Hes] & H1 & H2).
  unfold os_path_isdir. rewrite !lookup_app.
  rewrite (lookup_at_path_same _ _ _ _ Hl), Hl, H1, H2, Hes. now repeat split.
Qed.

(** No new folder lies below another new folder. *)
Lemma renamed_independent (base_path : path) (n : node) (o1 n1 o2 n2 : path) :
  wf n = true ->
  In (o1, n1) (renames (snd (walk_tree refuses base_path n))) ->
  In (o2, n2) (renames (snd (walk_tree refuses base_path n))) ->
  is_prefix n1 n2 = true -> n1 = n2.
Proof.
  intros Hwf H1 H2 Hp. apply renames_In in H1, H2.
  destruct (walk_tree_good refuses n base_path Hwf) as (_ & _ & _ & _ & G5).
  destruct (G5 _ _ H1) as (r1 & d1 & b1 & _ & E1 & _ & _ & _ & Hno & _).
  destruct (G5 _ _ H2) as (r2 & d2 & b2 & _ & E2 & _ & _ & Hr2 & _).
  rewrite E2, List.app_assoc in Hp. apply is_prefix_snoc in Hp as [Hp|Hp].
  - now rewrite E2, List.app_assoc.
  - destruct (Hno _ Hr2) as [_ Hno2]. congruence.
Qed.

(** Lines 57-141 on a well-formed tree: both parts run to their end; the
    log is the log of Part 1 followed by the log of Part 2. *)
Theorem rename_all_spec (fs0 : node) (temp_dir : path) (t : node) :
  lookup fs0 temp_dir = Some t -> is_dir t = true -> wf t = true ->
  exists base_path n fs' evsB,
    detect_base fs0 temp_dir = Ok base_path /\
    lookup fs0 base_path = Some n /\ wf n = true /\
    rename_all refuses fs0 temp_dir =
      Ok (with_fs fs' (replay (snd (walk_tree refuses base_path n) ++ evsB) (initial fs0))) /\
    renamed_folder_map
      (with_fs fs' (replay (snd (walk_tree refuses base_path n) ++ evsB) (initial fs0)))
      = renames (snd (walk_tree refuses base_path n)) /\
    scanned evsB = map snd (renames (snd (walk_tree refuses base_path n))) /\
    roots evsB = [] /\ renames evsB = [] /\ examined evsB = [] /\
    (forall e, In e evsB ->
       e = EvNoFolders \/
       exists f, In f (map snd (renames (snd (walk_tree refuses base_path n)))) /\
                 (e = EvScan f \/ file_event_in f e)).
Proof.
  intros Hl Hd Hwf.
  destruct (detect_base_spec fs0 temp_dir t Hl Hd Hwf) as (base & n & Hb & Hn & _ & Hwfn & _).
  exists base, n. unfold rename_all. rewrite Hb. cbn [rbind].
  rewrite (rename_folders_spec refuses fs0 base n Hn Hwfn). cbn [rbind].
  set (evsA := snd (walk_tree refuses base n)).
  set (fsA := at_path base (fun _ => fst (walk_tree refuses base n)) fs0).
  set (stA := with_fs fsA (replay evsA (initial fs0))).
  destruct (walk_tree_good refuses n base Hwfn) as (_ & _ & G3 & _).
  assert (HmapA0 : renamed_folder_map (replay evsA (initial fs0)) = renames evsA).
  { now rewrite map_replay. }
  assert (HmapA : renamed_folder_map stA = renames evsA) by exact HmapA0.
  unfold rename_files. unfold dict_values. rewrite HmapA.
  set (F := map snd (renames evsA)).
  assert (HF1 : forall st, fs st = fsA -> forall f, In f F -> os_path_isdir (fs st) f = true).
  { intros st -> f Hf. apply in_map_iff in Hf as [[o nw] [<- Hin]].
    now apply (renamed_isdir fs0 base n o nw). }
  assert (HF2 : forall f g, In f F -> In g F -> is_prefix f g = true -> f = g).
  { intros f g Hf Hg. apply in_map_iff in Hf as [[o1 n1] [<- H1]].
    apply in_map_iff in Hg as [[o2 n2] [<- H2]].
    now apply (renamed_independent base n o1 n1 o2 n2). }
  destruct F as [|f0 F0] eqn:EF.
  - exists fsA, [EvNoFolders]. simpl.
    split; [reflexivity|]. split; [assumption|]. split; [assumption|].
    split.
    { f_equal. unfold stA. rewrite replay_app. reflexivity. }
    split.
    { cbn [renamed_folder_map with_fs].
      rewrite replay_app, map_replay_none by reflexivity. exact HmapA0. }
    repeat split. intros e [<-|[]]. now left.
  - rewrite <- EF in *.
    destruct (scan_all refuses F stA (HF1 stA eq_refl) HF2)
      as (fs' & evsB & R & S1 & S2 & S3 & S4 & S5).
    exists fs', evsB.
    split; [reflexivity|]. split; [assumption|]. split; [assumption|].
    split.
    { rewrite R. unfold stA. now rewrite replay_with_fs, with_fs_idem, replay_app. }
    split.
    { cbn [renamed_folder_map with_fs]. rewrite replay_app, map_replay_none by assumption.
      exact HmapA0. }
    repeat split; try assumption. intros e He. right. now apply S5.
Qed.

End Whole.

End Whole.


(* ================================================================= *)
(** ** One outcome for every folder examined *)

Module Outcome.
Import FS Script Names Spec Tree FSFacts StrFacts PatFacts Agree Walk Trace Paths Inv Good.

Lemma outcomes_app (a b : list event) : outcomes (a ++ b) = outcomes a ++ outcomes b.
Proof. apply flat_map_app. Qed.

(** In a list of reports without a repetition, one report comes from one
    place only. *)
Lemma NoDup_flat_map_unique {A B : Type} (f : A -> list B) (l : list A) :
  NoDup (flat_map f l) ->
  forall x y p, In x l -> In y l -> In p (f x) -> In p (f y) -> x = y.
Proof.
  induction l as [|a l IH]; simpl; intros N x y p Hx Hy Hpx Hpy; [contradiction|].
  assert (Nl : NoDup (flat_map f l)) by (apply NoDup_app_remove_l in N; exact N).
  assert (Hcross : forall z, In z l -> In p (f a) -> In p (f z) -> False).
  { intros z Hz Ha Hzp. clear IH.
    induction (f a) as [|q fa IHfa]; [contradiction|].
    simpl in N. inversion N as [|? ? N1 N2]; subst.
    destruct Ha as [-> | Ha].
    - apply N1, in_app_iff. right. apply in_flat_map. eauto.
    - now apply IHfa. }
  destruct Hx as [<- | Hx], Hy as [<- | Hy].
  - reflexivity.
  - exfalso. eauto.
  - exfalso. eauto.
  - eauto.
Qed.

Section Outcome.

Variable refuses : path -> path -> bool.

Lemma folder_loop_local_outcomes (root : path) (todo : list string) :
  forall dirs es es' dirs' evs,
  NoDup todo ->
  folder_loop_local refuses root todo dirs es = (es', dirs', evs) ->
  NoDup (outcomes evs) /\
  (forall p, In p (outcomes evs) -> exists d, In d todo /\ p = root ++ [d]) /\
  Forall part1_event evs.
Proof.
  induction todo as [|d todo IH]; intros dirs es es' dirs' evs Nt; simpl.
  - intros [= <- <- <-]. repeat split; [constructor | intros p [] | constructor].
  - inversion Nt as [|? ? Nt1 Nt2]; subst.
    assert (Hgen : forall es1 dirs1 evs1,
      (outcomes evs1 = [] \/ outcomes evs1 = [root ++ [d]]) ->
      Forall part1_event evs1 ->
      (let '(es2, dirs2, evs2) := folder_loop_local refuses root todo dirs1 es1 in
       (es2, dirs2, EvDir root d :: evs1 ++ evs2)) = (es', dirs', evs) ->
      NoDup (outcomes evs) /\
      (forall p, In p (outcomes evs) -> exists d0, (d = d0 \/ In d0 todo) /\ p = root ++ [d0]) /\
      Forall part1_event evs).
    { intros es1 dirs1 evs1 O1 P1.
      destruct (folder_loop_local refuses root todo dirs1 es1) as [[es2 dirs2] evs2] eqn:E.
      intros [= <- <- <-]. destruct (IH _ _ _ _ _ Nt2 E) as (I1 & I2 & I3).
      change (EvDir root d :: evs1 ++ evs2) with ([EvDir root d] ++ evs1 ++ evs2).
      rewrite !outcomes_app. simpl.
      split; [|split].
      - destruct O1 as [-> | ->]; simpl; [assumption|].
        constructor; [|assumption]. intros Hin.
        destruct (I2 _ Hin) as (d0 & Hd0 & E0). apply app_inj_tail in E0 as [_ <-]. tauto.
      - intros p Hp. apply in_app_iff in Hp as [Hp|Hp].
        + destruct O1 as [O1 | O1]; rewrite O1 in Hp; [destruct Hp|].
          destruct Hp as [<- | []]. exists d. split; [now left | reflexivity].
        + destruct (I2 _ Hp) as (d0 & Hd0 & E0). exists d0. split; [now right | exact E0].
      - constructor; [exact I|]. apply Forall_app. now split. }
    destruct (folder_new_name d) as [b|] eqn:Eb; [|apply Hgen; [now left | constructor]].
    assert (Hshape : exists r d0 b0, root ++ [d] = r ++ [d0] /\ root ++ [b] = r ++ [b0] /\
                                     folder_new_name d0 = Some b0)
      by (exists root, d, b; now repeat split).
    assert (Hshape' : exists r d0 b0, root ++ [d] = r ++ [d0] /\ folder_new_name d0 = Some b0)
      by (exists root, d, b; now repeat split).
    destruct (assoc b es); [apply Hgen; [now right | now repeat constructor]|].
    destruct (rename_local refuses root d b es);
      [apply Hgen; [now right | now repeat constructor]|].
    destruct (list_remove d dirs); apply Hgen;
      solve [now right | now repeat constructor].
Qed.

Lemma walk_children_forall (P : event -> Prop)
    (sub : list (string * (node * list event))) :
  Forall (fun r => Forall P (snd (snd r))) sub ->
  forall ds es, Forall P (snd (walk_children sub ds es)).
Proof.
  intros Hsub. induction ds as [|d ds IH]; intros es; simpl; [constructor|].
  destruct (find (fun r => fst r =? d) sub) as [[k [c' evs]]|] eqn:Ef; [|apply IH].
  apply find_some in Ef as [Hin _]. rewrite Forall_forall in Hsub.
  specialize (Hsub _ Hin). simpl in Hsub. specialize (IH (map_entry d (fun _ => c') es)).
  destruct (walk_children sub ds _) as [es' evs']. simpl in *.
  apply Forall_app. now split.
Qed.

(** Part 1 logs events of Part 1 only, each about an entry [r/d] and, for a
    rename or a collision, the path [r/b] with [b] the new name of [d]. *)
Theorem walk_tree_part1 (n : node) :
  forall top, Forall part1_event (snd (walk_tree refuses top n)).
Proof.
  induction n as [data | es IH] using node_induction; intros top; [constructor|].
  cbn [walk_tree].
  destruct (folder_loop_local refuses top (dir_names es) (dir_names es) es)
    as [[es1 dirs1] evs1] eqn:E1.
  assert (P1 : Forall part1_event evs1).
  { clear IH. revert E1. generalize (dir_names es) at 2. generalize (dir_names es).
    intros todo. revert es es1 dirs1 evs1.
    induction todo as [|d todo IHt]; intros es es1 dirs1 evs1 dirs; simpl.
    - intros [= <- <- <-]. constructor.
    - assert (Hgen : forall es0 dirs0 evs0, Forall part1_event evs0 ->
        (let '(es2, dirs2, evs2) := folder_loop_local refuses top todo dirs0 es0 in
         (es2, dirs2, EvDir top d :: evs0 ++ evs2)) = (es1, dirs1, evs1) ->
        Forall part1_event evs1).
      { intros es0 dirs0 evs0 P0.
        destruct (folder_loop_local refuses top todo dirs0 es0) as [[es2 dirs2] evs2] eqn:E.
        intros [= <- <- <-]. constructor; [exact I|]. apply Forall_app. split; [assumption|].
        exact (IHt _ _ _ _ _ E). }
      destruct (folder_new_name d) as [b|] eqn:Eb; [|apply Hgen; constructor].
      assert (Hshape : exists r d0 b0, top ++ [d] = r ++ [d0] /\ top ++ [b] = r ++ [b0] /\
                                       folder_new_name d0 = Some b0)
        by (exists top, d, b; now repeat split).
      assert (Hshape' : exists r d0 b0, top ++ [d] = r ++ [d0] /\ folder_new_name d0 = Some b0)
        by (exists top, d, b; now repeat split).
      destruct (assoc b es); [apply Hgen; now repeat constructor|].
      destruct (rename_local refuses top d b es); [apply Hgen; now repeat constructor|].
      destruct (list_remove d dirs); apply Hgen; now repeat constructor. }
  pose proof (walk_children_forall part1_event
    (map (fun e => (fst e, walk_tree refuses (top ++ [fst e]) (snd e))) es)) as Hc.
  assert (Hsub : Forall (fun r : string * (node * list event) =>
                           Forall part1_event (snd (snd r)))
            (map (fun e => (fst e, walk_tree refuses (top ++ [fst e]) (snd e))) es)).
  { apply Forall_forall. intros r Hr. apply in_map_iff in Hr as (e & <- & He).
    rewrite Forall_forall in IH. exact (IH e He (top ++ [fst e])). }
  specialize (Hc Hsub dirs1 es1).
  destruct (walk_children _ dirs1 es1) as [es2 evs2]. simpl in *.
  constructor; [exact I|]. apply Forall_app. now split.
Qed.

(** No folder has two outcomes, and a folder with an outcome was examined. *)
Theorem walk_tree_outcomes (n : node) :
  forall top, wf n = true ->
  NoDup (outcomes (snd (walk_tree refuses top n))) /\
  (forall p, In p (outcomes (snd (walk_tree refuses top n))) ->
             In p (examined (snd (walk_tree refuses top n)))).
Proof.
  induction n as [data | es IH] using node_induction; intros top Hwf.
  - simpl. split; [constructor | intros p []].
  - pose proof (proj1 (wf_Dir es) Hwf) as [Hnd Hwfc].
    assert (Nd : NoDup (dir_names es)) by now apply NoDup_filter_map.
    assert (Hp : forall x, In x (dir_names es) -> assoc x es <> None).
    { intros x Hx. apply dir_names_spec in Hx as [es' Hx].
      now rewrite (In_assoc _ _ _ Hnd Hx). }
    cbn [walk_tree].
    destruct (folder_loop_local refuses top (dir_names es) (dir_names es) es)
      as [[es1 dirs1] evs1] eqn:E1.
    destruct (folder_loop_local_frame _ _ _ _ _ _ _ _ Nd Hp E1) as (R1 & R2 & R3).
    destruct (folder_loop_local_events _ _ _ _ _ _ _ _ E1) as (V1 & V2).
    destruct (folder_loop_local_outcomes _ _ _ _ _ _ _ Nd E1) as (O1 & O2 & _).
    destruct (walk_children _ dirs1 es1) as [es2 evs2] eqn:E2.
    assert (Hp1 : forall d, In d dirs1 -> assoc d es <> None)
      by (intros d Hd; apply Hp, R2, Hd).
    destruct (walk_children_spec refuses top es _ _ _ _ R1 Hp1 E2) as (C1 & _ & _).
    cbn [fst snd].
    assert (HC : forall d, In d dirs1 ->
      NoDup (outcomes (child_events refuses top es d)) /\
      (forall p, In p (outcomes (child_events refuses top es d)) ->
                 In p (examined (child_events refuses top es d))) /\
      (forall r, In r (roots (child_events refuses top es d)) ->
                 is_prefix (top ++ [d]) r = true)).
    { intros d Hd. destruct (assoc d es) as [c|] eqn:Ec; [|now destruct (Hp1 d Hd)].
      unfold child_events. rewrite Ec.
      pose proof (assoc_In _ _ _ Ec) as Hin. rewrite Forall_forall in IH.
      pose proof (Hwfc _ _ Hin) as Hwc.
      destruct (IH _ Hin (top ++ [d]) Hwc) as [I1 I2].
      destruct (walk_tree_good refuses c (top ++ [d]) Hwc) as (G1 & _).
      now repeat split. }
    change (EvWalk top :: evs1 ++ evs2) with ([EvWalk top] ++ evs1 ++ evs2).
    rewrite !outcomes_app, !examined_app, C1. simpl. split.
    + unfold outcomes at 2. rewrite flat_map_flat_map. apply (NoDup_levels top).
      * assumption.
      * intros p Hp'. destruct (O2 _ Hp') as (d & _ & ->). eauto.
      * assumption.
      * intros d Hd. now destruct (HC d Hd).
      * intros d p Hd Hp'. destruct (HC d Hd) as (_ & H2 & H3).
        apply H2, examined_root in Hp' as (r & x & -> & Hr). specialize (H3 _ Hr).
        apply is_prefix_spec in H3 as [q ->]. exists q, x. now rewrite <- !List.app_assoc.
    + intros p Hp'. apply in_app_iff in Hp' as [Hp'|Hp']; apply in_app_iff.
      * left. rewrite V2. destruct (O2 _ Hp') as (d & Hd & ->).
        apply in_map_iff. now exists d.
      * right. unfold outcomes in Hp'. rewrite flat_map_flat_map in Hp'.
        apply in_flat_map in Hp' as [d [Hd Hp']]. destruct (HC d Hd) as (_ & H2 & _).
        unfold examined. rewrite flat_map_flat_map. apply in_flat_map.
        exists d. split; [assumption | now apply H2].
Qed.

End Outcome.

End Outcome.


(* ================================================================= *)
(** ** One turn of each loop *)

Module Steps.
Import FS Script Names Spec Tree FSFacts StrFacts PatFacts Agree Walk Trace Paths Inv Good Files.

Section Steps.

Variable refuses : path -> path -> bool.

(** Lines 85-102 for the first [dir_name] of [list(dirs)], in terms of the
    new name that lines 86-90 compute. *)
Lemma folder_loop_step (root : path) (dir_name : string) (todo dirs : list string)
    (st : state) :
  folder_loop refuses root (dir_name :: todo) dirs st =
  let st1 := emit (EvDir root dir_name) st in
  let original_path := root ++ [dir_name] in
  match folder_new_name dir_name with
  | None => folder_loop refuses root todo dirs st1
  | Some new_name =>
      let new_path := root ++ [new_name] in
      if os_path_exists (fs st) new_path then
        folder_loop refuses root todo dirs (emit (EvFolderCollision original_path new_path) st1)
      else
        match shutil_move refuses (fs st) original_path new_path with
        | inr fs' =>
            let st2 :=
              mkState fs' (S (folders_renamed_count st))
                      (dict_set original_path new_path (renamed_folder_map st))
                      (files_renamed_count st)
                      (log st1 ++ [EvFolderRenamed original_path new_path]) in
            match list_remove dir_name dirs with
            | Some dirs' => folder_loop refuses root todo dirs' st2
            | None =>
                folder_loop refuses root todo dirs
                  (emit (EvFolderFailed original_path ValueError) st2)
            end
        | inl e =>
            folder_loop refuses root todo dirs
              (emit (EvFolderFailed original_path (OSError e)) st1)
        end
  end.
Proof.
  cbn [folder_loop]. unfold folder_new_name.
  destruct (PyStr.startswith (PyStr.upper dir_name) "AC"); [|reflexivity].
  destruct (PyStr.findall_digits dir_name) as [|number l] eqn:E; [reflexivity|].
  destruct (first_run_int _ _ _ E) as [n ->]. reflexivity.
Qed.

(** Lines 118-139 for the first [filename] of the listing, in terms of the
    new name that lines 119-127 compute. *)
Lemma file_loop_step (folder_path : path) (filename : string) (todo : list string)
    (st : state) :
  file_loop refuses folder_path (filename :: todo) st =
  if PyStr.endswith (PyStr.lower filename) ".pdf" then
    match pdf_new_name filename with
    | Some new_filename =>
        let old_file_path := folder_path ++ [filename] in
        let new_file_path := folder_path ++ [new_filename] in
        match os_rename refuses (fs st) old_file_path new_file_path with
        | inr fs' =>
            file_loop refuses folder_path todo
              (mkState fs' (folders_renamed_count st) (renamed_folder_map st)
                       (S (files_renamed_count st))
                       (log st ++ [EvFileRenamed old_file_path new_file_path]))
        | inl e =>
            file_loop refuses folder_path todo
              (emit (EvFileFailed old_file_path (OSError e)) st)
        end
    | None =>
        file_loop refuses folder_path todo
          (emit (EvFileSkipped (folder_path ++ [filename])) st)
    end
  else file_loop refuses folder_path todo st.
Proof.
  cbn [file_loop]. unfold pdf_new_name.
  destruct (PyStr.endswith (PyStr.lower filename) ".pdf") eqn:Hend; [|reflexivity].
  destruct (Pattern.re_match_pdf filename) as [[[g1 g2] g3]|] eqn:Hm; [|reflexivity].
  destruct (pdf_groups_int _ _ _ _ Hend Hm) as (n & m & -> & ->). reflexivity.
Qed.

(** The body removes from [dirs] only names it renames. *)
Lemma folder_loop_local_keeps (root : path) (todo : list string) (x : string) :
  forall dirs es es' dirs' evs,
  NoDup dirs -> folder_new_name x = None -> In x dirs ->
  folder_loop_local refuses root todo dirs es = (es', dirs', evs) ->
  In x dirs'.
Proof.
  induction todo as [|d todo IH]; intros dirs es es' dirs' evs N Hx Hin; simpl.
  - now intros [= <- <- <-].
  - assert (Hsame : forall es1 evs1 X,
      (let '(es2, dirs2, evs2) := folder_loop_local refuses root todo dirs es1 in
       (es2, dirs2, X :: evs1 ++ evs2)) = (es', dirs', evs) -> In x dirs').
    { intros es1 evs1 X.
      destruct (folder_loop_local refuses root todo dirs es1) as [[es2 dirs2] evs2] eqn:E.
      intros [= <- <- <-]. exact (IH _ _ _ _ _ N Hx Hin E). }
    destruct (folder_new_name d) as [b|] eqn:Eb; [|apply Hsame].
    destruct (assoc b es); [apply Hsame|].
    destruct (rename_local refuses root d b es) as [e|es1]; [apply Hsame|].
    destruct (list_remove d dirs) as [dirs1|] eqn:El; [|apply Hsame].
    destruct (list_remove_spec _ _ _ N El) as (N1 & _ & I1).
    destruct (folder_loop_local refuses root todo dirs1 es1) as [[es2 dirs2] evs2] eqn:E.
    intros [= <- <- <-]. apply (IH _ _ _ _ _ N1 Hx) in E; [assumption|].
    apply I1. split; [assumption|]. intros ->. congruence.
Qed.

(** The new path of a renamed folder is not a path that lines 85-102 examine. *)
Theorem walk_tree_fresh (n : node) :
  forall top, wf n = true ->
  forall o nw, In (EvFolderRenamed o nw) (snd (walk_tree refuses top n)) ->
  ~ In nw (examined (snd (walk_tree refuses top n))).
Proof.
  induction n as [data | es IH] using node_induction; intros top Hwf o nw; [intros []|].
  pose proof (proj1 (wf_Dir es) Hwf) as [Hnd Hwfc].
  assert (Nd : NoDup (dir_names es)) by now apply NoDup_filter_map.
  assert (Hp : forall x, In x (dir_names es) -> assoc x es <> None).
  { intros x Hx. apply dir_names_spec in Hx as [es' Hx].
    now rewrite (In_assoc _ _ _ Hnd Hx). }
  cbn [walk_tree].
  destruct (folder_loop_local refuses top (dir_names es) (dir_names es) es)
    as [[es1 dirs1] evs1] eqn:E1.
  destruct (folder_loop_local_frame _ _ _ _ _ _ _ _ Nd Hp E1) as (R1 & R2 & R3).
  destruct (folder_loop_local_events _ _ _ _ _ _ _ _ E1) as (V1 & V2).
  destruct (folder_loop_local_renames _ _ _ _ _ _ _ _ Nd Nd Hp E1) as (Q1 & Q2).
  destruct (walk_children _ dirs1 es1) as [es2 evs2] eqn:E2.
  assert (Hp1 : forall d, In d dirs1 -> assoc d es <> None)
    by (intros d Hd; apply Hp, R2, Hd).
  destruct (walk_children_spec refuses top es _ _ _ _ R1 Hp1 E2) as (C1 & _ & _).
  cbn [fst snd].
  assert (HC : forall d, In d dirs1 -> exists c, assoc d es = Some c /\ wf c = true /\
    (forall o nw, In (EvFolderRenamed o nw) (child_events refuses top es d) ->
                  ~ In nw (examined (child_events refuses top es d))) /\
    good refuses (top ++ [d]) c (fst (walk_tree refuses (top ++ [d]) c))
         (child_events refuses top es d)).
  { intros d Hd. destruct (assoc d es) as [c|] eqn:Ec; [|now destruct (Hp1 d Hd)].
    exists c. split; [reflexivity|]. unfold child_events. rewrite Ec.
    pose proof (assoc_In _ _ _ Ec) as Hin. rewrite Forall_forall in IH.
    pose proof (Hwfc _ _ Hin) as Hwc.
    split; [assumption|]. split; [exact (IH _ Hin (top ++ [d]) Hwc)|].
    now apply walk_tree_good. }
  assert (HX : forall d p, In d dirs1 -> In p (examined (child_events refuses top es d)) ->
                           exists q x, p = top ++ d :: q ++ [x]).
  { intros d p Hd Hp'. destruct (HC d Hd) as (c & _ & _ & _ & G1 & _).
    apply examined_root in Hp' as (r & x & -> & Hr). specialize (G1 _ Hr).
    apply is_prefix_spec in G1 as [q ->]. exists q, x. now rewrite <- !List.app_assoc. }
  change (EvWalk top :: evs1 ++ evs2) with ([EvWalk top] ++ evs1 ++ evs2).
  rewrite !examined_app, V2, C1. simpl.
  intros [Hin|Hin]; [discriminate|]. apply in_app_iff in Hin as [Hin|Hin].
  - destruct (Q2 _ _ Hin) as (d & b & -> & -> & Hd & Hb & _ & Hb1 & _).
    intros Hex. apply in_app_iff in Hex as [Hex|Hex].
    + apply in_map_iff in Hex as [x [E Hx]]. apply app_inv_head in E. injection E as ->.
      apply Hb1. apply (folder_loop_local_keeps top _ b _ _ _ _ _ Nd (new_name_final _ _ Hb) Hx E1).
    + unfold examined in Hex. rewrite flat_map_flat_map in Hex.
      apply in_flat_map in Hex as [d' [Hd' Hex]].
      destruct (HX _ _ Hd' Hex) as (q & x & E). apply app_inv_head in E.
      destruct q; simpl in E; discriminate.
  - apply in_flat_map in Hin as [d' [Hd' Hin]].
    destruct (HC d' Hd') as (c & _ & _ & Hfresh & _ & _ & _ & _ & G5).
    destruct (G5 _ _ Hin) as (r & d & b & Eo & En & _).
    intros Hex. apply in_app_iff in Hex as [Hex|Hex].
    + apply in_map_iff in Hex as [x [E Hx]]. rewrite En, <- !List.app_assoc in E.
      apply app_inv_head in E. destruct r; simpl in E; discriminate.
    + unfold examined in Hex. rewrite flat_map_flat_map in Hex.
      apply in_flat_map in Hex as [d'' [Hd'' Hex]].
      destruct (HX _ _ Hd'' Hex) as (q & x & E).
      assert (d'' = d').
      { rewrite En, <- !List.app_assoc in E. apply app_inv_head in E.
        simpl in E. congruence. }
      subst d''. exact (Hfresh _ _ Hin Hex).
Qed.

End Steps.

End Steps.


(* ================================================================= *)
(** ** What a whole run logs *)

Module Logs.
Import FS Script Names Spec Tree FSFacts StrFacts PatFacts Agree Walk Trace Paths Inv Good
       Files Run Whole Outcome Steps.

Lemma file_event_in_file_event (f : path) (e : event) : file_event_in f e -> file_event e.
Proof. intros [x [-> | [[err ->] | [t [_ ->]]]]]; exact I. Qed.

Lemma part1_not_file (e : event) : part1_event e -> file_event e -> False.
Proof. destruct e; simpl; tauto. Qed.

Lemma flat_map_nil {A B : Type} (f : A -> list B) (l : list A) :
  (forall x, In x l -> f x = []) -> flat_map f l = [].
Proof.
  induction l as [|a l IH]; simpl; intros H; [reflexivity|].
  rewrite (H a (or_introl eq_refl)), IH; [reflexivity|]. intros x Hx. apply H. now right.
Qed.

Lemma outcomes_none (evs : list event) :
  (forall e, In e evs -> e = EvNoFolders \/
     exists f, e = EvScan f \/ file_event_in f e) ->
  forall e, In e evs -> outcome_of e = [].
Proof.
  intros H e He. destruct (H e He) as [-> | [f [-> | Hf]]]; try reflexivity.
  apply file_event_in_file_event in Hf. destruct e; simpl in Hf; tauto || reflexivity.
Qed.

(** The name of a renamed folder is not the name of a folder the rule
    applies to. *)
Lemma new_path_not_old (r r' : path) (d b d' b' : string) :
  folder_new_name d = Some b -> folder_new_name d' = Some b' -> r ++ [d] <> r' ++ [b'].
Proof.
  intros Hd Hd' E. apply app_inj_tail in E as [_ ->].
  apply new_name_final in Hd'. congruence.
Qed.

Section Logs.

Variable refuses : path -> path -> bool.

(** Part 1 on a well-formed tree, with the facts about its log. *)
Lemma rename_folders_log (fs0 : node) (base_path : path) (n : node) :
  lookup fs0 base_path = Some n -> wf n = true ->
  exists st,
    rename_folders refuses fs0 base_path = Ok st /\
    fs st = at_path base_path (fun _ => fst (walk_tree refuses base_path n)) fs0 /\
    log st = snd (walk_tree refuses base_path n) /\
    renamed_folder_map st = renames (log st).
Proof.
  intros Hl Hwf. eexists. split; [exact (rename_folders_spec refuses fs0 base_path n Hl Hwf)|].
  split; [reflexivity|]. split; [apply log_initial_replay|].
  rewrite log_initial_replay. cbn [renamed_folder_map with_fs].
  destruct (walk_tree_good refuses n base_path Hwf) as (_ & _ & G3 & _).
  now rewrite map_replay.
Qed.

(** Both parts on a well-formed tree, with the facts about the log. *)
Lemma rename_all_log (fs0 : node) (temp_dir : path) (t : node) :
  lookup fs0 temp_dir = Some t -> is_dir t = true -> wf t = true ->
  exists st evsA evsB,
    rename_all refuses fs0 temp_dir = Ok st /\
    log st = evsA ++ evsB /\
    renamed_folder_map st = renames evsA /\
    renames (log st) = renames evsA /\
    scanned (log st) = map snd (renames evsA) /\
    NoDup (outcomes (log st)) /\
    Forall part1_event evsA /\
    (forall e, In e evsB -> e = EvNoFolders \/
       exists f, In f (map snd (renames evsA)) /\ (e = EvScan f \/ file_event_in f e)).
Proof.
  intros Hl Hd Hwf.
  destruct (rename_all_spec refuses fs0 temp_dir t Hl Hd Hwf)
    as (base & n & fs' & evsB & _ & Hn & Hwfn & Hrun & Hmap & Hscan & _ & Hren & _ & Hev).
  set (evsA := snd (walk_tree refuses base n)) in *.
  exists (with_fs fs' (replay (evsA ++ evsB) (initial fs0))), evsA, evsB.
  rewrite log_initial_replay.
  split; [exact Hrun|]. split; [reflexivity|]. split; [exact Hmap|].
  split; [now rewrite renames_app, Hren, List.app_nil_r|].
  assert (HevA : Forall part1_event evsA) by apply walk_tree_part1.
  assert (HscanA : scanned evsA = []).
  { unfold scanned. clear -HevA. induction HevA as [|e l He _ IH]; [reflexivity|].
    simpl. rewrite IH. destruct e; simpl in He; tauto || reflexivity. }
  split; [now rewrite scanned_app, HscanA, Hscan|].
  split; [|split; [exact HevA | exact Hev]].
  rewrite outcomes_app.
  assert (HoB : outcomes evsB = []).
  { apply flat_map_nil. apply outcomes_none. intros e He.
    destruct (Hev e He) as [-> | [f [_ Hf]]]; [now left | right; now exists f]. }
  rewrite HoB, List.app_nil_r. now apply walk_tree_outcomes.
Qed.




End Logs.

End Logs.

(* ================================================================= *)
(** ** More facts about the two rules and the log *)

Module NameFacts.
Import FS Script Names Spec Tree FSFacts StrFacts PatFacts Agree Walk Trace Paths Inv Good
       Files Run Whole Outcome Steps Logs.

Lemma pdf_new_name_guard (filename new_filename : string) :
  pdf_new_name filename = Some new_filename ->
  PyStr.endswith (PyStr.lower filename) ".pdf" = true.
Proof.
  unfold pdf_new_name. now destruct (PyStr.endswith (PyStr.lower filename) ".pdf").
Qed.

(** A folder with one of the three outcomes has no other. *)
Lemma one_outcome (evs : list event) (e1 e2 : event) (o : path) :
  NoDup (outcomes evs) -> In e1 evs -> In e2 evs ->
  outcome_of e1 = [o] -> outcome_of e2 = [o] -> e1 = e2.
Proof.
  intros N H1 H2 O1 O2.
  apply (NoDup_flat_map_unique outcome_of evs N e1 e2 o H1 H2).
  - rewrite O1. now left.
  - rewrite O2. now left.
Qed.

Lemma in_keys (d : list (path * path)) (o : path) :
  In o (map fst d) -> exists nw, In (o, nw) d.
Proof. intros H. apply in_map_iff in H as [[o' nw] [E H]]. simpl in E. subst. eauto. Qed.

(** The new name of a folder, from the first digit run of its name. *)
Lemma folder_new_name_run (dir_name pre run post : string) :
  dir_name = pre +++ run +++ post ->
  PyStr.startswith (PyStr.upper dir_name) "AC" = true ->
  no_digit pre = true -> PyStr.all_digits run = true -> run <> "" ->
  digit_free_start post = true ->
  exists n, PyStr.int run = Some n /\ PyStr.str n = strip_zeros run /\
            folder_new_name dir_name = Some (strip_zeros run).
Proof.
  intros -> Hac Hpre Hrun Hne Hpost.
  destruct (int_digits run Hrun Hne) as [n Hn]. exists n.
  split; [assumption|]. split; [now apply str_int|].
  unfold folder_new_name. rewrite Hac.
  rewrite (findall_first_run pre run post Hpre Hrun Hne Hpost), Hn. simpl.
  now rewrite (str_int _ _ Hn).
Qed.


Lemma pdf_new_name_no_match (filename : string) :
  Pattern.re_match_pdf filename = None -> pdf_new_name filename = None.
Proof.
  intros H. unfold pdf_new_name. rewrite H.
  now destruct (PyStr.endswith (PyStr.lower filename) ".pdf").
Qed.

(** A new file name ends in [.pdf] and does not match the pattern. *)
Lemma pdf_new_name_final (filename new_filename : string) :
  pdf_new_name filename = Some new_filename ->
  PyStr.endswith (PyStr.lower new_filename) ".pdf" = true /\
  Pattern.re_match_pdf new_filename = None /\
  pdf_new_name new_filename = None.
Proof.
  unfold pdf_new_name at 1.
  destruct (PyStr.endswith (PyStr.lower filename) ".pdf"); [|discriminate].
  destruct (Pattern.re_match_pdf filename) as [[[g1 g2] g3]|] eqn:Hm; [|discriminate].
  destruct (PyStr.int g2) as [n|]; [|discriminate].
  destruct (PyStr.int g3) as [m|]; [|discriminate].
  intros [= <-].
  assert (Hno : Pattern.re_match_pdf
            (PyStr.upper g1 +++ "_" +++ PyStr.str n +++ "_" +++ PyStr.str m +++ ".pdf") = None).
  { apply underscore_no_match. rewrite upper_length.
    exact (re_match_pdf_g1_length _ _ _ _ Hm). }
  assert (Hend : PyStr.endswith
            (PyStr.lower (PyStr.upper g1 +++ "_" +++ PyStr.str n +++ "_" +++ PyStr.str m +++ ".pdf"))
            ".pdf" = true).
  { apply endswith_spec. rewrite !lower_app.
    exists (PyStr.lower (PyStr.upper g1) +++ PyStr.lower "_" +++ PyStr.lower (PyStr.str n)
            +++ PyStr.lower "_" +++ PyStr.lower (PyStr.str m)).
    now rewrite !append_assoc. }
  split; [exact Hend|]. split; [exact Hno|].
  now apply pdf_new_name_no_match.
Qed.

End NameFacts.


(* ================================================================= *)
(** ** The walk of Part 1 and the folders it renames *)

Module WalkClaims.
Import FS Script Names Spec Tree Sample FSFacts StrFacts PatFacts Agree Walk Trace Paths Inv
       Good Files Run Whole Outcome Steps Logs.

Section WalkClaims.

Variable refuses : path -> path -> bool.

(** C7: Part 1 runs to its end on the tree at [base_path]; lines 85-102
    examine no directory twice; and a directory that was renamed was
    examined under its old name, is not examined under its new name, and
    the walk is never in its old path or below it. *)
Theorem renamed_directory_not_processed_again (fs0 : node) (base_path : path) (n : node) :
  lookup fs0 base_path = Some n -> wf n = true ->
  exists st,
    rename_folders refuses fs0 base_path = Ok st /\
    NoDup (examined (log st)) /\
    forall o nw, In (EvFolderRenamed o nw) (log st) ->
      In o (examined (log st)) /\
      ~ In nw (examined (log st)) /\
      (forall r, In r (roots (log st)) -> is_prefix o r = false).
Proof.
  intros Hl Hwf.
  destruct (rename_folders_log refuses fs0 base_path n Hl Hwf) as (st & Hrun & _ & Hlog & _).
  exists st. split; [exact Hrun|]. rewrite Hlog.
  destruct (walk_tree_good refuses n base_path Hwf) as (_ & G2 & _ & _ & G5).
  split; [exact G2|]. intros o nw Hin. split; [|split].
  - apply (walk_tree_outcomes refuses n base_path Hwf).
    unfold outcomes. apply in_flat_map. exists (EvFolderRenamed o nw).
    split; [assumption | now left].
  - exact (walk_tree_fresh refuses n base_path Hwf o nw Hin).
  - intros r Hr. destruct (G5 _ _ Hin) as (r0 & d & b & _ & _ & _ & _ & _ & Hno & _).
    now destruct (Hno r Hr).
Qed.


End WalkClaims.

Lemma renamed_directory_not_processed_again_witness :
  exists st,
    rename_folders locked upload ["tmp"; "wrap"] = Ok st /\
    NoDup (examined (log st)) /\
    forall o nw, In (EvFolderRenamed o nw) (log st) ->
      In o (examined (log st)) /\
      ~ In nw (examined (log st)) /\
      (forall r, In r (roots (log st)) -> is_prefix o r = false).
Proof.
  eapply (renamed_directory_not_processed_again locked upload ["tmp"; "wrap"]);
    reflexivity.
Defined.


(** The walk on the sample upload: [AC002], inside the renamed [AC001], is
    never examined and keeps its name. *)
Example walk_of_upload :
  exists st,
    rename_folders nofail upload ["tmp"; "wrap"] = Ok st /\
    examined (log st) =
      [["tmp"; "wrap"; "AC9"]; ["tmp"; "wrap"; "AC001"]; ["tmp"; "wrap"; "AC010"];
       ["tmp"; "wrap"; "ACx"]; ["tmp"; "wrap"; "ACx"; "AC7"]] /\
    renamed_folder_map st =
      [(["tmp"; "wrap"; "AC9"], ["tmp"; "wrap"; "9"]);
       (["tmp"; "wrap"; "AC001"], ["tmp"; "wrap"; "1"]);
       (["tmp"; "wrap"; "AC010"], ["tmp"; "wrap"; "10"]);
       (["tmp"; "wrap"; "ACx"; "AC7"], ["tmp"; "wrap"; "ACx"; "7"])] /\
    os_path_isdir (fs st) ["tmp"; "wrap"; "1"; "AC002"] = true.
Proof. eexists. split; [reflexivity|]. now vm_compute. Qed.

End WalkClaims.


(* ================================================================= *)
(** ** The rename map, collisions and failures *)

Module RunClaims.
Import FS Script Names Spec Tree Sample FSFacts StrFacts PatFacts Agree Walk Trace Paths Inv
       Good Files Run Whole Outcome Steps Logs NameFacts.

Section RunClaims.

Variable refuses : path -> path -> bool.

(** C3: both parts run to their end; the folders Part 2 scans are the
    values of the rename map, in order; the map has the entry [(o, nw)] if
    and only if the move of [o] to [nw] succeeded (line 97 was reached),
    and then [o] is [r/d] and [nw] is [r/b] with [b] the new name of [d];
    a folder whose name has no new name, a folder skipped for a collision
    and a folder whose move raised are no keys; and every event of lines
    119-139 is about an entry directly in a value of the map. *)
Theorem rename_map_is_scope_of_part_two (fs0 : node) (temp_dir : path) (t : node) :
  lookup fs0 temp_dir = Some t -> is_dir t = true -> wf t = true ->
  exists st,
    rename_all refuses fs0 temp_dir = Ok st /\
    scanned (log st) = dict_values (renamed_folder_map st) /\
    (forall o nw, In (o, nw) (renamed_folder_map st) <-> In (EvFolderRenamed o nw) (log st)) /\
    (forall o nw, In (o, nw) (renamed_folder_map st) ->
       exists r d b, o = r ++ [d] /\ nw = r ++ [b] /\ folder_new_name d = Some b) /\
    (forall r d, folder_new_name d = None ->
       ~ In (r ++ [d]) (map fst (renamed_folder_map st))) /\
    (forall o x, In (EvFolderCollision o x) (log st) ->
       ~ In o (map fst (renamed_folder_map st))) /\
    (forall o e, In (EvFolderFailed o (OSError e)) (log st) ->
       ~ In o (map fst (renamed_folder_map st))) /\
    (forall e, In e (log st) -> file_event e ->
       exists f, In f (dict_values (renamed_folder_map st)) /\ file_event_in f e).
Proof.
  intros Hl Hd Hwf.
  destruct (rename_all_log refuses fs0 temp_dir t Hl Hd Hwf)
    as (st & evsA & evsB & Hrun & Hlog & Hmap & Hren & Hscan & Hnd & HevA & HevB).
  exists st. split; [exact Hrun|]. unfold dict_values. rewrite Hmap.
  assert (Hiff : forall o nw, In (o, nw) (renames evsA) <-> In (EvFolderRenamed o nw) (log st)).
  { intros o nw. rewrite <- Hren. apply renames_In. }
  assert (Hshape : forall o nw, In (o, nw) (renames evsA) ->
            exists r d b, o = r ++ [d] /\ nw = r ++ [b] /\ folder_new_name d = Some b).
  { intros o nw Hin. apply renames_In in Hin. rewrite Forall_forall in HevA.
    exact (HevA _ Hin). }
  split; [exact Hscan|]. split; [exact Hiff|]. split; [exact Hshape|].
  split; [|split; [|split]].
  - intros r d Hnone Hin. apply in_keys in Hin as [nw Hin].
    destruct (Hshape _ _ Hin) as (r' & d' & b & E & _ & Hb).
    apply app_inj_tail in E as [_ ->]. congruence.
  - intros o x Hc Hin. apply in_keys in Hin as [nw Hin]. apply Hiff in Hin.
    pose proof (one_outcome _ _ _ o Hnd Hc Hin eq_refl eq_refl). discriminate.
  - intros o e Hf Hin. apply in_keys in Hin as [nw Hin]. apply Hiff in Hin.
    pose proof (one_outcome _ _ _ o Hnd Hf Hin eq_refl eq_refl). discriminate.
  - intros e He Hfile. rewrite Hlog in He. apply in_app_iff in He as [He|He].
    + rewrite Forall_forall in HevA. destruct (part1_not_file e (HevA _ He) Hfile).
    + destruct (HevB e He) as [-> | [f [Hf [-> | Hin]]]]; try destruct Hfile.
      exists f. now split.
Qed.

(** C4: when the new path of a folder exists, lines 92-94 go on to the
    next name with the tree, the rename map and the counters as they were
    and the skip logged; and in a whole run a folder skipped for a collision
    is never renamed, is no key of the rename map, is not scanned by Part 2,
    and no file directly in it is renamed. *)
Theorem collision_skips_folder :
  (forall root dir_name new_name todo dirs st,
     folder_new_name dir_name = Some new_name ->
     os_path_exists (fs st) (root ++ [new_name]) = true ->
     exists st',
       folder_loop refuses root (dir_name :: todo) dirs st =
         folder_loop refuses root todo dirs st' /\
       fs st' = fs st /\
       renamed_folder_map st' = renamed_folder_map st /\
       folders_renamed_count st' = folders_renamed_count st /\
       log st' = log st ++ [EvDir root dir_name;
                            EvFolderCollision (root ++ [dir_name]) (root ++ [new_name])]) /\
  (forall fs0 temp_dir t,
     lookup fs0 temp_dir = Some t -> is_dir t = true -> wf t = true ->
     exists st,
       rename_all refuses fs0 temp_dir = Ok st /\
       forall o x, In (EvFolderCollision o x) (log st) ->
         (forall nw, ~ In (EvFolderRenamed o nw) (log st)) /\
         ~ In o (map fst (renamed_folder_map st)) /\
         ~ In o (scanned (log st)) /\
         (forall a b, In (EvFileRenamed a b) (log st) -> dirname a <> o)).
Proof.
  split.
  - intros root dir_name new_name todo dirs st Hn Hex.
    rewrite folder_loop_step, Hn. cbn zeta. rewrite Hex.
    eexists. split; [reflexivity|]. cbn [fs renamed_folder_map folders_renamed_count log emit].
    now rewrite <- List.app_assoc.
  - intros fs0 temp_dir t Hl Hd Hwf.
    destruct (rename_all_log refuses fs0 temp_dir t Hl Hd Hwf)
      as (st & evsA & evsB & Hrun & Hlog & Hmap & Hren & Hscan & Hnd & HevA & HevB).
    exists st. split; [exact Hrun|]. intros o x Hc.
    assert (Hiff : forall o nw, In (o, nw) (renames evsA) <-> In (EvFolderRenamed o nw) (log st)).
    { intros o' nw. rewrite <- Hren. apply renames_In. }
    rewrite Forall_forall in HevA.
    assert (HcA : In (EvFolderCollision o x) evsA).
    { rewrite Hlog in Hc. apply in_app_iff in Hc as [Hc|Hc]; [assumption|].
      destruct (HevB _ Hc) as [E | [f [_ [E | Hin]]]]; try discriminate.
      now apply file_event_in_file_event in Hin. }
    destruct (HevA _ HcA) as (r & d & b & -> & _ & Hb).
    assert (Hval : forall f, In f (map snd (renames evsA)) -> f <> r ++ [d]).
    { intros f Hf E. subst f. apply in_map_iff in Hf as [[o' nw] [E Hin]]. simpl in E. subst nw.
      apply renames_In in Hin. destruct (HevA _ Hin) as (r' & d' & b' & _ & E & Hb').
      exact (new_path_not_old _ _ _ _ _ _ Hb Hb' E). }
    split; [|split; [|split]].
    + intros nw Hin.
      pose proof (one_outcome _ _ _ (r ++ [d]) Hnd Hc Hin eq_refl eq_refl). discriminate.
    + rewrite Hmap. intros Hin. apply in_keys in Hin as [nw Hin]. apply Hiff in Hin.
      pose proof (one_outcome _ _ _ (r ++ [d]) Hnd Hc Hin eq_refl eq_refl). discriminate.
    + rewrite Hscan. intros Hin. exact (Hval _ Hin eq_refl).
    + intros a b' Hin. rewrite Hlog in Hin. apply in_app_iff in Hin as [Hin|Hin].
      * destruct (HevA _ Hin).
      * destruct (HevB _ Hin) as [E | [f [Hf [E | Hfile]]]]; try discriminate.
        destruct Hfile as [x' [E | [[err E] | [t' [_ E]]]]]; try discriminate.
        injection E as -> _. rewrite dirname_snoc. now apply Hval.
Qed.


End RunClaims.

Lemma rename_map_is_scope_of_part_two_witness :
  exists st,
    rename_all locked upload ["tmp"] = Ok st /\
    scanned (log st) = dict_values (renamed_folder_map st) /\
    (forall o nw, In (o, nw) (renamed_folder_map st) <-> In (EvFolderRenamed o nw) (log st)) /\
    (forall o nw, In (o, nw) (renamed_folder_map st) ->
       exists r d b, o = r ++ [d] /\ nw = r ++ [b] /\ folder_new_name d = Some b) /\
    (forall r d, folder_new_name d = None ->
       ~ In (r ++ [d]) (map fst (renamed_folder_map st))) /\
    (forall o x, In (EvFolderCollision o x) (log st) ->
       ~ In o (map fst (renamed_folder_map st))) /\
    (forall o e, In (EvFolderFailed o (OSError e)) (log st) ->
       ~ In o (map fst (renamed_folder_map st))) /\
    (forall e, In e (log st) -> file_event e ->
       exists f, In f (dict_values (renamed_folder_map st)) /\ file_event_in f e).
Proof.
  eapply (rename_map_is_scope_of_part_two locked upload ["tmp"]);
    [vm_compute; reflexivity | reflexivity | vm_compute; reflexivity].
Defined.

(** The run on the sample upload: the map, and the folders scanned. *)
Example scope_on_upload :
  exists st,
    rename_all locked upload ["tmp"] = Ok st /\
    renamed_folder_map st =
      [(["tmp"; "wrap"; "AC001"], ["tmp"; "wrap"; "1"]);
       (["tmp"; "wrap"; "AC010"], ["tmp"; "wrap"; "10"]);
       (["tmp"; "wrap"; "ACx"; "AC7"], ["tmp"; "wrap"; "ACx"; "7"])] /\
    scanned (log st) =
      [["tmp"; "wrap"; "1"]; ["tmp"; "wrap"; "10"]; ["tmp"; "wrap"; "ACx"; "7"]] /\
    lookup (fs st) ["tmp"; "wrap"; "AC9"; "S03A0010095.pdf"] = Some (File content_a) /\
    lookup (fs st) ["tmp"; "wrap"; "1"; "AC002"; "S03A0020001.pdf"] = Some (File content_a).
Proof. eexists. split; [vm_compute; reflexivity|]. now vm_compute. Qed.

Lemma collision_skips_folder_witness :
  (exists st',
     folder_loop nofail ["tmp"] ["AC001"; "1"] ["AC001"; "1"] (initial siblings) =
       folder_loop nofail ["tmp"] ["1"] ["AC001"; "1"] st' /\
     fs st' = siblings /\
     renamed_folder_map st' = [] /\
     folders_renamed_count st' = 0 /\
     log st' = [EvDir ["tmp"] "AC001"; EvFolderCollision ["tmp"; "AC001"] ["tmp"; "1"]]) /\
  (exists st,
     rename_all nofail siblings ["tmp"] = Ok st /\
     forall o x, In (EvFolderCollision o x) (log st) ->
       (forall nw, ~ In (EvFolderRenamed o nw) (log st)) /\
       ~ In o (map fst (renamed_folder_map st)) /\
       ~ In o (scanned (log st)) /\
       (forall a b, In (EvFileRenamed a b) (log st) -> dirname a <> o)).
Proof.
  split.
  - apply (proj1 (collision_skips_folder nofail) ["tmp"] "AC001" "1" ["1"] ["AC001"; "1"]
             (initial siblings)); vm_compute; reflexivity.
  - eapply (proj2 (collision_skips_folder nofail) siblings ["tmp"]);
      [vm_compute; reflexivity | reflexivity | vm_compute; reflexivity].
Defined.

(** The siblings [AC001] and [1]: the run changes nothing, and Part 2
    scans no folder. *)
Example siblings_AC001_and_1 :
  rename_all nofail siblings ["tmp"] =
  Ok (mkState siblings 0 [] 0
        [EvWalk ["tmp"]; EvDir ["tmp"] "AC001";
         EvFolderCollision ["tmp"; "AC001"] ["tmp"; "1"];
         EvDir ["tmp"] "1"; EvWalk ["tmp"; "AC001"]; EvWalk ["tmp"; "1"]; EvNoFolders]).
Proof. vm_compute. reflexivity. Qed.


(** The run on the sample upload with the refused moves: the entries after
    a failure are processed. *)
Example run_with_refused_moves :
  exists st,
    rename_all locked upload ["tmp"] = Ok st /\
    folders_renamed_count st = 3 /\ files_renamed_count st = 1 /\
    In (EvFolderFailed ["tmp"; "wrap"; "AC9"] (OSError EACCES)) (log st) /\
    In (EvFolderRenamed ["tmp"; "wrap"; "AC001"] ["tmp"; "wrap"; "1"]) (log st) /\
    In (EvFileFailed ["tmp"; "wrap"; "1"; "S09A0010001.pdf"] (OSError EACCES)) (log st) /\
    In (EvFileRenamed ["tmp"; "wrap"; "1"; "S03A0010095.pdf"]
                      ["tmp"; "wrap"; "1"; "S03_1_95.pdf"]) (log st).
Proof. eexists. split; [vm_compute; reflexivity|]. vm_compute. tauto. Qed.

End RunClaims.


(* ================================================================= *)
(** ** The two renaming rules *)

Module NameClaims.
Import FS Script Names Spec Tree Zip App Sample FSFacts StrFacts PatFacts Agree Walk Trace
       Paths Inv Good Files Run Whole Outcome Steps Logs NameFacts.

Section NameClaims.

Variable refuses : path -> path -> bool.




End NameClaims.





End NameClaims.


(* ================================================================= *)
(** ** Two files with one new name *)

Module SameTarget.
Import FS Script Names Spec Tree Zip App Sample FSFacts StrFacts PatFacts Agree Walk Trace
       Paths Inv Good Files Run Whole Outcome Steps Logs NameFacts.

(** A name with a new name is no new name of another one. *)
Lemma source_not_target (f g t : string) :
  pdf_new_name f = Some t -> pdf_new_name g <> Some f.
Proof. intros Hf Hg. apply pdf_new_name_final in Hg as (_ & _ & Hg). congruence. Qed.

Section SameTarget.

Variable refuses : path -> path -> bool.

Lemma file_loop_local_cons (folder_path : path) (f : string) (todo : list string)
    (es : entries) :
  file_loop_local refuses folder_path (f :: todo) es =
  let '(es1, evs1) := file_step_local refuses folder_path f es in
  let '(es2, evs2) := file_loop_local refuses folder_path todo es1 in
  (es2, evs1 ++ evs2).
Proof. reflexivity. Qed.

(** A successful [rename_local] touches its two names only. *)
Lemma rename_local_other (root : path) (a b x : string) (es es' : entries) :
  rename_local refuses root a b es = inr es' -> x <> a -> x <> b ->
  assoc x es' = assoc x es.
Proof.
  unfold rename_local. destruct (refuses _ _); [discriminate|].
  destruct (assoc a es) as [n|]; [|discriminate].
  destruct (a =? b); [now intros [= <-]|].
  intros H Ha Hb.
  assert (E : es' = set_entry b n (remove_entry a es)).
  { destruct (assoc b es) as [[|[|]]|]; destruct n; congruence. }
  subst es'. now rewrite assoc_set_other, assoc_remove_other.
Qed.

(** [os.rename] of a regular file to a name that no directory has. *)
Lemma rename_local_file (root : path) (a b : string) (es : entries) (data : bytes) :
  refuses (root ++ [a]) (root ++ [b]) = false ->
  assoc a es = Some (File data) -> a <> b ->
  (forall es0, assoc b es <> Some (Dir es0)) ->
  exists es', rename_local refuses root a b es = inr es' /\
              assoc b es' = Some (File data) /\ assoc a es' = None.
Proof.
  intros Hr Ha Hab Hb. unfold rename_local. rewrite Hr, Ha.
  destruct (a =? b) eqn:E; [apply String.eqb_eq in E; congruence|].
  exists (set_entry b (File data) (remove_entry a es)). split.
  - destruct (assoc b es) as [[|es0]|] eqn:Eb; try reflexivity. now destruct (Hb es0).
  - split; [apply assoc_set_same|].
    rewrite assoc_set_other by assumption. apply assoc_remove_same.
Qed.

(** One turn of lines 119-139 leaves alone every name but its own and its
    new name, and logs events about its own name only. *)
Lemma file_step_local_other (folder_path : path) (f x : string) (es es1 : entries)
    (evs1 : list event) :
  file_step_local refuses folder_path f es = (es1, evs1) ->
  x <> f -> pdf_new_name f <> Some x -> assoc x es1 = assoc x es.
Proof.
  unfold file_step_local. destruct (PyStr.endswith _ _); [|now intros [= <- <-]].
  destruct (pdf_new_name f) as [t|]; [|now intros [= <- <-]].
  destruct (rename_local refuses folder_path f t es) as [e|es'] eqn:E; intros [= <- <-] Hxf Hxt.
  - reflexivity.
  - apply (rename_local_other _ _ _ _ _ _ E); congruence.
Qed.

Lemma file_step_local_events (folder_path : path) (f : string) (es es1 : entries)
    (evs1 : list event) :
  file_step_local refuses folder_path f es = (es1, evs1) ->
  forall e, In e evs1 ->
    e = EvFileSkipped (folder_path ++ [f]) \/
    (exists err, e = EvFileFailed (folder_path ++ [f]) err) \/
    (exists t, e = EvFileRenamed (folder_path ++ [f]) (folder_path ++ [t])).
Proof.
  unfold file_step_local. destruct (PyStr.endswith _ _); [|now intros [= <- <-] e []].
  destruct (pdf_new_name f) as [t|].
  - destruct (rename_local refuses folder_path f t es) as [err|es'];
      intros [= <- <-] e [<- | []]; eauto.
  - intros [= <- <-] e [<- | []]. now left.
Qed.

(** The loop leaves alone every name that is neither a source nor a
    target of its renames. *)
Lemma file_loop_local_other (folder_path : path) (todo : list string) (x : string) :
  forall es es' evs,
  (In x todo -> pdf_new_name x = None) ->
  (forall f, In f todo -> pdf_new_name f <> Some x) ->
  file_loop_local refuses folder_path todo es = (es', evs) ->
  assoc x es' = assoc x es.
Proof.
  induction todo as [|f todo IH]; intros es es' evs Hs Ht.
  - simpl. now intros [= <- <-].
  - rewrite file_loop_local_cons.
    destruct (file_step_local refuses folder_path f es) as [es1 evs1] eqn:E1.
    destruct (file_loop_local refuses folder_path todo es1) as [es2 evs2] eqn:E2.
    intros [= <- <-].
    rewrite (IH _ _ _ (fun H => Hs (or_intror H)) (fun g H => Ht g (or_intror H)) E2).
    destruct (string_dec x f) as [-> | Hxf].
    + unfold file_step_local in E1. rewrite (Hs (or_introl eq_refl)) in E1.
      destruct (PyStr.endswith _ _); now injection E1 as <- _.
    + apply (file_step_local_other _ _ _ _ _ _ E1 Hxf). apply Ht. now left.
Qed.

(** The events of the loop are about the names of its list. *)
Lemma file_loop_local_about (folder_path : path) (todo : list string) :
  forall es es' evs,
  file_loop_local refuses folder_path todo es = (es', evs) ->
  forall e, In e evs -> exists f, In f todo /\
    (e = EvFileSkipped (folder_path ++ [f]) \/
     (exists err, e = EvFileFailed (folder_path ++ [f]) err) \/
     (exists t, e = EvFileRenamed (folder_path ++ [f]) (folder_path ++ [t]))).
Proof.
  intros es es' evs E e He.
  destruct (file_loop_local_events refuses folder_path todo es es' evs E e He)
    as (f & Hf & [H | [H | [t [_ H]]]]); exists f; eauto 6.
Qed.

Lemma no_failure_later (folder_path : path) (todo : list string) (f : string) :
  forall es es' evs,
  ~ In f todo ->
  file_loop_local refuses folder_path todo es = (es', evs) ->
  forall err, ~ In (EvFileFailed (folder_path ++ [f]) err) evs.
Proof.
  intros es es' evs Hf E err Hin.
  destruct (file_loop_local_about _ _ _ _ _ E _ Hin) as (g & Hg & [H | [[e' H] | [t H]]]);
    try discriminate.
  injection H as H _. apply app_inv_head in H. injection H as ->. tauto.
Qed.

(** Of the files of one folder that have the new name [t], each is
    renamed, and [t] has at the end the content of the last one. *)
Lemma file_loop_local_last (folder_path : path) (t f2 : string) (data2 : bytes)
    (l2 : list string) :
  pdf_new_name f2 = Some t ->
  (forall f, In f l2 -> pdf_new_name f <> Some t) ->
  forall l1 es es' evs,
  NoDup (l1 ++ f2 :: l2) ->
  assoc f2 es = Some (File data2) ->
  (forall f, In f (l1 ++ [f2]) -> pdf_new_name f = Some t ->
     (exists data, assoc f es = Some (File data)) /\
     refuses (folder_path ++ [f]) (folder_path ++ [t]) = false) ->
  (forall es0, assoc t es <> Some (Dir es0)) ->
  file_loop_local refuses folder_path (l1 ++ f2 :: l2) es = (es', evs) ->
  assoc t es' = Some (File data2) /\
  forall f, In f (l1 ++ [f2]) -> pdf_new_name f = Some t ->
    assoc f es' = None /\
    In (EvFileRenamed (folder_path ++ [f]) (folder_path ++ [t])) evs /\
    forall err, ~ In (EvFileFailed (folder_path ++ [f]) err) evs.
Proof.
  intros Hf2 Hl2.
  assert (Htn : pdf_new_name t = None) by (now destruct (pdf_new_name_final _ _ Hf2) as (_ & _ & H)).
  (* one turn for a name that has the new name [t] *)
  assert (Hturn : forall f data es,
    pdf_new_name f = Some t -> assoc f es = Some (File data) ->
    refuses (folder_path ++ [f]) (folder_path ++ [t]) = false ->
    (forall es0, assoc t es <> Some (Dir es0)) ->
    exists es1,
      file_step_local refuses folder_path f es =
        (es1, [EvFileRenamed (folder_path ++ [f]) (folder_path ++ [t])]) /\
      assoc t es1 = Some (File data) /\ assoc f es1 = None).
  { intros f data es Hf Ha Hr Ht.
    assert (Hne : f <> t) by (intros ->; congruence).
    destruct (rename_local_file folder_path f t es data Hr Ha Hne Ht) as (es1 & E & H1 & H2).
    exists es1. split; [|now split].
    unfold file_step_local. now rewrite (pdf_new_name_guard _ _ Hf), Hf, E. }
  induction l1 as [|f l1 IH]; intros es es' evs N Ha2 Hsrc Ht.
  - cbn [List.app] in *. rewrite file_loop_local_cons.
    inversion N as [|? ? N1 N2]; subst.
    destruct (Hsrc f2 (or_introl eq_refl) Hf2) as [_ Hr].
    destruct (Hturn f2 data2 es Hf2 Ha2 Hr Ht) as (es1 & -> & H1 & H2).
    destruct (file_loop_local refuses folder_path l2 es1) as [es2 evs2] eqn:E2.
    intros [= <- <-].
    assert (Kt : assoc t es2 = assoc t es1).
    { apply (file_loop_local_other folder_path l2 t _ _ _ (fun _ => Htn) Hl2 E2). }
    assert (Kf : assoc f2 es2 = assoc f2 es1).
    { eapply (file_loop_local_other folder_path l2 f2); [tauto | | exact E2].
      intros g _. exact (source_not_target _ _ _ Hf2). }
    split; [congruence|]. intros f [<- | []] _.
    split; [congruence|]. split; [now left|].
    intros err [H | H]; [discriminate|].
    exact (no_failure_later folder_path l2 f2 _ _ _ N1 E2 err H).
  - cbn [List.app] in *. rewrite file_loop_local_cons.
    inversion N as [|? ? N1 N2]; subst.
    destruct (file_step_local refuses folder_path f es) as [es1 evs1] eqn:E1.
    destruct (file_loop_local refuses folder_path (l1 ++ f2 :: l2) es1) as [es2 evs2] eqn:E2.
    intros [= <- <-].
    assert (Hkeep : forall g, In g (l1 ++ [f2]) -> pdf_new_name g = Some t ->
                              assoc g es1 = assoc g es).
    { intros g Hg Hgt. apply (file_step_local_other _ _ _ _ _ _ E1).
      - intros ->. apply N1. apply in_app_iff in Hg as [Hg | [<- | []]];
          apply in_app_iff; [now left | right; now left].
      - exact (source_not_target _ _ _ Hgt). }
    assert (Hrest : ~ In f (l1 ++ f2 :: l2)) by exact N1.
    assert (Hdec : pdf_new_name f = Some t \/ pdf_new_name f <> Some t).
    { destruct (pdf_new_name f) as [t'|]; [|right; discriminate].
      destruct (string_dec t' t) as [-> | Hn]; [now left | right; congruence]. }
    destruct Hdec as [Hft | Hft].
    + (* [f] has the new name [t] *)
      destruct (Hsrc f (or_introl eq_refl) Hft) as [[data Ha] Hr].
      destruct (Hturn f data es Hft Ha Hr Ht) as (es1' & E1' & H1 & H2).
      rewrite E1 in E1'. injection E1' as <- ->.
      destruct (IH es1 es2 evs2 N2) as [I1 I2]; [| | | exact E2 |].
      * rewrite Hkeep; [assumption | apply in_app_iff; right; now left | assumption].
      * intros g Hg Hgt. rewrite (Hkeep g Hg Hgt). apply Hsrc; [now right | assumption].
      * intros es0. rewrite H1. discriminate.
      * split; [exact I1|]. intros g [<- | Hg] Hgt.
        -- split; [|split; [now left|]].
           ++ rewrite <- H2.
              eapply (file_loop_local_other folder_path (l1 ++ f2 :: l2) f);
                [intros Hin; destruct (Hrest Hin) | | exact E2].
              intros h _. exact (source_not_target _ _ _ Hgt).
           ++ intros err [H | H]; [discriminate|].
              exact (no_failure_later folder_path _ f _ _ _ Hrest E2 err H).
        -- destruct (I2 g Hg Hgt) as (J1 & J2 & J3).
           split; [exact J1|]. split; [now right|].
           intros err [H | H]; [discriminate | exact (J3 err H)].
    + (* [f] has another new name, or none *)
      assert (Kt : assoc t es1 = assoc t es).
      { destruct (string_dec t f) as [<- | Htf].
        - unfold file_step_local in E1. rewrite Htn in E1.
          destruct (PyStr.endswith _ _); now injection E1 as <- _.
        - apply (file_step_local_other _ _ _ _ _ _ E1); assumption. }
      destruct (IH es1 es2 evs2 N2) as [I1 I2]; [| | | exact E2 |].
      * rewrite Hkeep; [assumption | apply in_app_iff; right; now left | assumption].
      * intros g Hg Hgt. rewrite (Hkeep g Hg Hgt). apply Hsrc; [now right | assumption].
      * intros es0. rewrite Kt. apply Ht.
      * split; [exact I1|]. intros g [<- | Hg] Hgt; [congruence|].
        destruct (I2 g Hg Hgt) as (J1 & J2 & J3).
        split; [exact J1|]. split; [apply in_app_iff; now right|].
        intros err H. apply in_app_iff in H as [H | H]; [|exact (J3 err H)].
        destruct (file_step_local_events _ _ _ _ _ E1 _ H) as [K | [[e' K] | [t' K]]];
          try discriminate.
        injection K as K _. apply app_inv_head in K. injection K as ->.
        apply N1. apply in_app_iff in Hg as [Hg | [<- | []]];
          apply in_app_iff; [now left | right; now left].
Qed.

(** C8, as amended: lines 129-135 rename without looking whether the new
    name is taken.  In a folder where no directory has the new name [t],
    when the system refuses none of the moves, every regular file of the
    listing with the new name [t] is renamed without a warning, and at the
    end the files are gone under their old names and [t] is a regular file
    with the content of the last of them in the listing. *)
Theorem last_file_with_the_new_name_wins (folder_path : path) (es : entries)
    (l1 l2 : list string) (f2 t : string) (data2 : bytes) (st : state) :
  lookup (fs st) folder_path = Some (Dir es) ->
  NoDup (l1 ++ f2 :: l2) ->
  pdf_new_name f2 = Some t -> assoc f2 es = Some (File data2) ->
  (forall f, In f l2 -> pdf_new_name f <> Some t) ->
  (forall f, In f (l1 ++ [f2]) -> pdf_new_name f = Some t ->
     (exists data, assoc f es = Some (File data)) /\
     refuses (folder_path ++ [f]) (folder_path ++ [t]) = false) ->
  (forall es0, assoc t es <> Some (Dir es0)) ->
  exists st' evs,
    file_loop refuses folder_path (l1 ++ f2 :: l2) st = Ok st' /\
    log st' = log st ++ evs /\
    lookup (fs st') (folder_path ++ [t]) = Some (File data2) /\
    forall f, In f (l1 ++ [f2]) -> pdf_new_name f = Some t ->
      lookup (fs st') (folder_path ++ [f]) = None /\
      In (EvFileRenamed (folder_path ++ [f]) (folder_path ++ [t])) evs /\
      forall err, ~ In (EvFileFailed (folder_path ++ [f]) err) evs.
Proof.
  intros Hl N Hf2 Ha2 Hl2 Hsrc Ht.
  rewrite (file_loop_agrees refuses folder_path _ es st Hl).
  destruct (file_loop_local refuses folder_path (l1 ++ f2 :: l2) es) as [es' evs] eqn:E.
  destruct (file_loop_local_last folder_path t f2 data2 l2 Hf2 Hl2 l1 es es' evs
              N Ha2 Hsrc Ht E) as [K1 K2].
  eexists _, evs. split; [reflexivity|]. cbn [log fs with_fs].
  split; [apply log_replay|].
  assert (Hl' : lookup (at_path folder_path (fun _ => Dir es') (fs st)) folder_path
                = Some (Dir es')) by exact (lookup_at_path_same _ _ _ _ Hl).
  split; [now rewrite (lookup_snoc _ _ _ _ Hl')|].
  intros f Hf Hft. rewrite (lookup_snoc _ _ _ _ Hl'). exact (K2 f Hf Hft).
Qed.

End SameTarget.

Lemma last_file_with_the_new_name_wins_witness :
  exists st' evs,
    file_loop nofail ["tmp"; "1"] (["S03A0010095.pdf"] ++ "s03a0010095.pdf" :: [])
              (initial (Dir [("tmp", Dir [("1", Dir two_sources)])])) = Ok st' /\
    log st' = log (initial (Dir [("tmp", Dir [("1", Dir two_sources)])])) ++ evs /\
    lookup (fs st') (["tmp"; "1"] ++ ["S03_1_95.pdf"]) = Some (File content_b) /\
    forall f, In f (["S03A0010095.pdf"] ++ ["s03a0010095.pdf"]) ->
      pdf_new_name f = Some "S03_1_95.pdf" ->
      lookup (fs st') (["tmp"; "1"] ++ [f]) = None /\
      In (EvFileRenamed (["tmp"; "1"] ++ [f]) (["tmp"; "1"] ++ ["S03_1_95.pdf"])) evs /\
      forall err, ~ In (EvFileFailed (["tmp"; "1"] ++ [f]) err) evs.
Proof.
  apply (last_file_with_the_new_name_wins nofail ["tmp"; "1"] two_sources
           ["S03A0010095.pdf"] [] "s03a0010095.pdf" "S03_1_95.pdf" content_b
           (initial (Dir [("tmp", Dir [("1", Dir two_sources)])]))).
  - vm_compute. reflexivity.
  - apply nodupb_NoDup. vm_compute. reflexivity.
  - vm_compute. reflexivity.
  - vm_compute. reflexivity.
  - intros f [].
  - intros f [<- | [<- | []]] _; (split; [eexists; vm_compute; reflexivity | reflexivity]).
  - intros es0. vm_compute. discriminate.
Defined.

(** The whole run on a folder with two files that have one new name. *)
Example same_target_run :
  exists st,
    rename_all nofail same_target ["tmp"] = Ok st /\
    os_listdir (fs st) ["tmp"; "1"] = Some ["S03_1_95.pdf"] /\
    lookup (fs st) ["tmp"; "1"; "S03_1_95.pdf"] = Some (File content_b) /\
    files_renamed_count st = 2.
Proof. eexists. split; [vm_compute; reflexivity|]. now vm_compute. Qed.

(** C8, against the claim as it stands: when a directory of the folder has
    the new name, both renames fail, the two files keep their names and
    their content, and the new name stays the directory it was. *)
Lemma directory_with_the_new_name_blocks_both :
  exists st,
    rename_all nofail blocked_target ["tmp"] = Ok st /\
    pdf_new_name "S03A0010095.pdf" = Some "S03_1_95.pdf" /\
    pdf_new_name "s03a0010095.pdf" = Some "S03_1_95.pdf" /\
    lookup (fs st) ["tmp"; "1"; "S03A0010095.pdf"] = Some (File content_a) /\
    lookup (fs st) ["tmp"; "1"; "s03a0010095.pdf"] = Some (File content_b) /\
    lookup (fs st) ["tmp"; "1"; "S03_1_95.pdf"] = Some (Dir []) /\
    files_renamed_count st = 0 /\
    In (EvFileFailed ["tmp"; "1"; "S03A0010095.pdf"] (OSError EISDIR)) (log st) /\
    In (EvFileFailed ["tmp"; "1"; "s03a0010095.pdf"] (OSError EISDIR)) (log st).
Proof. eexists. split; [vm_compute; reflexivity|]. vm_compute. tauto. Qed.

End SameTarget.


(* ================================================================= *)
(** ** Repackaging writes the files of the tree *)

Module PackFacts.
Import FS Script Zip ZipTree Tree FSFacts Paths Good Run.

Lemma for_each_app {A S : Type} (body : S -> A -> result S) (l1 l2 : list A) (s : S) :
  for_each body (l1 ++ l2) s = rbind (for_each body l1 s) (for_each body l2).
Proof.
  revert s. induction l1 as [|a l1 IH]; intros s; simpl; [reflexivity|].
  destruct (body s a); simpl; [apply IH | reflexivity | reflexivity].
Qed.

Lemma common_len_app (p r : path) : common_len p (p ++ r) = List.length p.
Proof.
  induction p as [|x p IH]; simpl; [now destruct r|].
  now rewrite String.eqb_refl, IH.
Qed.

Lemma skipn_length_app {A : Type} (p r : list A) : skipn (List.length p) (p ++ r) = r.
Proof. induction p; simpl; auto. Qed.

(** The name in the archive of a path below [temp_dir]. *)
Lemma relpath_below (temp_dir r : path) :
  r <> [] -> relpath (temp_dir ++ r) temp_dir = r.
Proof.
  intros Hr. unfold relpath.
  rewrite common_len_app, Nat.sub_diag, skipn_length_app. simpl.
  now destruct r.
Qed.

Lemma names_app (a b : entries) : names (a ++ b) = names a ++ names b.
Proof. apply map_app. Qed.

Section Pack.

Variables (fs : node) (temp_dir : path).

(** Lines 153-156 for the files of one directory. *)
Lemma write_files (q : path) (es : entries) :
  lookup fs (temp_dir ++ q) = Some (Dir es) -> NoDup (names es) ->
  forall l zf, incl l es ->
  for_each (fun zip_file file =>
              zip_write fs zip_file ((temp_dir ++ q) ++ [file])
                        (relpath ((temp_dir ++ q) ++ [file]) temp_dir))
           (file_names l) zf
  = Ok (zf ++ flat_map (fun e => match snd e with
                                 | File data => [(q ++ [fst e], data)]
                                 | Dir _ => []
                                 end) l).
Proof.
  intros Hl Hnd. unfold file_names.
  induction l as [|[x c] l IH]; intros zf Hin; simpl.
  - now rewrite List.app_nil_r.
  - assert (Hin' : incl l es) by (intros e He; apply Hin; now right).
    destruct c as [data|es']; simpl.
    + unfold zip_write. rewrite (lookup_snoc _ _ _ _ Hl).
      rewrite (In_assoc x (File data) es Hnd (Hin _ (or_introl eq_refl))). cbn [rbind].
      rewrite <- List.app_assoc, relpath_below by (now destruct q).
      rewrite IH by assumption. now rewrite <- List.app_assoc.
    + now apply IH.
Qed.

(** Lines 152-156 from the directory [temp_dir/q] down. *)
Lemma repackage_walk (c : node) :
  forall q zf, wf c = true -> lookup fs (temp_dir ++ q) = Some c ->
  for_each
    (fun zip_file '(root, _, files) =>
       for_each
         (fun zip_file file =>
            let file_path := root ++ [file] in
            let archive_name := relpath file_path temp_dir in
            zip_write fs zip_file file_path archive_name)
         files zip_file)
    (os_walk (temp_dir ++ q) c) zf
  = Ok (zf ++ map (fun r => (q ++ fst r, snd r)) (files_below c)).
Proof.
  induction c as [data | es IH] using node_induction; intros q zf Hwf Hl.
  - simpl. now rewrite List.app_nil_r.
  - pose proof (proj1 (wf_Dir es) Hwf) as [Hnd Hwfc].
    cbn [os_walk files_below for_each]. cbv zeta.
    rewrite (write_files q es Hl Hnd es zf (incl_refl es)). cbn [rbind].
    rewrite map_app, List.app_assoc.
    assert (Hfiles : map (fun r => (q ++ fst r, snd r))
              (flat_map (fun e : string * node =>
                 match snd e with File data => [([fst e], data)] | Dir _ => [] end) es)
            = flat_map (fun e : string * node =>
                 match snd e with File data => [(q ++ [fst e], data)] | Dir _ => [] end) es).
    { rewrite map_flat_map. apply flat_map_ext. intros [x [d|es']]; reflexivity. }
    rewrite Hfiles. clear Hfiles.
    assert (Hsub : forall l zf, incl l es ->
      for_each
        (fun zip_file '(root, _, files) =>
           for_each
             (fun zip_file file =>
                let file_path := root ++ [file] in
                let archive_name := relpath file_path temp_dir in
                zip_write fs zip_file file_path archive_name)
             files zip_file)
        (flat_map (fun e => if is_dir (snd e)
                            then os_walk ((temp_dir ++ q) ++ [fst e]) (snd e) else []) l) zf
      = Ok (zf ++ map (fun r => (q ++ fst r, snd r))
                      (flat_map (fun e => if is_dir (snd e)
                                   then map (fun r => (fst e :: fst r, snd r))
                                            (files_below (snd e))
                                   else []) l))).
    { induction l as [|[x c] l IHl]; intros zf0 Hin.
      - simpl. now rewrite List.app_nil_r.
      - assert (Hin' : incl l es) by (intros e He; apply Hin; now right).
        pose proof (Hin _ (or_introl eq_refl)) as Hx.
        cbn [flat_map]. destruct c as [data|es']; cbn [snd fst is_dir].
        + cbn [List.app]. now apply IHl.
        + rewrite for_each_app. rewrite Forall_forall in IH.
          pose proof (IH _ Hx (q ++ [x]) zf0 (Hwfc _ _ Hx)) as IHx.
          cbn [snd] in IHx. rewrite List.app_assoc in IHx. rewrite IHx.
          * cbn [rbind]. rewrite IHl by assumption.
            rewrite map_app, map_map, List.app_assoc. f_equal. f_equal. f_equal.
            apply map_ext. intros [p d]. simpl. now rewrite <- List.app_assoc.
          * rewrite (lookup_snoc _ _ _ _ Hl). now apply In_assoc. }
    exact (Hsub es _ (incl_refl es)).
Qed.

(** Lines 150-156 write the regular files of the tree at [temp_dir], each
    under its path from [temp_dir]. *)
Theorem repackage_files_below (t : node) :
  lookup fs temp_dir = Some t -> wf t = true ->
  repackage fs temp_dir = Ok (files_below t).
Proof.
  intros Hl Hwf. unfold repackage. rewrite Hl.
  pose proof (repackage_walk t [] [] Hwf) as H.
  rewrite List.app_nil_r in H. etransitivity; [exact (H Hl)|]. simpl. f_equal.
  rewrite <- (map_id (files_below t)) at 2. apply map_ext. now intros [p d].
Qed.

End Pack.

End PackFacts.


(* ================================================================= *)
(** ** Extracting what repackaging wrote *)

Module UnpackFacts.
Import FS Script Zip ZipTree Tree FSFacts Walk Paths Good Run Logs PackFacts.

Lemma sanitize_valid (p : path) : forallb valid_name p = true -> sanitize p = p.
Proof.
  unfold sanitize. induction p as [|x p IH]; simpl; [reflexivity|].
  intros H. apply andb_true_iff in H as [Hx Hp].
  unfold valid_name in Hx. rewrite Hx. now rewrite IH.
Qed.

Lemma set_entry_set (k : string) (v w : node) (es : entries) :
  set_entry k w (set_entry k v es) = set_entry k w es.
Proof.
  induction es as [|[x c] es IH]; simpl.
  - now rewrite String.eqb_refl.
  - destruct (x =? k) eqn:E; simpl.
    + now rewrite String.eqb_refl.
    + now rewrite E, IH.
Qed.

Lemma set_entry_same (k : string) (c : node) (es : entries) :
  assoc k es = Some c -> set_entry k c es = es.
Proof.
  induction es as [|[x c'] es IH]; simpl; [discriminate|].
  destruct (x =? k) eqn:E.
  - apply String.eqb_eq in E. now intros [= ->]; subst.
  - intros H. now rewrite IH.
Qed.

Lemma write_file_leaf (x : string) (data : bytes) (es : entries) :
  write_file [x] data (Dir es) =
  match assoc x es with
  | Some (Dir _) => None
  | _ => Some (Dir (set_entry x (File data) es))
  end.
Proof. reflexivity. Qed.

Lemma write_file_deep (x y : string) (p : path) (data : bytes) (es : entries) :
  write_file (x :: y :: p) data (Dir es) =
  match write_file (y :: p) data
          (match assoc x es with Some c => c | None => Dir [] end) with
  | Some sub' => Some (Dir (set_entry x sub' es))
  | None => None
  end.
Proof. reflexivity. Qed.


Lemma extract_into_app (a b : archive) : forall t,
  extract_into (a ++ b) t =
  match extract_into a t with Some t' => extract_into b t' | None => None end.
Proof.
  induction a as [|[p d] a IH]; intros t; simpl; [reflexivity|].
  destruct (write_file (sanitize p) d t); [apply IH | reflexivity].
Qed.

(** The paths of [files_below] are made of names of the tree. *)
Lemma files_below_valid (t : node) :
  valid_names t = true ->
  forall r, In r (files_below t) -> forallb valid_name (fst r) = true /\ fst r <> [].
Proof.
  induction t as [data | es IH] using node_induction; intros Hv r; [intros []|].
  cbn [files_below valid_names] in *. rewrite forallb_forall in Hv.
  rewrite in_app_iff, !in_flat_map. intros [[[x c] [Hin Hr]] | [[x c] [Hin Hr]]].
  - specialize (Hv _ Hin). apply andb_true_iff in Hv as [Hx _]. cbn [fst snd] in *.
    destruct c; [|destruct Hr]. destruct Hr as [<- | []].
    split; [|discriminate].
    change (valid_name x && true = true). now rewrite Hx.
  - specialize (Hv _ Hin). apply andb_true_iff in Hv as [Hx Hc]. cbn [fst snd] in *.
    destruct c as [|es']; [destruct Hr|]. cbn [is_dir] in Hr.
    apply in_map_iff in Hr as [r' [<- Hr']].
    rewrite Forall_forall in IH. destruct (IH _ Hin Hc r' Hr') as [H1 _].
    split; [|discriminate].
    change (valid_name x && forallb valid_name (fst r') = true).
    apply andb_true_iff. split; [exact Hx | exact H1].
Qed.

(** A directory without a file below it has nothing for the archive, and
    conversely. *)
Lemma files_below_nil (t : node) :
  has_file t = false -> files_below t = [].
Proof.
  induction t as [data | es IH] using node_induction; [discriminate|].
  cbn [has_file files_below]. intros H.
  assert (Hall : forall e, In e es -> has_file (snd e) = false).
  { intros e He. destruct (has_file (snd e)) eqn:E; [|reflexivity].
    rewrite <- H. symmetry. apply existsb_exists. now exists e. }
  rewrite Forall_forall in IH.
  rewrite !flat_map_nil; [reflexivity | |].
  - intros [x c] Hin. cbn [fst snd]. destruct (is_dir c); [|reflexivity].
    pose proof (IH _ Hin (Hall _ Hin)) as K. cbn [snd] in K. now rewrite K.
  - intros [x c] Hin. simpl. specialize (Hall _ Hin). now destruct c.
Qed.

Lemma files_below_some (t : node) :
  is_dir t = true -> has_file t = true -> files_below t <> [].
Proof.
  induction t as [data | es IH] using node_induction; [discriminate|].
  intros _ H. cbn [has_file] in H. apply existsb_exists in H as [[x c] [Hin Hc]].
  cbn [snd] in Hc. cbn [files_below]. intros E. apply app_eq_nil in E as [E1 E2].
  destruct c as [data|es'].
  - assert (In ([x], data) (@nil (path * bytes))); [|contradiction].
    rewrite <- E1. apply in_flat_map. exists (x, File data). split; [assumption | now left].
  - rewrite Forall_forall in IH. apply (IH _ Hin eq_refl Hc). cbn [snd].
    destruct (files_below (Dir es')) as [|r l] eqn:El; [reflexivity|].
    assert (In (x :: fst r, snd r) (@nil (path * bytes))); [|contradiction].
    rewrite <- E2. apply in_flat_map. exists (x, Dir es'). split; [assumption|].
    cbn [snd fst is_dir]. rewrite El. now left.
Qed.

Lemma files_below_cons (es : entries) :
  has_file (Dir es) = true -> files_below (Dir es) <> [].
Proof. now apply files_below_some. Qed.

(** Writing the files [L] of a sub-directory [x] under their paths from
    the parent builds in [x] what writing them from [x] builds. *)
Lemma extract_under (x : string) :
  valid_name x = true ->
  forall L sub c acc,
  (forall r, In r L -> forallb valid_name (fst r) = true /\ fst r <> []) ->
  extract_into L sub = Some c ->
  (assoc x acc = Some sub \/ (assoc x acc = None /\ sub = Dir [] /\ L <> [])) ->
  extract_into (map (fun r => (x :: fst r, snd r)) L) (Dir acc)
  = Some (Dir (set_entry x c acc)).
Proof.
  intros Hx. induction L as [|[p d] L IH]; intros sub c acc HL Hex Hacc.
  - simpl in *. injection Hex as <-.
    destruct Hacc as [Hacc | (_ & _ & Hne)]; [|congruence].
    now rewrite (set_entry_same _ _ _ Hacc).
  - destruct (HL (p, d) (or_introl eq_refl)) as [Hp Hpne]. simpl in Hp, Hpne.
    cbn [extract_into map fst snd] in *.
    rewrite (sanitize_valid p Hp) in Hex.
    rewrite (sanitize_valid (x :: p)) by (simpl; now rewrite Hx, Hp).
    destruct (write_file p d sub) as [sub1|] eqn:Ew; [|discriminate].
    assert (Hsub : match assoc x acc with Some c0 => c0 | None => Dir [] end = sub).
    { destruct Hacc as [-> | (-> & -> & _)]; reflexivity. }
    destruct p as [|y p]; [congruence|].
    rewrite write_file_deep, Hsub, Ew.
    rewrite (IH sub1 c (set_entry x sub1 acc)).
    + now rewrite set_entry_set.
    + intros r Hr. apply HL. now right.
    + exact Hex.
    + left. apply assoc_set_same.
Qed.

(** The regular files of a directory, written into [acc]. *)
Lemma extract_files (l : entries) : forall acc,
  NoDup (names acc ++ names l) ->
  (forall e, In e l -> valid_name (fst e) = true) ->
  extract_into (flat_map (fun e => match snd e with
                                   | File data => [([fst e], data)]
                                   | Dir _ => []
                                   end) l) (Dir acc)
  = Some (Dir (acc ++ filter (fun e => negb (is_dir (snd e))) l)).
Proof.
  induction l as [|[x c] l IH]; intros acc N Hv.
  - simpl. now rewrite List.app_nil_r.
  - cbn [flat_map filter fst snd names map] in *.
    assert (Hx : valid_name x = true) by exact (Hv _ (or_introl eq_refl)).
    assert (Hv' : forall e, In e l -> valid_name (fst e) = true)
      by (intros e He; apply Hv; now right).
    destruct c as [data|es']; cbn [is_dir negb List.app extract_into].
    + rewrite (sanitize_valid [x]) by (simpl; now rewrite Hx).
      assert (Hfree : assoc x acc = None).
      { apply assoc_None. apply NoDup_remove_2 in N. rewrite in_app_iff in N. tauto. }
      rewrite write_file_leaf, Hfree, (set_entry_fresh _ _ _ Hfree).
      rewrite IH; [now rewrite <- List.app_assoc | | assumption].
      unfold names in *. rewrite map_app, <- List.app_assoc. exact N.
    + apply IH; [|assumption]. now apply NoDup_remove_1 in N.
Qed.

Lemma NoDup_app_elim {A : Type} (a b : list A) :
  NoDup (a ++ b) -> NoDup a /\ NoDup b /\ forall x, In x a -> In x b -> False.
Proof.
  induction a as [|y a IH]; simpl; intros N.
  - repeat split; [constructor | assumption | tauto].
  - inversion N as [|? ? N1 N2]; subst. destruct (IH N2) as (I1 & I2 & I3).
    rewrite in_app_iff in N1. split; [constructor; tauto|]. split; [assumption|].
    intros x [<- | Hx] Hb; [tauto | exact (I3 x Hx Hb)].
Qed.

Lemma names_filter (f : string * node -> bool) (es : entries) (x : string) :
  In x (names (filter f es)) -> In x (names es).
Proof.
  unfold names. rewrite !in_map_iff. intros [e [<- He]].
  apply filter_In in He as [He _]. eauto.
Qed.

(** The files and the sub-directories of a directory have different names. *)
Lemma NoDup_partition (es : entries) :
  NoDup (names es) ->
  NoDup (names (filter (fun e => negb (is_dir (snd e))) es) ++ dir_names es).
Proof.
  unfold dir_names. induction es as [|[x c] es IH]; [constructor|].
  cbn [filter names map fst snd]. intros N. inversion N as [|? ? N1 N2]; subst.
  specialize (IH N2). destruct (NoDup_app_elim _ _ IH) as (I1 & I2 & I3).
  destruct c as [data|es']; cbn [is_dir negb names map fst List.app].
  - constructor; [|assumption]. rewrite in_app_iff.
    intros [H | H]; apply N1; exact (names_filter _ _ _ H).
  - apply NoDup_app_intro; [assumption | |].
    + constructor; [|assumption]. intros H. apply N1. exact (names_filter _ _ _ H).
    + intros y Hy [<- | Hy']; [apply N1; exact (names_filter _ _ _ Hy) | exact (I3 y Hy Hy')].
Qed.

(** What re-extraction builds from the files of a tree. *)
Theorem extract_files_below (t : node) :
  wf t = true -> valid_names t = true -> is_dir t = true ->
  extract_into (files_below t) (Dir []) = Some (with_files_only t).
Proof.
  induction t as [data | es IH] using node_induction; intros Hwf Hv Hd; [discriminate|].
  pose proof (proj1 (wf_Dir es) Hwf) as [Hnd Hwfc].
  cbn [valid_names] in Hv. rewrite forallb_forall in Hv.
  assert (Hvn : forall e, In e es -> valid_name (fst e) = true).
  { intros e He. specialize (Hv _ He). now apply andb_true_iff in Hv as [H _]. }
  assert (Hvc : forall e, In e es -> valid_names (snd e) = true).
  { intros e He. specialize (Hv _ He). now apply andb_true_iff in Hv as [_ H]. }
  cbn [files_below with_files_only]. rewrite extract_into_app.
  rewrite (extract_files es [] Hnd Hvn). cbn [List.app].
  rewrite Forall_forall in IH.
  assert (Hdirs : forall l acc,
    incl l es -> NoDup (names acc ++ dir_names l) ->
    extract_into
      (flat_map (fun e => if is_dir (snd e)
                          then map (fun r => (fst e :: fst r, snd r)) (files_below (snd e))
                          else []) l) (Dir acc)
    = Some (Dir (acc ++ flat_map (fun e => if is_dir (snd e) && has_file (snd e)
                                           then [(fst e, with_files_only (snd e))]
                                           else []) l))).
  { induction l as [|[x c] l IHl]; intros acc Hin N.
    - simpl. now rewrite List.app_nil_r.
    - assert (Hin' : incl l es) by (intros e He; apply Hin; now right).
      pose proof (Hin _ (or_introl eq_refl)) as Hx.
      unfold dir_names in *. cbn [flat_map filter fst snd names map] in *.
      destruct c as [data|es']; cbn [is_dir andb List.app names map fst] in *.
      + now apply IHl.
      + rewrite extract_into_app.
        assert (Hfree : assoc x acc = None).
        { apply assoc_None. apply NoDup_remove_2 in N. rewrite in_app_iff in N. tauto. }
        destruct (has_file (Dir es')) eqn:Hf.
        * rewrite (extract_under x (Hvn _ Hx) (files_below (Dir es')) (Dir [])
                     (with_files_only (Dir es')) acc).
          -- rewrite (set_entry_fresh _ _ _ Hfree).
             rewrite IHl; [now rewrite <- List.app_assoc | assumption |].
             unfold names in *. rewrite map_app, <- List.app_assoc. exact N.
          -- apply files_below_valid. exact (Hvc _ Hx).
          -- exact (IH _ Hx (Hwfc _ _ Hx) (Hvc _ Hx) eq_refl).
          -- right. split; [assumption|]. split; [reflexivity | now apply files_below_cons].
        * rewrite (files_below_nil _ Hf). cbn [map extract_into].
          apply IHl; [assumption|]. now apply NoDup_remove_1 in N. }
  rewrite (Hdirs es _ (incl_refl es)); [reflexivity|].
  now apply NoDup_partition.
Qed.

End UnpackFacts.


(* ================================================================= *)
(** ** The tree that comes back from the archive *)

Module RoundTrip.
Import FS Script Names Zip ZipTree Tree App Sample FSFacts Walk Paths Good Run Logs
       PackFacts UnpackFacts.

Lemma assoc_app (x : string) (a b : entries) :
  assoc x (a ++ b) = match assoc x a with Some c => Some c | None => assoc x b end.
Proof.
  induction a as [|[k c] a IH]; simpl; [reflexivity|].
  destruct (k =? x); [reflexivity | exact IH].
Qed.

(** Looking a name up in a listing made entry by entry. *)
Lemma assoc_flat_map (g : string * node -> entries) (x : string) (es : entries) :
  (forall e e', In e' (g e) -> fst e' = fst e) ->
  NoDup (names es) ->
  assoc x (flat_map g es) =
  match assoc x es with Some c => assoc x (g (x, c)) | None => None end.
Proof.
  intros Hg. induction es as [|[k c] es IH]; intros N; [reflexivity|].
  cbn [flat_map names map fst] in *. inversion N as [|? ? N1 N2]; subst.
  rewrite assoc_app. cbn [assoc].
  destruct (k =? x) eqn:E.
  - apply String.eqb_eq in E. subst k.
    destruct (assoc x (g (x, c))); [reflexivity|].
    rewrite (IH N2). now rewrite (proj2 (assoc_None x es) N1).
  - assert (Hno : assoc x (g (k, c)) = None).
    { apply assoc_None. unfold names. rewrite in_map_iff. intros [e' [E' He']].
      apply Hg in He'. simpl in He'. apply String.eqb_neq in E. congruence. }
    rewrite Hno. exact (IH N2).
Qed.

Lemma filter_flat_map {A : Type} (f : A -> bool) (l : list A) :
  filter f l = flat_map (fun e => if f e then [e] else []) l.
Proof.
  induction l as [|a l IH]; simpl; [reflexivity|].
  rewrite IH. now destruct (f a).
Qed.

(** The entry [x] of a directory of the tree that comes back. *)
Lemma assoc_with_files_only (x : string) (es : entries) :
  NoDup (names es) ->
  assoc x (filter (fun e => negb (is_dir (snd e))) es
           ++ flat_map (fun e => if is_dir (snd e) && has_file (snd e)
                                 then [(fst e, with_files_only (snd e))]
                                 else []) es)
  = match assoc x es with
    | Some (File data) => Some (File data)
    | Some (Dir es') =>
        if has_file (Dir es') then Some (with_files_only (Dir es')) else None
    | None => None
    end.
Proof.
  intros N. rewrite assoc_app, filter_flat_map.
  rewrite !assoc_flat_map; try assumption.
  - destruct (assoc x es) as [[data|es']|]; cbn [snd fst is_dir negb andb assoc];
      rewrite ?String.eqb_refl; try reflexivity.
    destruct (has_file (Dir es')); cbn [assoc]; now rewrite ?String.eqb_refl.
  - intros e e'. destruct (is_dir (snd e) && has_file (snd e)); [|intros []].
    now intros [<- | []].
  - intros e e'. destruct (negb (is_dir (snd e))); [|intros []].
    now intros [<- | []].
Qed.

Lemma has_file_lookup (p : path) : forall t c,
  lookup t p = Some c -> has_file c = true -> has_file t = true.
Proof.
  induction p as [|x p IH]; intros t c; simpl.
  - now intros [= ->].
  - destruct t as [|es]; [discriminate|].
    destruct (assoc x es) as [c1|] eqn:E; [|discriminate].
    intros Hl Hc. apply existsb_exists. exists (x, c1).
    split; [now apply assoc_In | exact (IH _ _ Hl Hc)].
Qed.

(** What the tree that comes back has at a path. *)
Lemma lookup_with_files_only (p : path) : forall t,
  wf t = true ->
  lookup (with_files_only t) p =
  match lookup t p with
  | Some (File data) => Some (File data)
  | Some (Dir es) =>
      if has_file (Dir es) || match p with [] => true | _ :: _ => false end
      then Some (with_files_only (Dir es)) else None
  | None => None
  end.
Proof.
  induction p as [|x p IH]; intros t Hwf.
  - destruct t as [data|es]; [reflexivity|]. cbn [lookup]. now rewrite orb_true_r.
  - destruct t as [data|es]; [reflexivity|].
    pose proof (proj1 (wf_Dir es) Hwf) as [Hnd Hwfc].
    cbn [with_files_only lookup]. rewrite (assoc_with_files_only x es Hnd).
    destruct (assoc x es) as [[data|es']|] eqn:E; [now destruct p | | reflexivity].
    pose proof (Hwfc _ _ (assoc_In _ _ _ E)) as Hwf'.
    destruct (has_file (Dir es')) eqn:Hf.
    + rewrite (IH _ Hwf'). destruct p as [|y p]; [|reflexivity].
      cbn [lookup]. now rewrite Hf.
    + destruct (lookup (Dir es') p) as [[data|es2]|] eqn:El; try reflexivity.
      * pose proof (has_file_lookup _ _ _ El eq_refl). congruence.
      * destruct (has_file (Dir es2)) eqn:Hf2; [|reflexivity].
        pose proof (has_file_lookup _ _ _ El Hf2). congruence.
Qed.

(** The entries that repackaging writes are the regular files of the tree. *)
Lemma files_below_In (t : node) :
  wf t = true -> is_dir t = true ->
  forall p data, In (p, data) (files_below t) <-> lookup t p = Some (File data).
Proof.
  induction t as [d0 | es IH] using node_induction; intros Hwf Hdir p data.
  - discriminate.
  - pose proof (proj1 (wf_Dir es) Hwf) as [Hnd Hwfc]. rewrite Forall_forall in IH.
    cbn [files_below]. rewrite in_app_iff, !in_flat_map. split.
    + intros [[[x c] [Hin Hr]] | [[x c] [Hin Hr]]]; cbn [fst snd] in Hr.
      * destruct c as [d|]; [|destruct Hr]. destruct Hr as [[= <- <-] | []].
        cbn [lookup]. now rewrite (In_assoc _ _ _ Hnd Hin).
      * destruct c as [|es']; [destruct Hr|]. cbn [is_dir] in Hr.
        apply in_map_iff in Hr as [[p' d'] [[= <- <-] Hr]].
        cbn [lookup]. rewrite (In_assoc _ _ _ Hnd Hin).
        exact (proj1 (IH _ Hin (Hwfc _ _ Hin) eq_refl p' d') Hr).
    + destruct p as [|x p]; [discriminate|]. cbn [lookup].
      destruct (assoc x es) as [c|] eqn:E; [|discriminate].
      pose proof (assoc_In _ _ _ E) as Hin. intros Hl.
      destruct c as [d|es'].
      * left. exists (x, File d). split; [assumption|].
        destruct p; [|discriminate]. injection Hl as ->. now left.
      * right. exists (x, Dir es'). split; [assumption|]. cbn [fst snd is_dir].
        apply in_map_iff. exists (p, data). split; [reflexivity|].
        exact (proj2 (IH _ Hin (Hwfc _ _ Hin) eq_refl p data) Hl).
Qed.

(** C5, as amended: repackaging walks [temp_dir] and writes the regular
    files of the tree there, each under its path from [temp_dir]; the
    archive extracts, and the tree that comes back has the same regular
    files with the same bytes at the same paths, and of the directories
    below the root those that have a regular file at some depth. *)
Theorem repackaged_tree_keeps_the_files (fs : node) (temp_dir : path) (t : node) :
  lookup fs temp_dir = Some t -> is_dir t = true -> wf t = true ->
  valid_names t = true ->
  exists zf t',
    repackage fs temp_dir = Ok zf /\
    (forall p data, In (p, data) zf <-> lookup fs (temp_dir ++ p) = Some (File data)) /\
    extractall zf = Some t' /\
    (forall p data,
       lookup t' p = Some (File data) <-> lookup fs (temp_dir ++ p) = Some (File data)) /\
    (forall p, p <> [] ->
       ((exists es', lookup t' p = Some (Dir es')) <->
        (exists c, lookup fs (temp_dir ++ p) = Some c /\
                   is_dir c = true /\ has_file c = true))).
Proof.
  intros Hl Hd Hwf Hv. exists (files_below t), (with_files_only t).
  assert (Hsub : forall p, lookup fs (temp_dir ++ p) = lookup t p)
    by (intros p; now rewrite lookup_app, Hl).
  split; [exact (repackage_files_below fs temp_dir t Hl Hwf)|].
  split; [intros p data; rewrite Hsub; now apply files_below_In|].
  split; [exact (extract_files_below t Hwf Hv Hd)|].
  split.
  - intros p data. rewrite Hsub, (lookup_with_files_only p t Hwf).
    destruct (lookup t p) as [[d|es]|]; [reflexivity | | reflexivity].
    split; [|discriminate].
    destruct (has_file (Dir es) || match p with [] => true | _ :: _ => false end);
      [|discriminate].
    cbn [with_files_only]. discriminate.
  - intros p Hp. rewrite Hsub, (lookup_with_files_only p t Hwf).
    destruct p as [|x p]; [congruence|]. cbv iota.
    destruct (lookup t (x :: p)) as [[d|es]|].
    + split; [intros [es' H]; discriminate | intros (c & [= <-] & H & _); discriminate].
    + rewrite orb_false_r. destruct (has_file (Dir es)) eqn:Hf.
      * split; [intros _; now exists (Dir es) | intros _; cbn [with_files_only]; eauto].
      * split; [intros [es' H]; discriminate | intros (c & [= <-] & _ & H); congruence].
    + split; [intros [es' H]; discriminate | intros (c & H & _); discriminate].
Qed.

Lemma repackaged_tree_keeps_the_files_witness :
  exists zf t',
    repackage same_target ["tmp"] = Ok zf /\
    (forall p data,
       In (p, data) zf <-> lookup same_target (["tmp"] ++ p) = Some (File data)) /\
    extractall zf = Some t' /\
    (forall p data,
       lookup t' p = Some (File data) <->
       lookup same_target (["tmp"] ++ p) = Some (File data)) /\
    (forall p, p <> [] ->
       ((exists es', lookup t' p = Some (Dir es')) <->
        (exists c, lookup same_target (["tmp"] ++ p) = Some c /\
                   is_dir c = true /\ has_file c = true))).
Proof.
  eapply (repackaged_tree_keeps_the_files same_target ["tmp"]);
    [vm_compute; reflexivity | reflexivity | vm_compute; reflexivity
    | vm_compute; reflexivity].
Defined.

(** The archive of the sample upload after the run: the names begin at
    [temp_dir], wrapping folder included, and the tree comes back. *)
Example archive_of_upload :
  exists st zf,
    rename_all nofail upload ["tmp"] = Ok st /\
    repackage (fs st) ["tmp"] = Ok zf /\
    map fst zf =
      [["wrap"; "9"; "S03_1_95.pdf"]; ["wrap"; "1"; "notes.txt"];
       ["wrap"; "1"; "S09_1_1.pdf"]; ["wrap"; "1"; "S03_1_95.pdf"];
       ["wrap"; "1"; "AC002"; "S03A0020001.pdf"]; ["wrap"; "10"; "S3A0010095.pdf"]] /\
    lookup (fs st) ["tmp"; "wrap"; "ACx"; "7"] = Some (Dir []) /\
    option_map (fun t' => lookup t' ["wrap"; "ACx"]) (extractall zf) = Some None.
Proof.
  eexists _, _. split; [vm_compute; reflexivity|].
  split; [vm_compute; reflexivity|]. now vm_compute.
Qed.

(** C5, against the claim as it stands: a folder without a file, here the
    renamed [AC001], is in the working tree and not in the tree that
    comes back from the archive. *)
Lemma empty_folder_is_lost :
  exists st zf t',
    rename_all nofail with_empty_folder ["tmp"] = Ok st /\
    lookup (fs st) ["tmp"; "1"] = Some (Dir []) /\
    repackage (fs st) ["tmp"] = Ok zf /\
    extractall zf = Some t' /\
    lookup t' ["1"] = None /\
    lookup (fs st) ["tmp"] <> Some t'.
Proof.
  eexists _, _, _. split; [vm_compute; reflexivity|].
  split; [vm_compute; reflexivity|]. split; [vm_compute; reflexivity|].
  split; [vm_compute; reflexivity|]. split; [vm_compute; reflexivity|].
  vm_compute. discriminate.
Qed.

End RoundTrip.


(* ================================================================= *)
(** ** What every successful move keeps, the run keeps

    The two parts change the file system by [shutil.move] (line 96) and
    [os.rename] (line 133) only, each time inside one directory at or
    below [base_path]. *)

Module Keeps.
Import FS Script Names Tree FSFacts Agree Walk Paths Run Steps.

Section Keeps.

Variable refuses : path -> path -> bool.

Lemma lookup_below_file (p : path) (x : string) (fs : node) :
  (forall es, lookup fs p <> Some (Dir es)) -> lookup fs (p ++ [x]) = None.
Proof.
  intros H. rewrite lookup_app.
  destruct (lookup fs p) as [[d|es]|]; try reflexivity. now destruct (H es).
Qed.

(** A successful [os.rename] inside [root] is a change of the entries of
    [root]. *)
Lemma os_rename_inv (fs fs' : node) (root : path) (a b : string) :
  os_rename refuses fs (root ++ [a]) (root ++ [b]) = inr fs' ->
  exists es es', lookup fs root = Some (Dir es) /\
    rename_local refuses root a b es = inr es' /\
    fs' = at_path root (fun _ => Dir es') fs.
Proof.
  intros H. destruct (lookup fs root) as [[d|es]|] eqn:El.
  2: { rewrite (os_rename_local refuses fs root es a b El) in H.
       destruct (rename_local refuses root a b es) as [e|es'] eqn:E; [discriminate|].
       injection H as <-. now exists es, es'. }
  all: assert (Hn : lookup fs (root ++ [a]) = None)
         by (apply lookup_below_file; rewrite El; congruence);
       revert H; unfold os_rename; rewrite Hn;
       destruct (refuses _ _); [discriminate|];
       destruct (root ++ [a]); [discriminate|]; destruct (root ++ [b]); discriminate.
Qed.

(** The same for the [shutil.move] of line 96, which comes after the test
    of line 92. *)
Lemma shutil_move_inv (fs fs' : node) (root : path) (a b : string) :
  os_path_exists fs (root ++ [b]) = false ->
  shutil_move refuses fs (root ++ [a]) (root ++ [b]) = inr fs' ->
  exists es es', lookup fs root = Some (Dir es) /\ assoc b es = None /\
    rename_local refuses root a b es = inr es' /\
    fs' = at_path root (fun _ => Dir es') fs.
Proof.
  intros Hex H.
  assert (Hd : os_path_isdir fs (root ++ [b]) = false).
  { unfold os_path_isdir, os_path_exists in *.
    destruct (lookup fs (root ++ [b])); [discriminate | reflexivity]. }
  unfold shutil_move in H. rewrite Hd in H.
  destruct (os_rename_inv _ _ _ _ _ H) as (es & es' & El & Hr & ->).
  exists es, es'. split; [exact El|]. split; [|now split].
  rewrite (os_path_exists_local fs root es b El) in Hex.
  destruct (assoc b es); [discriminate | reflexivity].
Qed.

Lemma dict_values_set (Q : path -> Prop) (k v : path) (d : list (path * path)) :
  Forall Q (dict_values d) -> Q v -> Forall Q (dict_values (dict_set k v d)).
Proof.
  intros H Hv. induction d as [|[k' v'] d IH]; simpl.
  - now repeat constructor.
  - inversion H as [|? ? H1 H2]; subst.
    destruct (path_eqb k' k); constructor; auto.
Qed.

Section Invariant.

Variable base_path : path.
Variable P : node -> Prop.

(** A move of line 96: [b] is the new name of [a], and is not taken. *)
Hypothesis folder_move :
  forall fs root a b es es',
    is_prefix base_path root = true -> lookup fs root = Some (Dir es) ->
    folder_new_name a = Some b -> assoc b es = None ->
    rename_local refuses root a b es = inr es' ->
    P fs -> P (at_path root (fun _ => Dir es') fs).

(** A rename of line 133: [b] is the new name of [a]. *)
Hypothesis file_move :
  forall fs root a b es es',
    is_prefix base_path root = true -> lookup fs root = Some (Dir es) ->
    pdf_new_name a = Some b ->
    rename_local refuses root a b es = inr es' ->
    P fs -> P (at_path root (fun _ => Dir es') fs).

Lemma folder_loop_keeps (root : path) (todo : list string) :
  is_prefix base_path root = true ->
  forall dirs st st' dirs',
  folder_loop refuses root todo dirs st = Ok (st', dirs') ->
  P (fs st) ->
  Forall (fun nw => is_prefix base_path nw = true) (dict_values (renamed_folder_map st)) ->
  P (fs st') /\
  Forall (fun nw => is_prefix base_path nw = true) (dict_values (renamed_folder_map st')).
Proof.
  intros Hb. induction todo as [|d todo IH]; intros dirs st st' dirs' H HP HF.
  - injection H as <- _. now split.
  - rewrite folder_loop_step in H. cbv zeta in H.
    destruct (folder_new_name d) as [b|] eqn:En; [|exact (IH _ _ _ _ H HP HF)].
    destruct (os_path_exists (fs st) (root ++ [b])) eqn:Ex; [exact (IH _ _ _ _ H HP HF)|].
    destruct (shutil_move refuses (fs st) (root ++ [d]) (root ++ [b])) as [e|fs'] eqn:Em;
      [exact (IH _ _ _ _ H HP HF)|].
    destruct (shutil_move_inv _ _ _ _ _ Ex Em) as (es & es' & El & Hn & Hr & ->).
    assert (HP' : P (at_path root (fun _ => Dir es') (fs st)))
      by (eapply folder_move; eassumption).
    assert (HF' : Forall (fun nw => is_prefix base_path nw = true)
                    (dict_values (dict_set (root ++ [d]) (root ++ [b])
                                           (renamed_folder_map st)))).
    { apply dict_values_set; [exact HF|].
      exact (is_prefix_trans _ _ _ Hb (is_prefix_app root [b])). }
    destruct (list_remove d dirs); exact (IH _ _ _ _ H HP' HF').
Qed.

Lemma walk_folders_keeps (fuel : nat) : forall top st st',
  is_prefix base_path top = true ->
  walk_folders refuses fuel top st = Ok st' ->
  P (fs st) ->
  Forall (fun nw => is_prefix base_path nw = true) (dict_values (renamed_folder_map st)) ->
  P (fs st') /\
  Forall (fun nw => is_prefix base_path nw = true) (dict_values (renamed_folder_map st')).
Proof.
  induction fuel as [|fuel IH]; intros top st st' Hb H HP HF; [discriminate|].
  cbn [walk_folders] in H.
  destruct (scandir (fs st) top) as [[dirs files]|]; [|injection H as <-; now split].
  destruct (folder_loop refuses top dirs dirs (emit (EvWalk top) st))
    as [[st1 dirs1]| |] eqn:E; try discriminate.
  cbn [rbind fst snd] in H.
  destruct (folder_loop_keeps top dirs Hb _ _ _ _ E HP HF) as [HP1 HF1].
  clear E. revert st1 H HP1 HF1.
  induction dirs1 as [|d ds IHd]; intros s H HP1 HF1.
  - injection H as <-. now split.
  - cbn [for_each] in H.
    destruct (walk_folders refuses fuel (top ++ [d]) s) as [s1| |] eqn:E1;
      try discriminate.
    cbn [rbind] in H.
    destruct (IH _ _ _ (is_prefix_trans _ _ _ Hb (is_prefix_app top [d])) E1 HP1 HF1)
      as [HP2 HF2].
    exact (IHd _ H HP2 HF2).
Qed.

Lemma rename_folders_keeps (fs0 : node) (st : state) :
  rename_folders refuses fs0 base_path = Ok st -> P fs0 ->
  P (fs st) /\
  Forall (fun nw => is_prefix base_path nw = true) (dict_values (renamed_folder_map st)).
Proof.
  intros H HP.
  exact (walk_folders_keeps _ _ _ _ (is_prefix_refl _) H HP (Forall_nil _)).
Qed.

Lemma file_loop_keeps (folder_path : path) (todo : list string) :
  is_prefix base_path folder_path = true ->
  forall st st', file_loop refuses folder_path todo st = Ok st' ->
  P (fs st) -> P (fs st').
Proof.
  intros Hb. induction todo as [|f todo IH]; intros st st' H HP.
  - now injection H as <-.
  - rewrite file_loop_step in H.
    destruct (PyStr.endswith _ _); [|exact (IH _ _ H HP)].
    destruct (pdf_new_name f) as [t|] eqn:En; [|exact (IH _ _ H HP)].
    cbv zeta in H.
    destruct (os_rename refuses (fs st) (folder_path ++ [f]) (folder_path ++ [t]))
      as [e|fs'] eqn:Er; [exact (IH _ _ H HP)|].
    destruct (os_rename_inv _ _ _ _ _ Er) as (es & es' & El & Hr & ->).
    apply (IH _ _ H). cbn [fs]. eapply file_move; eassumption.
Qed.

Lemma scan_all_keeps (F : list path) : forall st st',
  Forall (fun f => is_prefix base_path f = true) F ->
  for_each (scan_folder refuses) F st = Ok st' -> P (fs st) -> P (fs st').
Proof.
  induction F as [|f F IH]; intros st st' HF H HP.
  - now injection H as <-.
  - inversion HF as [|? ? Hf HF']; subst. cbn [for_each] in H.
    destruct (scan_folder refuses st f) as [s1| |] eqn:E; try discriminate.
    cbn [rbind] in H. apply (IH _ _ HF' H).
    unfold scan_folder in E. cbv zeta in E.
    destruct (os_listdir _ _) as [l|]; [|discriminate].
    exact (file_loop_keeps f l Hf _ _ E HP).
Qed.

Lemma rename_files_keeps (st st' : state) :
  Forall (fun nw => is_prefix base_path nw = true) (dict_values (renamed_folder_map st)) ->
  rename_files refuses st = Ok st' -> P (fs st) -> P (fs st').
Proof.
  intros HF H HP. unfold rename_files in H. cbv zeta in H.
  eapply scan_all_keeps; [exact HF | exact H |].
  now destruct (dict_values (renamed_folder_map st)).
Qed.

(** Lines 57-139 keep [P]. *)
Lemma rename_all_keeps (fs0 : node) (temp_dir : path) (st : state) :
  detect_base fs0 temp_dir = Ok base_path ->
  rename_all refuses fs0 temp_dir = Ok st -> P fs0 -> P (fs st).
Proof.
  intros Hd H HP. unfold rename_all in H. rewrite Hd in H. cbn [rbind] in H.
  destruct (rename_folders refuses fs0 base_path) as [s| |] eqn:E; try discriminate.
  cbn [rbind] in H. destruct (rename_folders_keeps _ _ E HP) as [A B].
  exact (rename_files_keeps _ _ B H A).
Qed.

End Invariant.

(** *** Well-formed trees *)









End Keeps.

End Keeps.


(* ================================================================= *)
(** ** From the upload to the download (lines 46-156) *)

Module Download.
Import FS Script Names Zip ZipTree Tree App Census Sample FSFacts Agree Walk Paths Good Run
       Whole Logs PackFacts UnpackFacts RoundTrip Keeps.

(** *** The extracted tree *)






(** *** The file system around the extracted tree *)




(** *** What the moves keep *)








(** *** The names of the archive *)





Section Download.

Variable refuses : path -> path -> bool.





End Download.




End Download.


(* ================================================================= *)
(** ** The base path, runs that rename nothing, and the two counts *)

Module Runs.
Import FS Script Names Zip Tree App Census Sample FSFacts Agree Walk Trace Paths Inv Good
       Files Run Whole Outcome Steps Logs Keeps Download.

Section Runs.

Variable refuses : path -> path -> bool.

(** *** The counts and the log *)

Lemma count_record (st : state) (e : event) :
  folders_renamed_count (record st e)
    = folders_renamed_count st + List.length (rename_of e) /\
  files_renamed_count (record st e)
    = files_renamed_count st + List.length (file_rename_of e).
Proof. destruct e; cbn; lia. Qed.

Lemma count_replay (evs : list event) : forall st,
  folders_renamed_count (replay evs st)
    = folders_renamed_count st + List.length (renames evs) /\
  files_renamed_count (replay evs st)
    = files_renamed_count st + List.length (file_renames evs).
Proof.
  induction evs as [|e evs IH]; intros st.
  - cbn. lia.
  - cbn [replay fold_left]. change (fold_left record evs ?s) with (replay evs s).
    destruct (IH (record st e)) as [A B]. destruct (count_record st e) as [C D].
    unfold renames, file_renames in *. cbn [flat_map]. rewrite !length_app. lia.
Qed.

Lemma part1_no_file_rename (evs : list event) :
  Forall part1_event evs -> file_renames evs = [].
Proof.
  induction 1 as [|e evs He _ IH]; [reflexivity|].
  unfold file_renames in *. cbn [flat_map]. rewrite IH. now destruct e.
Qed.

(** *** A tree with no folder to rename *)

Lemma folder_loop_local_quiet (root : path) (todo : list string) :
  forall dirs es,
  (forall d, In d todo -> folder_new_name d = None) ->
  folder_loop_local refuses root todo dirs es = (es, dirs, map (EvDir root) todo).
Proof.
  induction todo as [|d todo IH]; intros dirs es H; [reflexivity|].
  cbn [folder_loop_local]. rewrite (H d (or_introl eq_refl)).
  rewrite IH by (intros x Hx; apply H; now right). reflexivity.
Qed.

Lemma renames_EvDir (root : path) (l : list string) : renames (map (EvDir root) l) = [].
Proof. induction l; [reflexivity | assumption]. Qed.

Lemma walk_children_quiet (top : path) (es : entries) (ds : list string) :
  (forall d, In d ds -> exists c, assoc d es = Some c /\
     fst (walk_tree refuses (top ++ [d]) c) = c /\
     renames (snd (walk_tree refuses (top ++ [d]) c)) = []) ->
  exists evs,
    walk_children (map (fun e => (fst e, walk_tree refuses (top ++ [fst e]) (snd e))) es)
                  ds es = (es, evs) /\
    renames evs = [].
Proof.
  induction ds as [|d ds IH]; intros H; [now exists []|].
  destruct (H d (or_introl eq_refl)) as (c & Ha & Hf & Hr).
  destruct IH as (evs & Hw & He); [intros x Hx; apply H; now right|].
  cbn [walk_children]. rewrite (find_sub refuses top d c es Ha).
  destruct (walk_tree refuses (top ++ [d]) c) as [c' evc] eqn:Ew. cbn [fst snd] in Hf, Hr.
  subst c'. rewrite (map_entry_id d (fun _ => c) es c Ha eq_refl), Hw.
  exists (evc ++ evs). split; [reflexivity|]. now rewrite renames_app, Hr, He.
Qed.

Lemma walk_tree_quiet (n : node) :
  wf n = true -> no_candidate n = true ->
  forall top, fst (walk_tree refuses top n) = n /\
              renames (snd (walk_tree refuses top n)) = [].
Proof.
  induction n as [d | es IH] using node_induction; intros Hwf Hq top; [now split|].
  pose proof (proj1 (wf_Dir es) Hwf) as [Hnd Hc]. rewrite Forall_forall in IH.
  cbn [no_candidate] in Hq. rewrite forallb_forall in Hq.
  assert (Hdirs : forall d, In d (dir_names es) ->
            exists es', In (d, Dir es') es /\ folder_new_name d = None /\
                        no_candidate (Dir es') = true).
  { intros d Hd. apply dir_names_spec in Hd as [es' Hin]. exists es'.
    split; [exact Hin|]. specialize (Hq _ Hin). cbn [fst snd is_dir negb orb] in Hq.
    destruct (folder_new_name d); [discriminate|]. now split. }
  cbn [walk_tree].
  rewrite folder_loop_local_quiet by (intros d Hd; now destruct (Hdirs d Hd) as (? & _ & ? & _)).
  destruct (walk_children_quiet top es (dir_names es)) as (evs & Hw & He).
  { intros d Hd. destruct (Hdirs d Hd) as (es' & Hin & _ & Hq').
    exists (Dir es'). split; [exact (In_assoc _ _ _ Hnd Hin)|].
    exact (IH _ Hin (Hc _ _ Hin) Hq' (top ++ [d])). }
  rewrite Hw. cbn [fst snd]. split; [reflexivity|].
  unfold renames. cbn [flat_map rename_of]. cbn [List.app].
  change (flat_map rename_of ?l) with (renames l).
  now rewrite renames_app, renames_EvDir, He.
Qed.

Lemma no_candidate_lookup (p : path) : forall t n,
  no_candidate t = true -> lookup t p = Some n -> no_candidate n = true.
Proof.
  induction p as [|x p IH]; intros t n Hq Hl; [now injection Hl as <-|].
  destruct t as [d|es]; [discriminate|]. cbn [lookup] in Hl.
  destruct (assoc x es) as [c|] eqn:Ea; [|discriminate].
  apply (IH c n); [|exact Hl]. cbn [no_candidate] in Hq. rewrite forallb_forall in Hq.
  specialize (Hq _ (assoc_In _ _ _ Ea)). cbn [fst snd] in Hq.
  destruct c as [d|es']; [reflexivity|]. cbn [is_dir negb orb] in Hq.
  now apply andb_true_iff in Hq as [_ Hq].
Qed.

(** X4: When no directory of the upload has a name that lines 86-90 give a
    new name to, the run changes nothing: the file system is the same, both
    counts are 0, the rename map is empty, and the log of Part 2 is the
    message of line 112. *)
Theorem nothing_to_rename_changes_nothing (fs0 : node) (temp_dir : path) (t : node) :
  lookup fs0 temp_dir = Some t -> is_dir t = true -> wf t = true ->
  no_candidate t = true ->
  exists st evs,
    rename_all refuses fs0 temp_dir = Ok st /\
    fs st = fs0 /\
    folders_renamed_count st = 0 /\ files_renamed_count st = 0 /\
    renamed_folder_map st = [] /\
    log st = evs ++ [EvNoFolders] /\ renames evs = [] /\ file_renames evs = [].
Proof.
  intros Hl Hd Hwf Hq.
  destruct (detect_base_spec fs0 temp_dir t Hl Hd Hwf)
    as (base_path & n & Hb & Hn & _ & Hwfn & Hpre).
  apply is_prefix_spec in Hpre as [r ->].
  assert (Hqn : no_candidate n = true).
  { rewrite lookup_app, Hl in Hn. exact (no_candidate_lookup r t n Hq Hn). }
  destruct (walk_tree_quiet n Hwfn Hqn (temp_dir ++ r)) as [Hf Hr].
  pose proof (walk_tree_part1 refuses n (temp_dir ++ r)) as Hp1.
  pose proof (rename_folders_spec refuses fs0 (temp_dir ++ r) n Hn Hwfn) as Hrf.
  rewrite Hf, (at_path_id (temp_dir ++ r) (fun _ => n) fs0 n Hn eq_refl) in Hrf.
  set (evs := snd (walk_tree refuses (temp_dir ++ r) n)) in *.
  destruct (count_replay evs (initial fs0)) as [C1 C2].
  rewrite Hr in C1. rewrite (part1_no_file_rename evs Hp1) in C2. cbn in C1, C2.
  pose proof (map_replay_none evs (initial fs0) Hr) as Hm. cbn in Hm.
  exists (emit EvNoFolders (with_fs fs0 (replay evs (initial fs0)))), evs.
  split.
  - unfold rename_all. rewrite Hb. cbn [rbind]. rewrite Hrf. cbn [rbind].
    unfold rename_files. cbv zeta. cbn [renamed_folder_map with_fs]. rewrite Hm.
    reflexivity.
  - cbn [emit fs with_fs folders_renamed_count files_renamed_count renamed_folder_map log].
    rewrite log_replay. cbn [initial log List.app].
    repeat split; try assumption. exact (part1_no_file_rename evs Hp1).
Qed.

(** *** The numbers of the two closing messages (lines 103 and 141) *)

(** X5: The count of folders is the number of lines "Renamed Folder" of the
    log and the number of entries of the rename map; the count of files is
    the number of lines "Renamed File". *)
Theorem counts_are_the_renames_of_the_log (fs0 : node) (temp_dir : path) (t : node) :
  lookup fs0 temp_dir = Some t -> is_dir t = true -> wf t = true ->
  exists st,
    rename_all refuses fs0 temp_dir = Ok st /\
    folders_renamed_count st = List.length (renames (log st)) /\
    folders_renamed_count st = List.length (renamed_folder_map st) /\
    files_renamed_count st = List.length (file_renames (log st)).
Proof.
  intros Hl Hd Hwf.
  destruct (rename_all_spec refuses fs0 temp_dir t Hl Hd Hwf)
    as (base_path & n & fs' & evsB & _ & _ & _ & Er & Hm & _ & _ & HrB & _).
  eexists. split; [exact Er|]. rewrite Hm, log_initial_replay.
  destruct (count_replay (snd (walk_tree refuses base_path n) ++ evsB) (initial fs0))
    as [C1 C2].
  cbn [with_fs folders_renamed_count files_renamed_count].
  rewrite C1, C2. cbn [initial folders_renamed_count files_renamed_count].
  rewrite renames_app, HrB, List.app_nil_r. now repeat split.
Qed.

(** *** A single folder at the top of the upload (lines 57-60) *)

(** X6: When the upload has one entry at the top and it is a folder, this
    folder is the base path; Part 1 starts below it, and after the run the
    folder is there under the name it had, whatever the name. *)
Theorem single_top_folder_keeps_its_name (fs0 : node) (temp_dir : path) (x : string)
    (es : entries) :
  lookup fs0 temp_dir = Some (Dir [(x, Dir es)]) -> wf (Dir es) = true ->
  exists st es',
    detect_base fs0 temp_dir = Ok (temp_dir ++ [x]) /\
    rename_all refuses fs0 temp_dir = Ok st /\
    lookup (fs st) temp_dir = Some (Dir [(x, Dir es')]).
Proof.
  intros Hl Hwf.
  assert (Hwft : wf (Dir [(x, Dir es)]) = true).
  { apply wf_Dir. split; [repeat constructor; intros []|].
    intros k c [[= <- <-] | []]. exact Hwf. }
  assert (Hb : detect_base fs0 temp_dir = Ok (temp_dir ++ [x])).
  { unfold detect_base, os_listdir. rewrite Hl. cbn [names map fst].
    rewrite (os_path_isdir_local fs0 temp_dir _ x Hl). cbn [assoc].
    now rewrite String.eqb_refl. }
  assert (Hok : exists st, rename_all refuses fs0 temp_dir = Ok st).
  { destruct (rename_all_spec refuses fs0 temp_dir _ Hl eq_refl Hwft)
      as (base_path & n & fs' & evsB & _ & _ & _ & Er & _). eauto. }
  destruct Hok as [st Er].
  assert (Hstep : forall fs root e2,
            is_prefix (temp_dir ++ [x]) root = true ->
            (exists es', lookup fs temp_dir = Some (Dir [(x, Dir es')])) ->
            exists es', lookup (at_path root (fun _ => Dir e2) fs) temp_dir
                        = Some (Dir [(x, Dir es')])).
  { intros fs root e2 Hr [e1 H1]. apply is_prefix_spec in Hr as [r ->].
    rewrite <- List.app_assoc, at_path_app.
    rewrite (lookup_at_path_same _ _ _ _ H1).
    cbn [List.app at_path map_entry]. rewrite String.eqb_refl.
    destruct r as [|y r]; cbn [at_path]; eauto. }
  assert (HP : exists es', lookup (fs st) temp_dir = Some (Dir [(x, Dir es')])).
  { apply (rename_all_keeps refuses (temp_dir ++ [x])
             (fun fs => exists es', lookup fs temp_dir = Some (Dir [(x, Dir es')])))
      with (fs0 := fs0) (temp_dir := temp_dir); try assumption.
    - intros fs root a b e1 e2 Hr _ _ _ _. now apply Hstep.
    - intros fs root a b e1 e2 Hr _ _ _. now apply Hstep.
    - now exists es. }
  destruct HP as [es' HP]. now exists st, es'.
Qed.

(** *** Part 2 and directories *)

(** X7: [os.listdir] lists directories as well, and [os.rename] moves them:
    a directory whose name has the shape of the pattern is renamed by Part
    2 and counted as a renamed file. *)
Theorem directory_named_like_a_pdf_is_renamed (folder_path : path) (f t : string)
    (es sub : entries) (todo : list string) (st : state) :
  lookup (fs st) folder_path = Some (Dir es) ->
  assoc f es = Some (Dir sub) -> pdf_new_name f = Some t -> assoc t es = None ->
  refuses (folder_path ++ [f]) (folder_path ++ [t]) = false ->
  exists st',
    file_loop refuses folder_path (f :: todo) st = file_loop refuses folder_path todo st' /\
    lookup (fs st') (folder_path ++ [t]) = Some (Dir sub) /\
    lookup (fs st') (folder_path ++ [f]) = None /\
    files_renamed_count st' = S (files_renamed_count st) /\
    log st' = log st ++ [EvFileRenamed (folder_path ++ [f]) (folder_path ++ [t])].
Proof.
  intros Hl Hf Hn Ht Hr.
  assert (Hne : f <> t) by (intros ->; congruence).
  rewrite file_loop_step, (NameFacts.pdf_new_name_guard f t Hn), Hn. cbv zeta.
  rewrite (os_rename_local refuses (fs st) folder_path es f t Hl).
  unfold rename_local. rewrite Hr, Hf, Ht, (proj2 (String.eqb_neq f t) Hne).
  eexists. split; [reflexivity|]. cbn [fs files_renamed_count log].
  assert (Hl' : lookup (at_path folder_path
                  (fun _ => Dir (set_entry t (Dir sub) (remove_entry f es))) (fs st))
                  folder_path
                = Some (Dir (set_entry t (Dir sub) (remove_entry f es))))
    by exact (lookup_at_path_same _ _ _ _ Hl).
  rewrite !(lookup_snoc _ _ _ _ Hl').
  rewrite assoc_set_same, (assoc_set_other t f _ _ Hne), assoc_remove_same.
  now repeat split.
Qed.

End Runs.

Lemma nothing_to_rename_changes_nothing_witness :
  exists st evs,
    rename_all locked
      (Dir [("tmp", Dir [("docs", Dir [("S03A0010095.pdf", File content_a)]);
                         ("ACx", Dir [])])]) ["tmp"] = Ok st /\
    fs st = Dir [("tmp", Dir [("docs", Dir [("S03A0010095.pdf", File content_a)]);
                              ("ACx", Dir [])])] /\
    folders_renamed_count st = 0 /\ files_renamed_count st = 0 /\
    renamed_folder_map st = [] /\
    log st = evs ++ [EvNoFolders] /\ renames evs = [] /\ file_renames evs = [].
Proof.
  eapply (nothing_to_rename_changes_nothing locked
            (Dir [("tmp", Dir [("docs", Dir [("S03A0010095.pdf", File content_a)]);
                               ("ACx", Dir [])])]) ["tmp"]);
    [vm_compute; reflexivity | reflexivity | vm_compute; reflexivity
    | vm_compute; reflexivity].
Defined.

Lemma counts_are_the_renames_of_the_log_witness :
  exists st,
    rename_all locked upload ["tmp"] = Ok st /\
    folders_renamed_count st = List.length (renames (log st)) /\
    folders_renamed_count st = List.length (renamed_folder_map st) /\
    files_renamed_count st = List.length (file_renames (log st)).
Proof.
  eapply (counts_are_the_renames_of_the_log locked upload ["tmp"]);
    [vm_compute; reflexivity | reflexivity | vm_compute; reflexivity].
Defined.

Lemma single_top_folder_keeps_its_name_witness :
  exists st es',
    detect_base (Dir [("tmp", Dir [("AC001", Dir [("AC002", Dir [])])])]) ["tmp"]
      = Ok (["tmp"] ++ ["AC001"]) /\
    rename_all nofail (Dir [("tmp", Dir [("AC001", Dir [("AC002", Dir [])])])]) ["tmp"]
      = Ok st /\
    lookup (fs st) ["tmp"] = Some (Dir [("AC001", Dir es')]).
Proof.
  apply (single_top_folder_keeps_its_name nofail
           (Dir [("tmp", Dir [("AC001", Dir [("AC002", Dir [])])])]) ["tmp"] "AC001"
           [("AC002", Dir [])]);
    vm_compute; reflexivity.
Defined.

Lemma directory_named_like_a_pdf_is_renamed_witness :
  exists st',
    file_loop nofail ["tmp"; "1"] ("S03A0010095.pdf" :: [])
              (initial (Dir [("tmp", Dir [("1", Dir [("S03A0010095.pdf", Dir [])])])]))
    = file_loop nofail ["tmp"; "1"] [] st' /\
    lookup (fs st') (["tmp"; "1"] ++ ["S03_1_95.pdf"]) = Some (Dir []) /\
    lookup (fs st') (["tmp"; "1"] ++ ["S03A0010095.pdf"]) = None /\
    files_renamed_count st'
      = S (files_renamed_count
             (initial (Dir [("tmp", Dir [("1", Dir [("S03A0010095.pdf", Dir [])])])]))) /\
    log st' = log (initial (Dir [("tmp", Dir [("1", Dir [("S03A0010095.pdf", Dir [])])])]))
              ++ [EvFileRenamed (["tmp"; "1"] ++ ["S03A0010095.pdf"])
                                (["tmp"; "1"] ++ ["S03_1_95.pdf"])].
Proof.
  apply (directory_named_like_a_pdf_is_renamed nofail ["tmp"; "1"] "S03A0010095.pdf"
           "S03_1_95.pdf" [("S03A0010095.pdf", Dir [])] [] []
           (initial (Dir [("tmp", Dir [("1", Dir [("S03A0010095.pdf", Dir [])])])])));
    vm_compute; reflexivity.
Defined.

End Runs.


(* ================================================================= *)
(** ** The two rules as functions of the name (lines 86-90, 119-127) *)

Module Rules.
Import PyStr Pattern Names Spec StrFacts PatFacts Trace NameFacts.

(** *** Letter case *)

Lemma lower_upper_ascii (c : ascii) : lower_ascii (upper_ascii c) = lower_ascii c.
Proof. destruct c as [[] [] [] [] [] [] [] []]; reflexivity. Qed.

Lemma upper_lower_ascii (c : ascii) : upper_ascii (lower_ascii c) = upper_ascii c.
Proof. destruct c as [[] [] [] [] [] [] [] []]; reflexivity. Qed.

Lemma upper_ascii_idem (c : ascii) : upper_ascii (upper_ascii c) = upper_ascii c.
Proof. destruct c as [[] [] [] [] [] [] [] []]; reflexivity. Qed.

Lemma lower_ascii_idem (c : ascii) : lower_ascii (lower_ascii c) = lower_ascii c.
Proof. destruct c as [[] [] [] [] [] [] [] []]; reflexivity. Qed.

Lemma is_digit_upper (c : ascii) : is_digit (upper_ascii c) = is_digit c.
Proof. destruct c as [[] [] [] [] [] [] [] []]; reflexivity. Qed.

Lemma is_digit_lower (c : ascii) : is_digit (lower_ascii c) = is_digit c.
Proof. destruct c as [[] [] [] [] [] [] [] []]; reflexivity. Qed.

Lemma digit_upper (c : ascii) : is_digit c = true -> upper_ascii c = c.
Proof. destruct c as [[] [] [] [] [] [] [] []]; intros H; try discriminate H; reflexivity. Qed.

Lemma digit_lower (c : ascii) : is_digit c = true -> lower_ascii c = c.
Proof. destruct c as [[] [] [] [] [] [] [] []]; intros H; try discriminate H; reflexivity. Qed.

Lemma newline_upper (c : ascii) : Ascii.eqb (upper_ascii c) "010" = Ascii.eqb c "010".
Proof. destruct c as [[] [] [] [] [] [] [] []]; reflexivity. Qed.

Lemma newline_lower (c : ascii) : Ascii.eqb (lower_ascii c) "010" = Ascii.eqb c "010".
Proof. destruct c as [[] [] [] [] [] [] [] []]; reflexivity. Qed.

Lemma uint_of_char_nondigit (c : ascii) (d : option uint) :
  is_digit c = false -> uint_of_char c d = None.
Proof.
  destruct d as [d|]; [|reflexivity].
  destruct c as [[] [] [] [] [] [] [] []]; intros H; try discriminate H; reflexivity.
Qed.

Section CaseMap.

(** A change of letter case, character by character. *)
Variable m : ascii -> ascii.
Variable mstr : string -> string.
Hypothesis mstr_nil : mstr "" = "".
Hypothesis mstr_cons : forall c s, mstr (String c s) = String (m c) (mstr s).
Hypothesis m_lower : forall c, lower_ascii (m c) = lower_ascii c.
Hypothesis m_upper : forall c, upper_ascii (m c) = upper_ascii c.
Hypothesis m_is_digit : forall c, is_digit (m c) = is_digit c.
Hypothesis m_digit : forall c, is_digit c = true -> m c = c.
Hypothesis m_newline : forall c, Ascii.eqb (m c) "010" = Ascii.eqb c "010".

Lemma lower_m (s : string) : lower (mstr s) = lower s.
Proof.
  induction s as [|c s IH]; [now rewrite mstr_nil|].
  rewrite mstr_cons. cbn [lower]. now rewrite m_lower, IH.
Qed.

Lemma upper_m (s : string) : upper (mstr s) = upper s.
Proof.
  induction s as [|c s IH]; [now rewrite mstr_nil|].
  rewrite mstr_cons. cbn [upper]. now rewrite m_upper, IH.
Qed.

Lemma findall_m (s : string) : forall cur,
  findall_digits_from cur (mstr s) = findall_digits_from cur s.
Proof.
  induction s as [|c s IH]; intros cur; [now rewrite mstr_nil|].
  rewrite mstr_cons. cbn [findall_digits_from]. rewrite m_is_digit.
  destruct (is_digit c) eqn:E.
  - rewrite (m_digit c E). apply IH.
  - destruct cur; now rewrite IH.
Qed.

Lemma uint_m (s : string) :
  NilEmpty.uint_of_string (mstr s) = NilEmpty.uint_of_string s.
Proof.
  induction s as [|c s IH]; [now rewrite mstr_nil|].
  rewrite mstr_cons. cbn [NilEmpty.uint_of_string]. rewrite IH.
  destruct (is_digit c) eqn:E; [now rewrite (m_digit c E)|].
  rewrite !uint_of_char_nondigit; congruence.
Qed.

Lemma int_m (s : string) : int (mstr s) = int s.
Proof.
  destruct s as [|c s]; [now rewrite mstr_nil|].
  pose proof (uint_m (String c s)) as H. rewrite mstr_cons in *.
  unfold int. now rewrite H.
Qed.

Lemma atom_m (a : atom) (c : ascii) : atom_matches a (m c) = atom_matches a c.
Proof. destruct a; cbn [atom_matches]; [now rewrite m_lower | apply m_is_digit]. Qed.

Lemma match_seq_m (pat : list atom) : forall s,
  match_seq pat (mstr s) =
  option_map (fun r => (mstr (fst r), mstr (snd r))) (match_seq pat s).
Proof.
  induction pat as [|a pat IH]; intros s; cbn [match_seq].
  - cbn. now rewrite mstr_nil.
  - destruct s as [|c s]; [now rewrite mstr_nil|].
    rewrite mstr_cons, atom_m. destruct (atom_matches a c); [|reflexivity].
    rewrite IH. destruct (match_seq pat s) as [[g r]|]; [|reflexivity].
    cbn. now rewrite mstr_cons.
Qed.

Lemma at_end_m (r : string) : at_end (mstr r) = at_end r.
Proof.
  destruct r as [|c [|c' r]]; rewrite ?mstr_cons, ?mstr_nil; cbn [at_end];
    [reflexivity | apply m_newline | reflexivity].
Qed.

Lemma re_match_m (f : string) :
  re_match_pdf (mstr f) =
  option_map (fun g => (mstr (fst (fst g)), mstr (snd (fst g)), mstr (snd g)))
             (re_match_pdf f).
Proof.
  unfold re_match_pdf, bind.
  rewrite match_seq_m. destruct (match_seq _ f) as [[m1 r1]|]; [|reflexivity].
  cbn [option_map fst snd].
  rewrite match_seq_m. destruct (match_seq _ r1) as [[m2 r2]|]; [|reflexivity].
  cbn [option_map fst snd].
  rewrite match_seq_m. destruct (match_seq _ r2) as [[m3 r3]|]; [|reflexivity].
  cbn [option_map fst snd].
  rewrite match_seq_m. destruct (match_seq _ r3) as [[m4 r4]|]; [|reflexivity].
  cbn [option_map fst snd].
  rewrite match_seq_m. destruct (match_seq _ r4) as [[m5 r5]|]; [|reflexivity].
  cbn [option_map fst snd].
  rewrite at_end_m. now destruct (at_end r5).
Qed.

Lemma pdf_new_name_m (f : string) : pdf_new_name (mstr f) = pdf_new_name f.
Proof.
  unfold pdf_new_name. rewrite lower_m, re_match_m.
  destruct (endswith (lower f) ".pdf"); [|reflexivity].
  destruct (re_match_pdf f) as [[[g1 g2] g3]|]; [|reflexivity].
  cbn [option_map fst snd]. now rewrite upper_m, !int_m.
Qed.

Lemma folder_new_name_m (d : string) : folder_new_name (mstr d) = folder_new_name d.
Proof.
  unfold folder_new_name, findall_digits. now rewrite upper_m, findall_m.
Qed.

End CaseMap.

(** X8: Both rules read a name without regard to the case of its letters: a
    name, its upper-case form and its lower-case form have the same new
    name, or none of them has one. *)
Theorem rules_ignore_letter_case (name : string) :
  folder_new_name (upper name) = folder_new_name name /\
  folder_new_name (lower name) = folder_new_name name /\
  pdf_new_name (upper name) = pdf_new_name name /\
  pdf_new_name (lower name) = pdf_new_name name.
Proof.
  split; [|split; [|split]].
  - apply (folder_new_name_m upper_ascii upper eq_refl (fun _ _ => eq_refl)
             upper_ascii_idem is_digit_upper digit_upper).
  - apply (folder_new_name_m lower_ascii lower eq_refl (fun _ _ => eq_refl)
             upper_lower_ascii is_digit_lower digit_lower).
  - apply (pdf_new_name_m upper_ascii upper eq_refl (fun _ _ => eq_refl)
             lower_upper_ascii upper_ascii_idem is_digit_upper digit_upper newline_upper).
  - apply (pdf_new_name_m lower_ascii lower eq_refl (fun _ _ => eq_refl)
             lower_ascii_idem upper_lower_ascii is_digit_lower digit_lower newline_lower).
Qed.

(** *** The new name of a folder *)

Lemma drop_zeros_nonzero (c : ascii) (s : string) :
  c <> "0"%char -> drop_zeros (String c s) = String c s.
Proof.
  destruct c as [[] [] [] [] [] [] [] []]; intros H; try reflexivity. now destruct H.
Qed.


Lemma drop_zeros_idem (s : string) : drop_zeros (drop_zeros s) = drop_zeros s.
Proof.
  induction s as [|c s IH]; [reflexivity|].
  destruct (Ascii.eqb_spec c "0") as [-> | Hc]; [exact IH|].
  now rewrite !(drop_zeros_nonzero c s Hc).
Qed.

Lemma strip_zeros_idem (s : string) : strip_zeros (strip_zeros s) = strip_zeros s.
Proof.
  unfold strip_zeros. destruct (drop_zeros s) as [|c r] eqn:E; [reflexivity|].
  rewrite <- E, drop_zeros_idem. now rewrite E.
Qed.

(** X9: The new name of a folder is a number in its shortest form: digits
    only, not empty, without a leading zero unless it is [0]; and the rule
    gives the folder [AC] followed by this number the same new name. *)
Theorem new_folder_name_is_a_plain_number (dir_name new_name : string) :
  folder_new_name dir_name = Some new_name ->
  all_digits new_name = true /\ new_name <> "" /\
  strip_zeros new_name = new_name /\
  folder_new_name ("AC" +++ new_name) = Some new_name.
Proof.
  intros H. destruct (folder_new_name_AC _ _ H) as (_ & Hd & Hne).
  assert (Hs : strip_zeros new_name = new_name).
  { unfold folder_new_name in H.
    destruct (startswith (upper dir_name) "AC"); [|discriminate].
    destruct (findall_digits dir_name) as [|number l]; [discriminate|].
    destruct (int number) as [n|] eqn:En; [|discriminate].
    injection H as <-. rewrite (str_int number n En). apply strip_zeros_idem. }
  split; [exact Hd|]. split; [exact Hne|]. split; [exact Hs|].
  assert (H1 : "AC" +++ new_name = "AC" +++ new_name +++ "")
    by now rewrite append_empty_r.
  assert (H2 : startswith (upper ("AC" +++ new_name)) "AC" = true)
    by (cbn [String.append upper]; destruct (upper new_name); vm_compute; reflexivity).
  destruct (folder_new_name_run ("AC" +++ new_name) "AC" new_name "" H1 H2 eq_refl
              Hd Hne eq_refl) as (n & _ & _ & Hf).
  now rewrite Hs in Hf.
Qed.

(** *** Files with the same new name *)










(** *** A newline at the end of a name *)

Lemma match_seq_more (pat : list atom) (x : string) : forall s g r,
  match_seq pat s = Some (g, r) -> match_seq pat (s +++ x) = Some (g, r +++ x).
Proof.
  induction pat as [|a pat IH]; intros s g r H; cbn [match_seq] in *.
  - now injection H as <- <-.
  - destruct s as [|c s]; [discriminate|]. cbn [String.append].
    destruct (atom_matches a c); [|discriminate].
    destruct (match_seq pat s) as [[g' r']|] eqn:E; [|discriminate].
    injection H as <- <-. now rewrite (IH _ _ _ E).
Qed.

(** X11: The [$] of the pattern also matches before a newline that ends the
    name, so the pattern alone accepts a name with a new name followed by
    a newline; the test of line 119 comes first and rejects it. *)
Theorem newline_after_the_name_is_not_renamed (filename new_filename : string) :
  pdf_new_name filename = Some new_filename ->
  re_match_pdf (filename +++ String "010" "") = re_match_pdf filename /\
  re_match_pdf filename <> None /\
  pdf_new_name (filename +++ String "010" "") = None.
Proof.
  intros H. pose proof (pdf_new_name_guard _ _ H) as Hend.
  destruct (re_match_pdf filename) as [[[g1 g2] g3]|] eqn:Hm;
    [|rewrite (pdf_new_name_no_match _ Hm) in H; discriminate].
  split; [|split; [discriminate|]].
  - unfold re_match_pdf, bind in *.
    destruct (match_seq _ filename) as [[m1 r1]|] eqn:H1; [|discriminate].
    destruct (match_seq _ r1) as [[m2 r2]|] eqn:H2; [|discriminate].
    destruct (match_seq _ r2) as [[m3 r3]|] eqn:H3; [|discriminate].
    destruct (match_seq _ r3) as [[m4 r4]|] eqn:H4; [|discriminate].
    destruct (match_seq _ r4) as [[m5 r5]|] eqn:H5; [|discriminate].
    destruct (at_end r5) eqn:Hr5; [|discriminate].
    assert (Hr : r5 = "").
    { destruct r5 as [|c r5]; [reflexivity|]. exfalso.
      destruct r5; [|discriminate]. simpl in Hr5. apply Ascii.eqb_eq in Hr5. subst c.
      apply endswith_spec in Hend as [pre Hpre].
      apply match_seq_app in H1, H2, H3, H4, H5. subst filename r1 r2 r3 r4.
      apply (f_equal str_last) in Hpre.
      rewrite <- !append_assoc, lower_app in Hpre.
      change (lower (String "010" "")) with ("" +++ String "010"%char "") in Hpre.
      change ".pdf" with ("" +++ String "."%char "pdf") in Hpre.
      rewrite <- !append_assoc, !str_last_app in Hpre.
      discriminate. }
    subst r5.
    rewrite (match_seq_more _ _ _ _ _ H1), (match_seq_more _ _ _ _ _ H2),
      (match_seq_more _ _ _ _ _ H3), (match_seq_more _ _ _ _ _ H4),
      (match_seq_more _ _ _ _ _ H5).
    exact Hm.
  - unfold pdf_new_name.
    destruct (endswith (lower (filename +++ String "010" "")) ".pdf") eqn:E;
      [exfalso | reflexivity].
    apply endswith_spec in E as [pre Hpre]. apply (f_equal str_last) in Hpre.
    rewrite lower_app in Hpre.
    change (lower (String "010" "")) with (String "010"%char "") in Hpre.
    change ".pdf" with (String "."%char "pdf") in Hpre.
    rewrite !str_last_app in Hpre. discriminate.
Qed.

Lemma new_folder_name_is_a_plain_number_witness :
  all_digits "420" = true /\ "420" <> "" /\
  strip_zeros "420" = "420" /\
  folder_new_name ("AC" +++ "420") = Some "420".
Proof.
  apply (new_folder_name_is_a_plain_number "ac-0420x7" "420"). vm_compute. reflexivity.
Defined.


Lemma newline_after_the_name_is_not_renamed_witness :
  re_match_pdf ("S03A0010095.pdf" +++ String "010" "") = re_match_pdf "S03A0010095.pdf" /\
  re_match_pdf "S03A0010095.pdf" <> None /\
  pdf_new_name ("S03A0010095.pdf" +++ String "010" "") = None.
Proof.
  apply (newline_after_the_name_is_not_renamed "S03A0010095.pdf" "S03_1_95.pdf").
  vm_compute. reflexivity.
Defined.

End Rules.


(* ================================================================= *)
(** ** The initial scan report (lines 67-76) *)

Module Scan.
Import FS Script Names Zip ZipTree Tree Report Census Sample FSFacts Agree Walk Trace Paths
       Inv Good Run Whole Logs PackFacts Runs.

Lemma dir_names_cons_file (x : string) (d : bytes) (l : entries) :
  dir_names ((x, File d) :: l) = dir_names l.
Proof. reflexivity. Qed.

Lemma file_names_cons_file (x : string) (d : bytes) (l : entries) :
  file_names ((x, File d) :: l) = x :: file_names l.
Proof. reflexivity. Qed.

Lemma dir_names_cons_dir (x : string) (e l : entries) :
  dir_names ((x, Dir e) :: l) = x :: dir_names l.
Proof. reflexivity. Qed.

Lemma file_names_cons_dir (x : string) (e l : entries) :
  file_names ((x, Dir e) :: l) = file_names l.
Proof. reflexivity. Qed.

(** The loop of lines 71-73 over the triples of one walk. *)
Lemma scan_walk (n : node) : forall top a b,
  fold_left (fun '(total_dirs, total_files) '(_, dirs, files) =>
               (total_dirs + List.length dirs, total_files + List.length files))
            (os_walk top n) (a, b)
  = (a + count_dirs n, b + match n with File _ => 0 | Dir _ => count_files n end).
Proof.
  induction n as [d | es IH] using node_induction; intros top a b.
  - cbn. f_equal; lia.
  - cbn [os_walk fold_left].
    assert (Hin : forall l a b,
      Forall (fun e => forall top a b,
        fold_left (fun '(total_dirs, total_files) '(_, dirs, files) =>
                     (total_dirs + List.length dirs, total_files + List.length files))
                  (os_walk top (snd e)) (a, b)
        = (a + count_dirs (snd e),
           b + match snd e with File _ => 0 | Dir _ => count_files (snd e) end)) l ->
      fold_left (fun '(total_dirs, total_files) '(_, dirs, files) =>
                   (total_dirs + List.length dirs, total_files + List.length files))
                (flat_map (fun e => if is_dir (snd e)
                                    then os_walk (top ++ [fst e]) (snd e) else []) l)
                (a + List.length (dir_names l), b + List.length (file_names l))
      = (a + count_dirs (Dir l), b + count_files (Dir l))).
    { induction l as [|[x c] l IHl]; intros a0 b0 HF.
      - cbn. f_equal; lia.
      - inversion HF as [|? ? H1 H2]; subst. cbn [snd] in H1.
        cbn [flat_map fst snd]. rewrite fold_left_app.
        destruct c as [d|es'].
        + cbn [is_dir fold_left].
          rewrite dir_names_cons_file, file_names_cons_file. cbn [List.length].
          replace (b0 + S (List.length (file_names l)))
            with ((b0 + 1) + List.length (file_names l)) by lia.
          rewrite (IHl a0 (b0 + 1) H2).
          cbn [count_dirs count_files fold_right snd is_dir]. f_equal; lia.
        + cbn [is_dir]. rewrite H1.
          rewrite dir_names_cons_dir, file_names_cons_dir. cbn [List.length].
          replace (a0 + S (List.length (dir_names l)) + count_dirs (Dir es'))
            with ((a0 + S (count_dirs (Dir es'))) + List.length (dir_names l)) by lia.
          replace (b0 + List.length (file_names l) + count_files (Dir es'))
            with ((b0 + count_files (Dir es')) + List.length (file_names l)) by lia.
          rewrite (IHl _ _ H2).
          cbn [count_dirs count_files fold_right snd is_dir]. f_equal; lia. }
    exact (Hin es a b IH).
Qed.

(** The totals of the report are the directories and the regular files
    below [base_path], at every depth. *)
Lemma initial_scan_counts (fs : node) (base_path : path) (n : node) :
  lookup fs base_path = Some n -> is_dir n = true ->
  initial_scan fs base_path = (count_dirs n, count_files n).
Proof.
  intros Hl Hd. unfold initial_scan. rewrite Hl.
  rewrite (scan_walk n base_path 0 0). now destruct n.
Qed.

Lemma files_below_length (n : node) :
  is_dir n = true -> List.length (files_below n) = count_files n.
Proof.
  induction n as [d | es IH] using node_induction; intros Hd; [discriminate|].
  cbn [files_below]. rewrite length_app. clear Hd.
  induction es as [|[x c] l IHl]; [reflexivity|].
  inversion IH as [|? ? H1 H2]; subst. specialize (IHl H2). cbn [snd] in H1.
  cbn [flat_map fst snd count_files fold_right] in *. rewrite !length_app.
  destruct c as [d|es'].
  - cbn [is_dir List.length List.app count_files]. lia.
  - cbn [is_dir List.length]. rewrite length_map.
    assert (E : @List.length (list string * bytes) (files_below (Dir es'))
                = count_files (Dir es')) by exact (H1 eq_refl).
    rewrite E. lia.
Qed.

Lemma detect_base_cases (fs0 : node) (temp_dir : path) (t : node) :
  lookup fs0 temp_dir = Some t -> is_dir t = true ->
  detect_base fs0 temp_dir = Ok temp_dir \/
  exists x es, t = Dir [(x, Dir es)] /\ detect_base fs0 temp_dir = Ok (temp_dir ++ [x]).
Proof.
  intros Hl Hd. destruct t as [d|es0]; [discriminate|].
  unfold detect_base, os_listdir. rewrite Hl.
  destruct es0 as [|[x c] [|e l]]; cbn [names map fst]; try (now left).
  rewrite (os_path_isdir_local fs0 temp_dir _ x Hl). cbn [assoc].
  rewrite String.eqb_refl. destruct c as [d|es]; [now left|]. right. now exists x, es.
Qed.

(** X12: The file total of the report is the number of entries that an archive
    of the extracted tree has, and the folder total is the number of
    directories below the base path. *)
Theorem scan_totals_are_the_tree (fs0 : node) (temp_dir : path) (t : node) :
  lookup fs0 temp_dir = Some t -> is_dir t = true -> wf t = true ->
  exists base_path n zf,
    detect_base fs0 temp_dir = Ok base_path /\
    lookup fs0 base_path = Some n /\
    initial_scan fs0 base_path = (count_dirs n, List.length zf) /\
    repackage fs0 temp_dir = Ok zf.
Proof.
  intros Hl Hd Hwf.
  pose proof (repackage_files_below fs0 temp_dir t Hl Hwf) as Hz.
  destruct (detect_base_cases fs0 temp_dir t Hl Hd) as [Hb | (x & es & -> & Hb)].
  - exists temp_dir, t, (files_below t). split; [exact Hb|]. split; [exact Hl|].
    split; [|exact Hz].
    rewrite (initial_scan_counts fs0 temp_dir t Hl Hd). now rewrite files_below_length.
  - assert (Hn : lookup fs0 (temp_dir ++ [x]) = Some (Dir es)).
    { rewrite (lookup_snoc _ _ _ _ Hl). cbn [assoc]. now rewrite String.eqb_refl. }
    exists (temp_dir ++ [x]), (Dir es), (files_below (Dir [(x, Dir es)])).
    split; [exact Hb|]. split; [exact Hn|]. split; [|exact Hz].
    rewrite (initial_scan_counts fs0 _ _ Hn eq_refl).
    rewrite !files_below_length by reflexivity. cbn. f_equal. lia.
Qed.

(** *** The folders renamed and the folders found *)

Lemma sum_sublist (f : string -> nat) (l1 : list string) : forall l2,
  NoDup l1 -> incl l1 l2 -> list_sum (map f l1) <= list_sum (map f l2).
Proof.
  induction l1 as [|a l1 IH]; intros l2 Hnd Hin; [cbn; lia|].
  inversion Hnd as [|? ? Ha Hnd']; subst.
  destruct (in_split a l2 (Hin a (or_introl eq_refl))) as (x & y & ->).
  assert (Hin' : incl l1 (x ++ y)).
  { intros z Hz. pose proof (Hin z (or_intror Hz)) as H.
    apply in_app_iff in H as [H | [H | H]]; apply in_app_iff; auto.
    subst. contradiction. }
  specialize (IH _ Hnd' Hin'). rewrite !map_app, !list_sum_app in *.
  change (list_sum (map f (a :: l1))) with (f a + list_sum (map f l1)).
  change (list_sum (map f (a :: y))) with (f a + list_sum (map f y)). lia.
Qed.

Lemma renames_flat_map (g : string -> list event) (ds : list string) :
  List.length (renames (flat_map g ds))
  = list_sum (map (fun d => List.length (renames (g d))) ds).
Proof.
  induction ds as [|d ds IH]; [reflexivity|].
  cbn [flat_map map list_sum]. now rewrite renames_app, length_app, IH.
Qed.

Lemma count_dirs_children (es : entries) :
  NoDup (names es) ->
  count_dirs (Dir es)
  = List.length (dir_names es)
    + list_sum (map (fun d => match assoc d es with
                              | Some c => count_dirs c
                              | None => 0
                              end) (dir_names es)).
Proof.
  induction es as [|[x c] l IH]; intros Hnd; [reflexivity|].
  inversion Hnd as [|? ? Hx Hnd']; subst. specialize (IH Hnd').
  assert (Hext : map (fun d => match assoc d ((x, c) :: l) with
                               | Some c => count_dirs c | None => 0 end) (dir_names l)
               = map (fun d => match assoc d l with
                               | Some c => count_dirs c | None => 0 end) (dir_names l)).
  { apply map_ext_in. intros d Hd. cbn [assoc].
    destruct (String.eqb_spec x d) as [-> | _]; [|reflexivity].
    exfalso. apply Hx. apply dir_names_spec in Hd as [e He].
    change (In d (names l)). apply in_map_iff. now exists (d, Dir e). }
  destruct c as [d|es'].
  - rewrite dir_names_cons_file, Hext.
    change (count_dirs (Dir ((x, File d) :: l))) with (0 + count_dirs (Dir l)).
    rewrite IH. lia.
  - rewrite dir_names_cons_dir. cbn [map List.length]. rewrite Hext.
    cbn [assoc]. rewrite String.eqb_refl.
    change (count_dirs (Dir ((x, Dir es') :: l)))
      with (S (count_dirs (Dir es')) + count_dirs (Dir l)).
    rewrite IH. unfold list_sum. cbn [fold_right]. lia.
Qed.

Section Found.

Variable refuses : path -> path -> bool.

(** In one directory: the folders renamed and the folders left to walk
    are different folders of the listing. *)
Lemma folder_loop_local_count (root : path) (dn : list string) (es es' : entries)
    (dirs' : list string) (evs : list event) :
  NoDup dn -> (forall x, In x dn -> assoc x es <> None) ->
  folder_loop_local refuses root dn dn es = (es', dirs', evs) ->
  List.length (renames evs) + List.length dirs' <= List.length dn.
Proof.
  intros Hnd Ha E.
  destruct (folder_loop_local_renames refuses root dn dn es es' dirs' evs Hnd Hnd Ha E)
    as [Hr Hall].
  destruct (folder_loop_local_frame refuses root dn dn es es' dirs' evs Hnd Ha E)
    as (Hd & Hi & _).
  rewrite <- (length_map fst (renames evs)).
  rewrite <- (length_map (fun d => root ++ [d]) dirs'), <- length_app.
  rewrite <- (length_map (fun d => root ++ [d]) dn).
  apply NoDup_incl_length.
  - apply NoDup_app_intro; [exact Hr | now apply NoDup_map_snoc |].
    intros p Hp Hq. apply in_map_iff in Hp as [[o nw] [<- Hp]].
    apply renames_In in Hp. destruct (Hall _ _ Hp) as (d & b & -> & _ & _ & _ & Hnot & _).
    apply in_map_iff in Hq as [d' [Hq Hd']]. cbn [fst] in Hq.
    apply app_inj_tail in Hq as [_ ->]. contradiction.
  - intros p Hp. apply in_app_iff in Hp as [Hp | Hp].
    + apply in_map_iff in Hp as [[o nw] [<- Hp]]. apply renames_In in Hp.
      destruct (Hall _ _ Hp) as (d & b & -> & _ & Hd' & _). cbn [fst].
      apply in_map_iff. now exists d.
    + apply in_map_iff in Hp as [d [<- Hd']]. apply in_map_iff. exists d.
      split; [reflexivity | now apply Hi].
Qed.

Lemma walk_tree_count (n : node) :
  forall top, wf n = true ->
  List.length (renames (snd (walk_tree refuses top n))) <= count_dirs n.
Proof.
  induction n as [d | es IH] using node_induction; intros top Hwf; [cbn; lia|].
  pose proof (proj1 (wf_Dir es) Hwf) as [Hnd Hc]. rewrite Forall_forall in IH.
  assert (Hdn : NoDup (dir_names es)) by now apply NoDup_filter_map.
  assert (Ha : forall x, In x (dir_names es) -> assoc x es <> None).
  { intros x Hx. apply dir_names_spec in Hx as [e He].
    rewrite (In_assoc _ _ _ Hnd He). discriminate. }
  cbn [walk_tree].
  destruct (folder_loop_local refuses top (dir_names es) (dir_names es) es)
    as [[es1 dirs1] evs1] eqn:E1.
  destruct (walk_children _ dirs1 es1) as [es2 evs2] eqn:E2. cbn [snd].
  pose proof (folder_loop_local_count top _ es es1 dirs1 evs1 Hdn Ha E1) as Hcount.
  destruct (folder_loop_local_frame refuses top _ _ es es1 dirs1 evs1 Hdn Ha E1)
    as (Hd1 & Hi1 & _).
  destruct (walk_children_spec refuses top es dirs1 es1 es2 evs2 Hd1
              (fun d Hd => Ha d (Hi1 d Hd)) E2) as (-> & _).
  unfold renames at 1. cbn [flat_map rename_of List.app].
  change (flat_map rename_of ?l) with (renames l).
  rewrite renames_app, length_app, renames_flat_map, (count_dirs_children es Hnd).
  assert (Hsum : list_sum (map (fun d => List.length (renames (child_events refuses top es d)))
                               dirs1)
                 <= list_sum (map (fun d => match assoc d es with
                                            | Some c => count_dirs c
                                            | None => 0
                                            end) dirs1)).
  { clear - IH Hc. induction dirs1 as [|d ds IHd]; [apply Nat.le_refl|].
    cbn [map list_sum]. apply Nat.add_le_mono; [|exact IHd].
    unfold child_events. destruct (assoc d es) as [c|] eqn:Ea; [|apply Nat.le_refl].
    pose proof (assoc_In _ _ _ Ea) as Hin. exact (IH _ Hin (top ++ [d]) (Hc _ _ Hin)). }
  pose proof (sum_sublist (fun d => match assoc d es with
                                    | Some c => count_dirs c
                                    | None => 0
                                    end) dirs1 (dir_names es) Hd1 Hi1).
  lia.
Qed.

(** X13: The number of the closing message of Part 1 is at most the folder
    total of the initial report. *)
Theorem renamed_folders_are_among_the_folders_found (fs0 : node) (temp_dir : path)
    (t : node) :
  lookup fs0 temp_dir = Some t -> is_dir t = true -> wf t = true ->
  exists base_path st,
    detect_base fs0 temp_dir = Ok base_path /\
    rename_all refuses fs0 temp_dir = Ok st /\
    folders_renamed_count st <= fst (initial_scan fs0 base_path).
Proof.
  intros Hl Hd Hwf.
  destruct (detect_base_spec fs0 temp_dir t Hl Hd Hwf)
    as (base_path0 & n0 & Hb0 & Hn0 & Hd0 & _ & _).
  destruct (rename_all_spec refuses fs0 temp_dir t Hl Hd Hwf)
    as (base_path & n & fs' & evsB & Hb & Hn & Hwfn & Er & _ & _ & _ & HrB & _).
  assert (base_path0 = base_path) by congruence. subst base_path0.
  assert (n0 = n) by congruence. subst n0.
  eexists _, _. split; [exact Hb|]. split; [exact Er|].
  rewrite (initial_scan_counts fs0 base_path n Hn Hd0). cbn [fst].
  destruct (count_replay (snd (walk_tree refuses base_path n) ++ evsB) (initial fs0))
    as [C1 _].
  cbn [with_fs folders_renamed_count]. rewrite C1. cbn [initial folders_renamed_count].
  rewrite renames_app, HrB, List.app_nil_r. cbn [Nat.add].
  exact (walk_tree_count n base_path Hwfn).
Qed.

End Found.

Lemma scan_totals_are_the_tree_witness :
  exists base_path n zf,
    detect_base upload ["tmp"] = Ok base_path /\
    lookup upload base_path = Some n /\
    initial_scan upload base_path = (count_dirs n, List.length zf) /\
    repackage upload ["tmp"] = Ok zf.
Proof.
  eapply (scan_totals_are_the_tree upload ["tmp"]);
    [vm_compute; reflexivity | reflexivity | vm_compute; reflexivity].
Defined.

Lemma renamed_folders_are_among_the_folders_found_witness :
  exists base_path st,
    detect_base upload ["tmp"] = Ok base_path /\
    rename_all locked upload ["tmp"] = Ok st /\
    folders_renamed_count st <= fst (initial_scan upload base_path).
Proof.
  eapply (renamed_folders_are_among_the_folders_found locked upload ["tmp"]);
    [vm_compute; reflexivity | reflexivity | vm_compute; reflexivity].
Defined.

(** The report on the sample upload: six folders and six files below the
    wrapping folder. *)
Example scan_of_upload : initial_scan upload ["tmp"; "wrap"] = (6, 6).
Proof. vm_compute. reflexivity. Qed.

End Scan.


(* ================================================================= *)
(** ** The number of files before and after *)

Module Sizes.
Import FS Script Names Zip ZipTree Tree App Census Sample FSFacts Agree Walk Paths Run Whole
       Logs PackFacts UnpackFacts RoundTrip Keeps Download Scan.













Section Sizes.

Variable refuses : path -> path -> bool.



End Sizes.



End Sizes.

(* ================================================================= *)
(** ** What Part 2 leaves alone *)

Module Others.
Import FS Script Names Tree Sample FSFacts Agree Files NameFacts SameTarget.

Section Others.

Variable refuses : path -> path -> bool.

(** X16: An entry whose name does not end in [.pdf] (in any case) is after
    lines 118-139 what it was before, whatever the other names of the
    listing are and in whatever order: it is no source of a rename and no
    new name. *)
Theorem other_entries_are_left_alone (folder_path : path) (todo : list string)
    (x : string) (es : entries) (st : state) :
  lookup (fs st) folder_path = Some (Dir es) ->
  PyStr.endswith (PyStr.lower x) ".pdf" = false ->
  exists st',
    file_loop refuses folder_path todo st = Ok st' /\
    lookup (fs st') (folder_path ++ [x]) = lookup (fs st) (folder_path ++ [x]) /\
    forall o nw, In (EvFileRenamed o nw) (log st') -> ~ In (EvFileRenamed o nw) (log st) ->
      o <> folder_path ++ [x] /\ nw <> folder_path ++ [x].
Proof.
  intros Hl Hx.
  assert (Hnone : pdf_new_name x = None) by (unfold pdf_new_name; now rewrite Hx).
  assert (Hnot : forall f, pdf_new_name f <> Some x).
  { intros f Hf. destruct (pdf_new_name_final _ _ Hf) as [He _]. congruence. }
  rewrite (file_loop_agrees refuses folder_path todo es st Hl).
  destruct (file_loop_local refuses folder_path todo es) as [es' evs] eqn:E.
  eexists. split; [reflexivity|]. cbn [fs with_fs log]. split.
  - rewrite (lookup_snoc _ _ _ _ (lookup_at_path_same _ (fun _ => Dir es') _ _ Hl)).
    rewrite (lookup_snoc _ _ _ _ Hl).
    exact (file_loop_local_other refuses folder_path todo x es es' evs
             (fun _ => Hnone) (fun f _ => Hnot f) E).
  - intros o nw Hin Hold. rewrite log_replay in Hin.
    apply in_app_iff in Hin as [Hin | Hin]; [contradiction|].
    destruct (file_loop_local_events refuses folder_path todo es es' evs E _ Hin)
      as (f & _ & [H | [[e' H] | (t & Ht & H)]]); try discriminate.
    injection H as -> ->. split; intros K; apply app_inj_tail in K as [_ K]; subst.
    + congruence.
    + exact (Hnot f Ht).
Qed.

End Others.

Lemma other_entries_are_left_alone_witness :
  exists st',
    file_loop nofail ["tmp"; "1"] ["S03A0010095.pdf"; "notes.txt"]
      (initial (Dir [("tmp", Dir [("1", Dir [("S03A0010095.pdf", File content_a);
                                             ("notes.txt", File content_b)])])])) = Ok st' /\
    lookup (fs st') (["tmp"; "1"] ++ ["notes.txt"])
    = lookup (fs (initial (Dir [("tmp", Dir [("1", Dir [("S03A0010095.pdf", File content_a);
                                                        ("notes.txt", File content_b)])])])))
             (["tmp"; "1"] ++ ["notes.txt"]) /\
    forall o nw, In (EvFileRenamed o nw) (log st') ->
      ~ In (EvFileRenamed o nw)
           (log (initial (Dir [("tmp", Dir [("1", Dir [("S03A0010095.pdf", File content_a);
                                                       ("notes.txt", File content_b)])])]))) ->
      o <> ["tmp"; "1"] ++ ["notes.txt"] /\ nw <> ["tmp"; "1"] ++ ["notes.txt"].
Proof.
  apply (other_entries_are_left_alone nofail ["tmp"; "1"] ["S03A0010095.pdf"; "notes.txt"]
           "notes.txt"
           [("S03A0010095.pdf", File content_a); ("notes.txt", File content_b)]);
    vm_compute; reflexivity.
Defined.

End Others.


(* ================================================================= *)
(** ** The folders that Part 1 looks at *)

Module Coverage.
Import FS Script Names Tree Sample FSFacts Agree Walk Trace Paths Inv Good Run Logs.

Section Coverage.

Variable refuses : path -> path -> bool.

Lemma list_remove_other (d x : string) : forall l l',
  list_remove d l = Some l' -> In x l -> x <> d -> In x l'.
Proof.
  induction l as [|y l IH]; intros l' H Hin Hne; [discriminate|]. cbn [list_remove] in H.
  destruct (String.eqb_spec y d) as [-> | Hyd].
  - injection H as <-. destruct Hin as [-> | Hin]; [contradiction | exact Hin].
  - destruct (list_remove d l) as [l1|] eqn:E; [|discriminate]. injection H as <-.
    destruct Hin as [-> | Hin]; [now left | right; now apply (IH l1)].
Qed.

(** Line 100 is the only place where a name leaves [dirs]: a folder that
    the walk will not enter was renamed. *)
Lemma removed_is_renamed (root : path) (todo : list string) (x : string) :
  forall dirs es es' dirs' evs,
  folder_loop_local refuses root todo dirs es = (es', dirs', evs) ->
  In x dirs -> ~ In x dirs' ->
  exists b, In (EvFolderRenamed (root ++ [x]) (root ++ [b])) evs.
Proof.
  induction todo as [|d todo IH]; intros dirs es es' dirs' evs; simpl.
  - intros [= <- <- <-] Hin Hnot. contradiction.
  - assert (Hsame : forall es1 evs1 X,
      (let '(es2, dirs2, evs2) := folder_loop_local refuses root todo dirs es1 in
       (es2, dirs2, X :: evs1 ++ evs2)) = (es', dirs', evs) ->
      In x dirs -> ~ In x dirs' ->
      exists b, In (EvFolderRenamed (root ++ [x]) (root ++ [b])) evs).
    { intros es1 evs1 X.
      destruct (folder_loop_local refuses root todo dirs es1) as [[es2 dirs2] evs2] eqn:E.
      intros [= <- <- <-] Hin Hnot. destruct (IH _ _ _ _ _ E Hin Hnot) as [b Hb].
      exists b. right. apply in_app_iff. now right. }
    destruct (folder_new_name d) as [b|] eqn:Eb; [|apply Hsame].
    destruct (assoc b es); [apply Hsame|].
    destruct (rename_local refuses root d b es) as [e|es1]; [apply Hsame|].
    destruct (list_remove d dirs) as [dirs1|] eqn:El; [|apply Hsame].
    destruct (folder_loop_local refuses root todo dirs1 es1) as [[es2 dirs2] evs2] eqn:E.
    intros [= <- <- <-] Hin Hnot.
    destruct (String.eqb_spec x d) as [-> | Hne].
    + exists b. right. now left.
    + destruct (IH _ _ _ _ _ E (list_remove_other d x _ _ El Hin Hne) Hnot) as [b' Hb'].
      exists b'. right. now right.
Qed.

Lemma examined_children (g : string -> list event) (ds : list string) (d : string)
    (p : path) :
  In d ds -> In p (examined (g d)) -> In p (examined (flat_map g ds)).
Proof.
  intros Hd Hp. unfold examined in *. apply in_flat_map in Hp as [e [He Hp]].
  apply in_flat_map. exists e. split; [|exact Hp]. apply in_flat_map. now exists d.
Qed.

Lemma walk_tree_covers (n : node) :
  forall top, wf n = true ->
  forall q x es, lookup n (q ++ [x]) = Some (Dir es) ->
  In (top ++ q ++ [x]) (examined (snd (walk_tree refuses top n))) \/
  exists q1 d q2 nw,
    q = q1 ++ d :: q2 /\
    In (EvFolderRenamed (top ++ q1 ++ [d]) nw) (snd (walk_tree refuses top n)).
Proof.
  induction n as [data | es0 IH] using node_induction; intros top Hwf q x es Hl.
  - destruct q; discriminate.
  - pose proof (proj1 (wf_Dir es0) Hwf) as [Hnd Hc]. rewrite Forall_forall in IH.
    assert (Hdn : NoDup (dir_names es0)) by now apply NoDup_filter_map.
    assert (Ha : forall y, In y (dir_names es0) -> assoc y es0 <> None).
    { intros y Hy. apply dir_names_spec in Hy as [e He].
      rewrite (In_assoc _ _ _ Hnd He). discriminate. }
    cbn [walk_tree].
    destruct (folder_loop_local refuses top (dir_names es0) (dir_names es0) es0)
      as [[es1 dirs1] evs1] eqn:E1.
    destruct (walk_children _ dirs1 es1) as [es2 evs2] eqn:E2. cbn [snd].
    destruct (folder_loop_local_events refuses top _ _ es0 es1 dirs1 evs1 E1) as [_ Hex].
    destruct (folder_loop_local_frame refuses top _ _ es0 es1 dirs1 evs1 Hdn Ha E1)
      as (Hd1 & Hi1 & _).
    destruct (walk_children_spec refuses top es0 dirs1 es1 es2 evs2 Hd1
                (fun d Hd => Ha d (Hi1 d Hd)) E2) as (-> & _).
    assert (Hexam : forall p,
              In p (examined evs1) \/
              In p (examined (flat_map (child_events refuses top es0) dirs1)) ->
              In p (examined (EvWalk top :: evs1
                                ++ flat_map (child_events refuses top es0) dirs1))).
    { intros p Hp. change (examined (EvWalk top :: ?l)) with (examined l).
      rewrite examined_app. apply in_app_iff. exact Hp. }
    destruct q as [|d q'].
    + left. cbn [List.app lookup] in Hl.
      destruct (assoc x es0) as [c|] eqn:Ea; [|discriminate]. injection Hl as ->.
      apply Hexam. left. rewrite Hex. apply in_map_iff. exists x.
      split; [reflexivity|]. apply dir_names_spec. exists es. now apply assoc_In.
    + cbn [List.app lookup] in Hl.
      destruct (assoc d es0) as [c|] eqn:Ea; [|discriminate].
      destruct c as [dd|ec]; [destruct q'; discriminate|].
      pose proof (assoc_In _ _ _ Ea) as Hine.
      assert (Hd : In d (dir_names es0)) by (apply dir_names_spec; now exists ec).
      assert (Hch : child_events refuses top es0 d
                    = snd (walk_tree refuses (top ++ [d]) (Dir ec)))
        by (unfold child_events; now rewrite Ea).
      destruct (in_dec string_dec d dirs1) as [Hin | Hnot].
      * destruct (IH _ Hine (top ++ [d]) (Hc _ _ Hine) q' x es Hl)
          as [Hex' | (q1 & d' & q2 & nw & -> & Hr)].
        -- left. apply Hexam. right.
           apply (examined_children _ dirs1 d); [exact Hin|]. rewrite Hch.
           rewrite <- List.app_assoc in Hex'. exact Hex'.
        -- right. exists (d :: q1), d', q2, nw. split; [reflexivity|].
           right. apply in_app_iff. right. apply in_flat_map. exists d.
           split; [exact Hin|]. rewrite Hch. rewrite <- List.app_assoc in Hr. exact Hr.
      * destruct (removed_is_renamed top _ d _ _ _ _ _ E1 Hd Hnot) as [b Hb].
        right. exists [], d, q', (top ++ [b]). split; [reflexivity|].
        right. apply in_app_iff. left. exact Hb.
Qed.

(** X17: Part 1 looks at every folder below [base_path], at every depth, but
    those inside a folder it has renamed: a directory of the tree is
    examined by lines 85-102, or one of the directories above it was
    renamed. *)
Theorem every_folder_is_examined_unless_inside_a_renamed_one (fs0 : node)
    (base_path : path) (n : node) :
  lookup fs0 base_path = Some n -> wf n = true ->
  exists st,
    rename_folders refuses fs0 base_path = Ok st /\
    forall q x es, lookup n (q ++ [x]) = Some (Dir es) ->
      In (base_path ++ q ++ [x]) (examined (log st)) \/
      exists q1 d q2 nw,
        q = q1 ++ d :: q2 /\
        In (EvFolderRenamed (base_path ++ q1 ++ [d]) nw) (log st).
Proof.
  intros Hl Hwf.
  destruct (rename_folders_log refuses fs0 base_path n Hl Hwf) as (st & Hr & _ & Hlog & _).
  exists st. split; [exact Hr|]. rewrite Hlog. intros q x es Hq.
  exact (walk_tree_covers n base_path Hwf q x es Hq).
Qed.

End Coverage.

Lemma every_folder_is_examined_unless_inside_a_renamed_one_witness :
  exists st,
    rename_folders locked upload ["tmp"; "wrap"] = Ok st /\
    forall q x es,
      lookup (Dir [("AC9", Dir [("S03A0010095.pdf", File content_a)]);
                   ("AC001", Dir [("S09A0010001.pdf", File content_a);
                                  ("S03A0010095.pdf", File content_a);
                                  ("notes.txt", File content_b);
                                  ("AC002", Dir [("S03A0020001.pdf", File content_a)])]);
                   ("AC010", Dir [("S3A0010095.pdf", File content_a)]);
                   ("ACx", Dir [("AC7", Dir [])])]) (q ++ [x]) = Some (Dir es) ->
      In (["tmp"; "wrap"] ++ q ++ [x]) (examined (log st)) \/
      exists q1 d q2 nw,
        q = q1 ++ d :: q2 /\
        In (EvFolderRenamed (["tmp"; "wrap"] ++ q1 ++ [d]) nw) (log st).
Proof.
  apply (every_folder_is_examined_unless_inside_a_renamed_one locked upload
           ["tmp"; "wrap"]);
    vm_compute; reflexivity.
Defined.

End Coverage.
